(** * approval-flow-catcher: the event service, embedded and verified

    The service receives a Pub/Sub push envelope, decodes it, routes it on its
    [type] and runs one of the approval-flow handlers, each a short sequence
    of calls to the commerce platform and to the mail provider.

    - Values that arrive in the message are untyped JavaScript values
      ([Js.JsValue]); property reads, truthiness, strict equality and template
      literals follow the language.  A template literal converts its
      argument to a string, which throws on an object with an own [toString]
      key: where the program prints a value of the message, the conversion
      is a step of the function, at the place of the log line.
    - Bodies returned by the platform SDK are records with the fields the
      program reads.
    - An asynchronous function is a tree of calls ([Prog]): a leaf returns or
      throws, a node issues one call to the outside and continues with the
      answer.  [run] plays such a tree against any deterministic outside
      world and records the calls in the order they were issued.
    - [readConfiguration()], [Buffer.from(..).toString()] and [JSON.parse]
      are parameters.  Logging is left out, except where evaluating a log
      argument can throw. *)

From Stdlib Require Import String Ascii List ZArith Lia Bool Arith DecimalString.
Import ListNotations.
Local Open Scope string_scope.
Set Warnings "-register-all".

(* ===================================================================== *)
(** ** JavaScript values and errors *)
(* ===================================================================== *)

Module Js.

(** What [JSON.parse] can produce, plus [undefined].  Numbers are the integral
    ones (an order or subscription version, a length), [JNum n] being the
    Number the numeral [n] is read as: the program observes a number only
    through truthiness, through [=== 0] and inside template literals. *)
Inductive JsValue : Type :=
| JUndefined
| JNull
| JBool (b : bool)
| JNum (n : Z)
| JStr (s : string)
| JArr (items : list JsValue)
| JObj (fields : list (string * JsValue)).

(** Modelled from the spec: class [CustomError] (errors/custom.error.ts is
    not among the sources), the single parameterized kind carrying a status
    code and a message, an [Error] under the name it inherits.  Beside it,
    the other errors the program meets: [TypeError] is the runtime's fault on
    a bad property read or call; [LibraryError] is whatever a client library
    throws or rejects with, by name and message. *)
Inductive JsError : Type :=
| CustomError (statusCode : Z) (message : string)
| TypeError (message : string)
| LibraryError (name message : string).

(** [error.message] *)
Definition message_of (error : JsError) : string :=
  match error with
  | CustomError _ m => m
  | TypeError m => m
  | LibraryError _ m => m
  end.

(** [`${error}`], that is [Error.prototype.toString]: name, colon, message. *)
Definition String_error (error : JsError) : string :=
  match error with
  | CustomError _ m => "Error: " ++ m
  | TypeError m => "TypeError: " ++ m
  | LibraryError n m => n ++ ": " ++ m
  end.

(** [!!v] *)
Definition truthy (v : JsValue) : bool :=
  match v with
  | JUndefined | JNull => false
  | JBool b => b
  | JNum n => negb (n =? 0)%Z
  | JStr s => negb (s =? "")
  | JArr _ | JObj _ => true
  end.

(** [!!s] for a string *)
Definition truthy_string (s : string) : bool := negb (s =? "").

(** [a || b] *)
Definition or_else (a b : JsValue) : JsValue := if truthy a then a else b.

Fixpoint lookup_field (name : string) (fields : list (string * JsValue)) : JsValue :=
  match fields with
  | [] => JUndefined
  | (k, v) :: rest => if k =? name then v else lookup_field name rest
  end.

(** [v.name] for the identifier names the program reads, on a value that is
    neither [undefined] nor [null].  An own field of an object (which holds
    each key once); [length] of an array or a string (a string's is observed
    only through [=== 0]); [undefined] on everything else. *)
Definition member (v : JsValue) (name : string) : JsValue :=
  match v with
  | JObj fields => lookup_field name fields
  | JArr items => if name =? "length" then JNum (Z.of_nat (List.length items)) else JUndefined
  | JStr s => if name =? "length" then JNum (Z.of_nat (String.length s)) else JUndefined
  | _ => JUndefined
  end.

(** The message V8 gives a property read on [undefined] or [null]. *)
Definition cannot_read (what name : string) : JsError :=
  TypeError ("Cannot read properties of " ++ what ++ " (reading '" ++ name ++ "')").

(** [v.name]: throws on [undefined] and [null]. *)
Definition getProp (v : JsValue) (name : string) : JsError + JsValue :=
  match v with
  | JUndefined => inl (cannot_read "undefined" name)
  | JNull => inl (cannot_read "null" name)
  | _ => inr (member v name)
  end.

(** [v?.name] *)
Definition optProp (v : JsValue) (name : string) : JsValue :=
  match v with
  | JUndefined | JNull => JUndefined
  | _ => member v name
  end.

(** [v === 'literal'] *)
Definition strict_eq_string (v : JsValue) (s : string) : bool :=
  match v with
  | JStr t => t =? s
  | _ => false
  end.

(** [v === 0] *)
Definition strict_eq_zero (v : JsValue) : bool :=
  match v with
  | JNum n => (n =? 0)%Z
  | _ => false
  end.

(** The decimal digits of an integer. *)
Definition string_of_Z (n : Z) : string := NilZero.string_of_int (Z.to_int n).

(** *** [Number::toString]

    The Number a numeral for the integer [n >= 0] is read as: [n] itself up
    to 53 significant bits, beyond that [n] rounded to 53 bits, a tie going
    to the even neighbour. *)
Definition Number_of (n : Z) : Z :=
  let shift := (Z.log2 n - 52)%Z in
  if (shift <=? 0)%Z then n
  else
    let q := Z.shiftr n shift in
    let r := Z.land n (Z.ones shift) in
    let half := Z.shiftl 1 (shift - 1) in
    Z.shiftl (if (half <? r)%Z || ((half =? r)%Z && Z.odd q) then q + 1 else q)%Z shift.

(** The multiple of [10^m] that is read back as the Number [x], if there is
    one: the nearer of the two around [x], the even one on a tie. *)
Definition reads_back (x m : Z) : option Z :=
  let p := (10 ^ m)%Z in
  let lo := (x / p * p)%Z in
  let hi := (lo + p)%Z in
  match (Number_of lo =? x)%Z, (Number_of hi =? x)%Z with
  | true, true =>
      Some (if (x - lo <? hi - x)%Z then lo
            else if (hi - x <? x - lo)%Z then hi
            else if Z.even (lo / p) then lo else hi)
  | true, false => Some lo
  | false, true => Some hi
  | false, false => None
  end.

(** The integer with the fewest significant digits that is read back as [x],
    trying [m] trailing zeros, then fewer. *)
Fixpoint shortest (x : Z) (m : nat) : Z :=
  match m with
  | O => x
  | S m' =>
      match reads_back x (Z.of_nat m) with
      | Some v => v
      | None => shortest x m'
      end
  end.

Fixpoint strip_zeros (digits : string) : string :=
  match digits with
  | EmptyString => EmptyString
  | String c rest =>
      match strip_zeros rest with
      | EmptyString => if Ascii.eqb c "0"%char then EmptyString else String c EmptyString
      | kept => String c kept
      end
  end.

(** The digits as they are up to 21 of them, the exponent notation beyond;
    [Infinity] from [2^1024] on. *)
Definition Number_toString_positive (n : Z) : string :=
  let x := Number_of n in
  if (2 ^ 1024 <=? x)%Z then "Infinity"
  else
    let digits := string_of_Z (shortest x (String.length (string_of_Z x) - 1)) in
    if (String.length digits <=? 21)%nat then digits
    else
      match strip_zeros digits with
      | String c rest =>
          String c (if rest =? "" then "" else "." ++ rest)
          ++ "e+" ++ string_of_Z (Z.of_nat (String.length digits - 1))
      | EmptyString => digits
      end.

Definition Number_toString (n : Z) : string :=
  if (n <? 0)%Z then "-" ++ Number_toString_positive (- n)
  else Number_toString_positive n.

(** The fault of a conversion to a primitive value that finds no method to
    call, with the message V8 gives it. *)
Definition cannot_convert : JsError :=
  TypeError "Cannot convert object to primitive value".

(** [Object.hasOwn(object, name)] *)
Definition has_field (name : string) (fields : list (string * JsValue)) : bool :=
  existsb (fun field => fst field =? name) fields.

(** [`${v}`], the conversion to a string.  An array is joined with commas,
    [undefined] and [null] elements left empty, the others converted in
    turn.  An object prints through [toString]: the one it inherits gives
    [[object Object]]; an own [toString] key hides it with a value that
    cannot be called, [valueOf] gives the object back, and the conversion
    throws. *)
Fixpoint String_ (v : JsValue) : JsError + string :=
  match v with
  | JUndefined => inr "undefined"
  | JNull => inr "null"
  | JBool true => inr "true"
  | JBool false => inr "false"
  | JNum n => inr (Number_toString n)
  | JStr s => inr s
  | JArr items =>
      match
        (fix join (items : list JsValue) : JsError + list string :=
           match items with
           | [] => inr []
           | x :: rest =>
               match match x with
                     | JUndefined | JNull => inr ""
                     | _ => String_ x
                     end, join rest with
               | inl fault, _ => inl fault
               | inr _, inl fault => inl fault
               | inr s, inr joined => inr (s :: joined)
               end
           end) items
      with
      | inl fault => inl fault
      | inr joined => inr (String.concat "," joined)
      end
  | JObj fields =>
      if has_field "toString" fields then inl cannot_convert
      else inr "[object Object]"
  end.

(** [text.replace(/\n/g, '<br>')] *)
Fixpoint replace_newlines (text : string) : string :=
  match text with
  | EmptyString => EmptyString
  | String c rest =>
      if Ascii.eqb c "010"%char then "<br>" ++ replace_newlines rest
      else String c (replace_newlines rest)
  end.

(** *** [String.prototype.trim]

    Strings are UTF-8 byte sequences; [trim] removes from both ends the code
    points of WhiteSpace and LineTerminator: TAB, LF, VT, FF, CR, SP, U+00A0,
    U+1680, U+2000..U+200A, U+2028, U+2029, U+202F, U+205F, U+3000, U+FEFF. *)

Definition bytes (l : list nat) : string :=
  string_of_list_ascii (map ascii_of_nat l).

Definition white_space : list string :=
  map bytes
    [ [9]; [10]; [11]; [12]; [13]; [32];
      [194; 160];
      [225; 154; 128];
      [226; 128; 128]; [226; 128; 129]; [226; 128; 130]; [226; 128; 131];
      [226; 128; 132]; [226; 128; 133]; [226; 128; 134]; [226; 128; 135];
      [226; 128; 136]; [226; 128; 137]; [226; 128; 138];
      [226; 128; 168]; [226; 128; 169]; [226; 128; 175];
      [226; 129; 159];
      [227; 128; 128];
      [239; 187; 191] ].

(** The reversed encodings, to strip from the end. *)
Definition rev_string (s : string) : string :=
  string_of_list_ascii (rev (list_ascii_of_string s)).

Fixpoint drop (n : nat) (s : string) : string :=
  match n, s with
  | O, _ => s
  | S _, EmptyString => EmptyString
  | S m, String _ rest => drop m rest
  end.

Fixpoint starts_with (w s : string) : bool :=
  match w, s with
  | EmptyString, _ => true
  | String _ _, EmptyString => false
  | String a w', String b s' => Ascii.eqb a b && starts_with w' s'
  end.

(** Strip the sequences of [seqs] from the front, for as long as one is there. *)
Fixpoint strip (seqs : list string) (fuel : nat) (s : string) : string :=
  match fuel with
  | O => s
  | S fuel' =>
      match find (fun w => starts_with w s) seqs with
      | Some w => strip seqs fuel' (drop (String.length w) s)
      | None => s
      end
  end.

Definition trimStart (s : string) : string :=
  strip white_space (String.length s) s.

Definition trimEnd (s : string) : string :=
  rev_string (strip (map rev_string white_space) (String.length s) (rev_string s)).

Definition trim (s : string) : string := trimEnd (trimStart s).

End Js.

Import Js.

(* ===================================================================== *)
(** ** Bodies exchanged with the commerce platform and the mail provider *)
(* ===================================================================== *)

(** The SDK's types, with the fields the program reads or writes. *)

Record KeyReference := { ref_key : string }.

Record Reference := { ref_id : string }.

Record Order := {
  order_id : string;
  order_version : Z;
  order_businessUnit : option KeyReference
}.

Record State := { state_id : string; state_key : string }.

Record RuleApprover := { associateRole : KeyReference }.

Record ApprovalFlow := {
  flow_id : string;
  flow_businessUnit : KeyReference;
  flow_order : Reference;
  flow_currentTierPendingApprovers : list RuleApprover
}.

Record AssociateRole := { role_key : string; role_buyerAssignable : bool }.

Record AssociateRoleAssignment := { assignment_associateRole : KeyReference }.

Record Associate := {
  associateRoleAssignments : list AssociateRoleAssignment;
  customer : Reference
}.

Record BusinessUnit := { associates : list Associate }.

Record Customer := {
  customer_id : string;
  email : string;
  firstName : option string;
  lastName : option string
}.

Record Subscription := {
  subscription_id : string;
  subscription_version : Z;
  subscription_key : string
}.

(** [{ typeId: 'state', id }] *)
Record ResourceIdentifier := { typeId : string; id : string }.

Inductive OrderUpdateAction : Type :=
| transitionState (state : ResourceIdentifier).

Record OrderUpdate := {
  update_version : Z;
  actions : list OrderUpdateAction
}.

Record Destination := {
  destination_type : string;
  topic : string;
  projectId : string
}.

Record MessageSubscription := {
  resourceTypeId : string;
  types : list string
}.

Record SubscriptionDraft := {
  draft_key : string;
  destination : Destination;
  messages : list MessageSubscription
}.

(** The message handed to [sgMail.send]. *)
Record MailData := {
  to : string;
  from : string;
  subject : string;
  text : string;
  html : string
}.

(** What [readConfiguration()] returns. *)
Record Configuration := {
  orderNeedApprovalStateKey : string;
  orderApprovedStateKey : string;
  orderRejectedStateKey : string;
  sendgridApiKey : string;
  sendgridFromEmail : string
}.

(* ===================================================================== *)
(** ** Calls to the outside, and asynchronous functions as trees of calls *)
(* ===================================================================== *)

(** One constructor per request the program builds with [createApiRoot()] and
    [.execute()]s, and one for [sgMail.send]. *)
Inductive Call : Type :=
| approvalFlows_get (associateId : JsValue) (businessUnitKey : string) (ID : JsValue)
| associateRoles_get (key : JsValue)
| businessUnits_get (key : JsValue)
| customers_query (where_ : string)
| orders_get (ID : JsValue)
| states_query (where_ : string)
| orders_post (ID : JsValue) (body : OrderUpdate)
| subscriptions_query (where_ : string)
| subscriptions_delete (key : string) (version : Z)
| subscriptions_post (body : SubscriptionDraft)
| sgMail_send (msg : MailData).

(** A settled promise: rejected with a reason, or fulfilled. *)
Definition Settled (A : Type) : Type := (JsError + A)%type.

(** A promise the program does not await at once: how it settles, and when
    (a logical instant; only the order of instants matters). *)
Record Promise (A : Type) := {
  settledAt : nat;
  outcome : Settled A
}.
Arguments settledAt {A} _.
Arguments outcome {A} _.

(** What the outside gives back.  Every platform request is awaited on the
    spot, so its answer is the settled body; a mail send is started and
    joined later, so its answer is the promise. *)
Definition answer (c : Call) : Type :=
  match c with
  | approvalFlows_get _ _ _ => Settled ApprovalFlow
  | associateRoles_get _ => Settled AssociateRole
  | businessUnits_get _ => Settled BusinessUnit
  | customers_query _ => Settled (list Customer)
  | orders_get _ => Settled Order
  | states_query _ => Settled (list State)
  | orders_post _ _ => Settled Order
  | subscriptions_query _ => Settled (list Subscription)
  | subscriptions_delete _ _ => Settled Subscription
  | subscriptions_post _ => Settled Subscription
  | sgMail_send _ => Promise unit
  end.

Inductive Prog (A : Type) : Type :=
| Ret (a : A)
| Throw (error : JsError)
| Do (c : Call) (k : answer c -> Prog A).
Arguments Ret {A} _.
Arguments Throw {A} _.
Arguments Do {A} _ _.

Fixpoint bind {A B : Type} (p : Prog A) (f : A -> Prog B) : Prog B :=
  match p with
  | Ret a => f a
  | Throw error => Throw error
  | Do c k => Do c (fun x => bind (k x) f)
  end.

(** [try { p } catch (error) { handler }] *)
Fixpoint try_catch {A : Type} (p : Prog A) (handler : JsError -> Prog A) : Prog A :=
  match p with
  | Ret a => Ret a
  | Throw error => handler error
  | Do c k => Do c (fun x => try_catch (k x) handler)
  end.

Declare Scope prog_scope.
Delimit Scope prog_scope with prog.
Notation "x <- p ;; q" := (bind p (fun x => q))
  (at level 61, p at next level, right associativity) : prog_scope.
Notation "p ;; q" := (bind p (fun _ => q))
  (at level 61, right associativity) : prog_scope.
Local Open Scope prog_scope.

(** A synchronous step that returns or throws. *)
Definition lift {A : Type} (r : JsError + A) : Prog A :=
  match r with
  | inl error => Throw error
  | inr a => Ret a
  end.

(** [await request.execute()] *)
Definition execute {A : Type} (c : Call) (body : answer c -> Settled A) : Prog A :=
  Do c (fun x => lift (body x)).

(** The outside world: a state and a deterministic answer to every call. *)
Definition World (W : Type) : Type := W -> forall c : Call, answer c * W.

Inductive Completion (A : Type) : Type :=
| Returned (a : A)
| Thrown (error : JsError).
Arguments Returned {A} _.
Arguments Thrown {A} _.

(** Play [p] against the world from state [w]: how it completes, the calls it
    issued in order, and the state it leaves. *)
Fixpoint run {W A : Type} (world : World W) (p : Prog A) (w : W)
  : Completion A * list Call * W :=
  match p with
  | Ret a => (Returned a, [], w)
  | Throw error => (Thrown error, [], w)
  | Do c k =>
      let '(x, w1) := world w c in
      let '(r, calls, w2) := run world (k x) w1 in
      (r, c :: calls, w2)
  end.

Definition completion {W A} (world : World W) (p : Prog A) (w : W) : Completion A :=
  fst (fst (run world p w)).

Definition calls {W A} (world : World W) (p : Prog A) (w : W) : list Call :=
  snd (fst (run world p w)).

(** [array.map(callback)] with a callback that issues calls. *)
Fixpoint map_prog {A B : Type} (callback : A -> Prog B) (array : list A) : Prog (list B) :=
  match array with
  | [] => Ret []
  | x :: rest =>
      y <- callback x ;;
      ys <- map_prog callback rest ;;
      Ret (y :: ys)
  end.

(** The rejection that settles first; among equal instants the one of the
    earlier promise, whose reaction [Promise.all] registered first. *)
Fixpoint first_rejection {A : Type} (promises : list (Promise A)) : option (nat * JsError) :=
  match promises with
  | [] => None
  | p :: rest =>
      match outcome p, first_rejection rest with
      | inl error, Some (t, later) =>
          if (settledAt p <=? t)%nat then Some (settledAt p, error) else Some (t, later)
      | inl error, None => Some (settledAt p, error)
      | inr _, found => found
      end
  end.

(** [await Promise.all(promises)], the fulfilment values dropped. *)
Definition Promise_all {A : Type} (promises : list (Promise A)) : Prog unit :=
  match first_rejection promises with
  | Some (_, error) => Throw error
  | None => Ret tt
  end.

(** The double quote, and the line feed of a template literal. *)
Definition dq : string := String (ascii_of_nat 34) EmptyString.
Definition nl : string := String (ascii_of_nat 10) EmptyString.

(* ===================================================================== *)
(** ** templates/approval-notification.template.ts *)
(* ===================================================================== *)

Definition getApprovalNotificationTemplate (approverName approvalFlowId : string) : string :=
  "Hi " ++ approverName ++ "," ++ nl ++ nl
  ++ "An approval flow with ID " ++ approvalFlowId ++ " is created." ++ nl ++ nl
  ++ "Check it out in the admin portal." ++ nl ++ nl
  ++ "Best regards," ++ nl
  ++ "Your Commerce Team".

Definition getApprovalNotificationSubject (approvalFlowId : string) : string :=
  "New Approval Flow " ++ approvalFlowId ++ " Requires Your Attention".

(* ===================================================================== *)
(** ** utils/email.utils.ts *)
(* ===================================================================== *)

Record Recipient := { recipient_email : string; recipient_name : string }.

Section Email.

(** [readConfiguration()] *)
Variable config : Configuration.

(** [sendEmail] as its caller uses it, without [await]: the call to
    [sgMail.send] is issued at once, and the promise returned is the send's,
    a rejection replaced by the [catch] block's error. *)
Definition sendEmail (to_ subject_ text_ : string) (html_ : option string)
  : Prog (Promise unit) :=
  let msg := {| to := to_;
                from := sendgridFromEmail config;
                subject := subject_;
                text := text_;
                html := match html_ with
                        | Some h => if truthy_string h then h else replace_newlines text_
                        | None => replace_newlines text_
                        end |} in
  Do (sgMail_send msg) (fun sent =>
    Ret {| settledAt := settledAt sent;
           outcome := match outcome sent with
                      | inl error =>
                          inl (CustomError 500 ("Failed to send email: " ++ String_error error))
                      | inr _ => inr tt
                      end |}).

Definition sendBulkEmails (recipients : list Recipient) (subject_ : string)
    (getTextContent : string -> string) (getHtmlContent : option (string -> string))
  : Prog unit :=
  try_catch
    (emailPromises <-
       map_prog (fun recipient =>
                   sendEmail (recipient_email recipient) subject_
                     (getTextContent (recipient_name recipient))
                     (match getHtmlContent with
                      | Some f => Some (f (recipient_name recipient))
                      | None => None
                      end))
                recipients ;;
     Promise_all emailPromises)
    (fun error =>
       Throw (CustomError 500 ("Failed to send bulk emails: " ++ String_error error))).

End Email.

(* ===================================================================== *)
(** ** utils/approval.utils.ts *)
(* ===================================================================== *)

Definition fetchApprovalFlow (approvalFlowId associateId : JsValue) (businessUnitKey : string)
  : Prog ApprovalFlow :=
  (* the first log line prints approvalFlowId, before the try block *)
  _ <- lift (String_ approvalFlowId) ;;
  try_catch
    (execute (approvalFlows_get associateId businessUnitKey approvalFlowId) (fun body => body))
    (fun error => Throw (CustomError 400 ("Failed to fetch approval flow: " ++ String_error error))).

(** The [for ... of] loop over the role keys, [customers] the array it pushes
    to.  The first log line of the body prints the role key. *)
Fixpoint collectCustomerReferences (associateRoleKeys : list JsValue)
    (businessUnitKey : JsValue) (customers : list Reference) : Prog (list Reference) :=
  match associateRoleKeys with
  | [] => Ret customers
  | roleKey :: rest =>
      _ <- lift (String_ roleKey) ;;
      _ <- execute (associateRoles_get roleKey) (fun body => body) ;;
      businessUnit <- execute (businessUnits_get businessUnitKey) (fun body => body) ;;
      let assocciates :=
        filter (fun associate =>
                  existsb (fun assignment =>
                             strict_eq_string roleKey (ref_key (assignment_associateRole assignment)))
                          (associateRoleAssignments associate))
               (associates businessUnit) in
      let roleCustomers := map customer assocciates in
      collectCustomerReferences rest businessUnitKey (customers ++ roleCustomers)
  end.

Definition fetchCustomersByAssociateRoleKeysInBusinessUnit
    (associateRoleKeys : list JsValue) (businessUnitKey : JsValue) : Prog (list Customer) :=
  (* the first log line prints businessUnitKey, before the try block *)
  _ <- lift (String_ businessUnitKey) ;;
  try_catch
    (customers <- collectCustomerReferences associateRoleKeys businessUnitKey [] ;;
     if (List.length customers =? 0)%nat then Ret []
     else
       let customerIds := map (fun customer => dq ++ ref_id customer ++ dq) customers in
       execute (customers_query ("id in (" ++ String.concat "," customerIds ++ ")"))
               (fun body => body))
    (fun error => Throw (CustomError 400 ("Failed to fetch customers: " ++ String_error error))).

Definition fetchOrder (orderId : JsValue) : Prog Order :=
  (* the first log line prints orderId, before the try block *)
  _ <- lift (String_ orderId) ;;
  try_catch
    (execute (orders_get orderId) (fun body => body))
    (fun error => Throw (CustomError 400 ("Failed to fetch order: " ++ String_error error))).

Definition transitionOrderState (orderId : JsValue) (stateKey : string) : Prog Order :=
  (* the first log line prints orderId, before the try block *)
  _ <- lift (String_ orderId) ;;
  try_catch
    (order <- fetchOrder orderId ;;
     results <- execute (states_query ("key=" ++ dq ++ stateKey ++ dq)) (fun body => body) ;;
     match results with
     | [] => Throw (CustomError 400 ("State with key " ++ dq ++ stateKey ++ dq ++ " not found"))
     | targetState :: _ =>
         let updateRequest :=
           {| update_version := order_version order;
              actions := [transitionState {| typeId := "state"; id := state_id targetState |}] |} in
         execute (orders_post orderId updateRequest) (fun body => body)
     end)
    (fun error => Throw (CustomError 400 ("Failed to transition order state: " ++ String_error error))).

(** [firstName || lastName || email] *)
Definition display_name (c : Customer) : string :=
  match firstName c with
  | Some f => if truthy_string f then f else
                match lastName c with
                | Some l => if truthy_string l then l else email c
                | None => email c
                end
  | None => match lastName c with
            | Some l => if truthy_string l then l else email c
            | None => email c
            end
  end.

Section Approval.

Variable config : Configuration.

(** The first log line prints approvalFlowId, before the try block; the
    subject and the template print the same value again, to the same
    string. *)
Definition sendApprovalNotifications (customers : list Customer) (approvalFlowId : JsValue)
  : Prog unit :=
  flow <- lift (String_ approvalFlowId) ;;
  try_catch
    (let recipients :=
       map (fun customer => {| recipient_email := email customer;
                               recipient_name := display_name customer |})
           (filter (fun customer => truthy_string (email customer)) customers) in
     if (List.length recipients =? 0)%nat then Ret tt
     else
       sendBulkEmails config recipients
         (getApprovalNotificationSubject flow)
         (fun name => getApprovalNotificationTemplate name flow)
         None)
    (fun error =>
       Throw (CustomError 500 ("Failed to send approval notifications: " ++ String_error error))).

(** [value.map(callback)] on a value from the message: only an array has
    [map]. *)
Definition Array_map (callback : JsValue -> JsError + JsValue) (what : string) (value : JsValue)
  : JsError + list JsValue :=
  match value with
  | JArr items =>
      fold_right (fun item acc =>
                    match callback item, acc with
                    | inl error, _ => inl error
                    | inr _, inl error => inl error
                    | inr y, inr ys => inr (y :: ys)
                    end)
                 (inr []) items
  | _ => inl (TypeError (what ++ ".map is not a function"))
  end.

(** [approver => approver.associateRole.key] *)
Definition approver_role_key (approver : JsValue) : JsError + JsValue :=
  match getProp approver "associateRole" with
  | inl error => inl error
  | inr role => getProp role "key"
  end.

Definition handleApprovalFlowCreated (approvalFlow : JsValue) : Prog unit :=
  (* the first log line reads and prints approvalFlow.id, before the try block *)
  id_ <- lift (getProp approvalFlow "id") ;;
  _ <- lift (String_ id_) ;;
  try_catch
    (pending <- lift (getProp approvalFlow "currentTierPendingApprovers") ;;
     let currentTierPendingApprovers := or_else pending (JArr []) in
     if strict_eq_zero (member currentTierPendingApprovers "length") then Ret tt
     else
       associateRoleKeys <-
         lift (Array_map approver_role_key "currentTierPendingApprovers"
                 currentTierPendingApprovers) ;;
       businessUnit <- lift (getProp approvalFlow "businessUnit") ;;
       businessUnitKey <- lift (getProp businessUnit "key") ;;
       customers <-
         fetchCustomersByAssociateRoleKeysInBusinessUnit associateRoleKeys businessUnitKey ;;
       approvalFlowId <- lift (getProp approvalFlow "id") ;;
       sendApprovalNotifications customers approvalFlowId ;;
       let orderId := optProp (member approvalFlow "order") "id" in
       if truthy orderId then
         (* the log line before the transition prints orderId *)
         _ <- lift (String_ orderId) ;;
         _ <- transitionOrderState orderId (orderNeedApprovalStateKey config) ;;
         Ret tt
       else Ret tt)
    (fun error => Throw error).

Definition handleApprovalFlowApproved (approvalFlowId associateId orderId : JsValue)
  : Prog unit :=
  (* the first log line prints approvalFlowId, before the try block *)
  _ <- lift (String_ approvalFlowId) ;;
  try_catch
    (order <- fetchOrder orderId ;;
     match order_businessUnit order with
     | None => Ret tt
     | Some reference =>
         let businessUnitKey := ref_key reference in
         if negb (truthy_string businessUnitKey) then Ret tt
         else
           approvalFlow <- fetchApprovalFlow approvalFlowId associateId businessUnitKey ;;
           let currentTierPendingApprovers := flow_currentTierPendingApprovers approvalFlow in
           if (0 <? List.length currentTierPendingApprovers)%nat then
             let associateRoleKeys :=
               map (fun approver => JStr (ref_key (associateRole approver)))
                   currentTierPendingApprovers in
             let businessUnitKey := JStr (ref_key (flow_businessUnit approvalFlow)) in
             customers <-
               fetchCustomersByAssociateRoleKeysInBusinessUnit associateRoleKeys businessUnitKey ;;
             sendApprovalNotifications customers approvalFlowId
           else Ret tt
     end)
    (fun error => Throw error).

Definition handleApprovalFlowRejectedOrCompleted
    (approvalFlowId : JsValue) (isRejected : bool) (orderId : JsValue) : Prog unit :=
  (* the first log line prints approvalFlowId, before the try block *)
  _ <- lift (String_ approvalFlowId) ;;
  try_catch
    (if truthy orderId then
       let stateKey := if isRejected then orderRejectedStateKey config
                       else orderApprovedStateKey config in
       (* the log line before the transition prints orderId *)
       _ <- lift (String_ orderId) ;;
       _ <- transitionOrderState orderId stateKey ;;
       Ret tt
     else Ret tt)
    (fun error => Throw error).

End Approval.

(* ===================================================================== *)
(** ** controllers/event.controller.ts *)
(* ===================================================================== *)

Record Request := { body : JsValue }.

Record Response := { status : Z; sent : JsValue }.

Section Controller.

Variable config : Configuration.

(** [Buffer.from(data, 'base64').toString()], Node's: the decoded text, or the
    [TypeError] it throws on a value it does not take. *)
Variable Buffer_from_base64_toString : JsValue -> JsError + string.

(** [JSON.parse]: the value, or the [SyntaxError] it throws. *)
Variable JSON_parse : string -> JsError + JsValue.

Definition validatePubSubMessage (request : Request) : Prog JsValue :=
  if negb (truthy (body request)) then
    Throw (CustomError 400 "Bad request: No Pub/Sub message was received")
  else if negb (truthy (member (body request) "message")) then
    Throw (CustomError 400 "Bad request: Wrong No Pub/Sub message format")
  else Ret (member (body request) "message").

Definition decodePubSubMessage (pubSubMessage : JsValue) : Prog JsValue :=
  data <- lift (getProp pubSubMessage "data") ;;
  decodedData <-
    (if truthy data then
       decoded <- lift (Buffer_from_base64_toString data) ;;
       Ret (Some (trim decoded))
     else Ret None) ;;
  match decodedData with
  | None => Throw (CustomError 400 "Bad request: No message data found")
  | Some decodedText =>
      if negb (truthy_string decodedText) then
        Throw (CustomError 400 "Bad request: No message data found")
      else
        try_catch
          (jsonData <- lift (JSON_parse decodedText) ;;
           (* the log line after the parse, inside the try block *)
           _ <- lift (getProp jsonData "notificationType") ;;
           Ret jsonData)
          (fun _ => Throw (CustomError 400 "Bad request: Invalid JSON in message data"))
  end.

(** [const { type } = jsonData] *)
Definition destructure_type (jsonData : JsValue) : JsError + JsValue :=
  match jsonData with
  | JUndefined =>
      inl (TypeError "Cannot destructure property 'type' of 'jsonData' as it is undefined.")
  | JNull =>
      inl (TypeError "Cannot destructure property 'type' of 'jsonData' as it is null.")
  | _ => inr (member jsonData "type")
  end.

Definition routeApprovalFlowMessage (jsonData : JsValue) : Prog unit :=
  type <- lift (destructure_type jsonData) ;;
  (* the first log line prints the type, before the switch *)
  printed <- lift (String_ type) ;;
  if strict_eq_string type "ResourceCreated" then
    Throw (CustomError 202
      "Incoming message is about subscription resource creation. Skip handling the message.")
  else if strict_eq_string type "ApprovalFlowCreated" then
    if negb (truthy (member jsonData "approvalFlow")) then
      Throw (CustomError 400 "ApprovalFlow data missing in message")
    else handleApprovalFlowCreated config (member jsonData "approvalFlow")
  else if strict_eq_string type "ApprovalFlowApproved" then
    if negb (truthy (optProp (member jsonData "resource") "id")) then
      Throw (CustomError 400 "Approval flow ID missing in message")
    else
      approvalFlowId <- lift (getProp (member jsonData "resource") "id") ;;
      associateId <- lift (getProp (member jsonData "associate") "id") ;;
      orderId <- lift (getProp (member jsonData "order") "id") ;;
      handleApprovalFlowApproved config approvalFlowId associateId orderId
  else if strict_eq_string type "ApprovalFlowRejected" then
    if negb (truthy (optProp (member jsonData "resource") "id")) then
      Throw (CustomError 400 "Approval flow ID missing in message")
    else
      approvalFlowId <- lift (getProp (member jsonData "resource") "id") ;;
      orderId <- lift (getProp (member jsonData "order") "id") ;;
      handleApprovalFlowRejectedOrCompleted config approvalFlowId true orderId
  else if strict_eq_string type "ApprovalFlowCompleted" then
    if negb (truthy (optProp (member jsonData "resource") "id")) then
      Throw (CustomError 400 "Approval flow ID missing in message")
    else
      approvalFlowId <- lift (getProp (member jsonData "resource") "id") ;;
      orderId <- lift (getProp (member jsonData "order") "id") ;;
      handleApprovalFlowRejectedOrCompleted config approvalFlowId false orderId
  else
    Throw (CustomError 400 ("Unsupported notification type: " ++ printed)).

Definition post (request : Request) : Prog Response :=
  try_catch
    (pubSubMessage <- validatePubSubMessage request ;;
     jsonData <- decodePubSubMessage pubSubMessage ;;
     routeApprovalFlowMessage jsonData ;;
     Ret {| status := 204; sent := JUndefined |})
    (fun error => Throw error).

End Controller.

(* ===================================================================== *)
(** ** middleware/error.middleware.ts *)
(* ===================================================================== *)

(** [NODE_ENV] is [process.env.NODE_ENV], absent when the variable is unset. *)
Definition errorMiddleware (NODE_ENV : option string) (error : JsError) : Response :=
  let isDevelopment :=
    match NODE_ENV with
    | Some mode => mode =? "development"
    | None => false
    end in
  {| status := 200;
     sent := if isDevelopment
             then JObj [("messge", JStr (message_of error))]
             else JObj [("message", JStr "Internal server error")] |}.

(* ===================================================================== *)
(** ** connector/actions.ts *)
(* ===================================================================== *)

Definition APPROVAL_FLOW_NOTIFICATION_SUBSCRIPTION_KEY : string :=
  "approval-flow-notification".

Definition deleteApprovalFlowNotificationSubscription : Prog unit :=
  subscriptions <-
    execute (subscriptions_query
               ("key = " ++ dq ++ APPROVAL_FLOW_NOTIFICATION_SUBSCRIPTION_KEY ++ dq))
            (fun body => body) ;;
  match subscriptions with
  | subscription :: _ =>
      _ <- execute (subscriptions_delete APPROVAL_FLOW_NOTIFICATION_SUBSCRIPTION_KEY
                      (subscription_version subscription))
                   (fun body => body) ;;
      Ret tt
  | [] => Ret tt
  end.



(* ===================================================================== *)
(** ** connector/pre-undeploy.ts *)
(* ===================================================================== *)

Module PreUndeploy.

(** What the script leaves on the process: [process.exitCode], unset unless
    the script sets it, and the lines written to [process.stderr]. *)
Record Process := { exitCode : option Z; stderr : list string }.

Section Script.

(** [assertError] of utils/assert.utils.ts, which is not among the sources:
    it returns, or throws when the value caught is not an [Error]. *)
Variable assertError : JsError -> JsError + unit.

Definition preUndeploy : Prog unit :=
  deleteApprovalFlowNotificationSubscription.

Definition run : Prog Process :=
  try_catch
    (preUndeploy ;;
     Ret {| exitCode := None; stderr := [] |})
    (fun error =>
       _ <- lift (assertError error) ;;
       Ret {| exitCode := Some 1%Z;
              stderr := ["Post-undeploy failed: " ++ message_of error ++ nl] |}).

End Script.

End PreUndeploy.

(* ===================================================================== *)
(** ** Observations on the calls a run issued *)
(* ===================================================================== *)

(** The addressees of the mails sent, in order. *)
Definition mail_recipients (trace : list Call) : list string :=
  flat_map (fun c => match c with sgMail_send msg => [to msg] | _ => [] end) trace.

(** The mutating order updates, in order. *)
Definition order_updates (trace : list Call) : list (JsValue * OrderUpdate) :=
  flat_map (fun c => match c with orders_post ID body => [(ID, body)] | _ => [] end) trace.

(** The predicates of the customer queries. *)
Definition customer_lookups (trace : list Call) : list string :=
  flat_map (fun c => match c with customers_query w => [w] | _ => [] end) trace.

(** The keys of the associate-role fetches, in order. *)
Definition role_lookups (trace : list Call) : list JsValue :=
  flat_map (fun c => match c with associateRoles_get key => [key] | _ => [] end) trace.

(** The versions of the subscription deletes. *)
Definition subscription_deletes (trace : list Call) : list (string * Z) :=
  flat_map (fun c => match c with subscriptions_delete key v => [(key, v)] | _ => [] end) trace.

(** The promises the world hands out for a sequence of mails. *)
Fixpoint mail_promises {W : Type} (world : World W) (w : W) (msgs : list MailData)
  : list (Promise unit) :=
  match msgs with
  | [] => []
  | msg :: rest =>
      let '(p, w1) := world w (sgMail_send msg) in
      p :: mail_promises world w1 rest
  end.

(** The notification types the router has a case for. *)
Definition routed_types : list string :=
  [ "ResourceCreated"; "ApprovalFlowCreated"; "ApprovalFlowApproved";
    "ApprovalFlowRejected"; "ApprovalFlowCompleted" ].

(** The state the world is in after serving a sequence of mails. *)
Fixpoint after_mails {W : Type} (world : World W) (w : W) (msgs : list MailData) : W :=
  match msgs with
  | [] => w
  | msg :: rest => after_mails world (snd (world w (sgMail_send msg))) rest
  end.

(** The error [sendBulkEmails] throws when the send that rejected first did
    so with [cause]. *)
Definition bulk_failure (cause : JsError) : JsError :=
  CustomError 500
    ("Failed to send bulk emails: "
     ++ String_error (CustomError 500 ("Failed to send email: " ++ String_error cause))).

(** The error every failure inside [transitionOrderState] is wrapped into. *)
Definition transition_failure (cause : JsError) : JsError :=
  CustomError 400 ("Failed to transition order state: " ++ String_error cause).

(** The error a failure of the customer resolution is wrapped into. *)
Definition resolution_failure (cause : JsError) : JsError :=
  CustomError 400 ("Failed to fetch customers: " ++ String_error cause).

(** The error a failure of the notification step is wrapped into. *)
Definition notification_failure (cause : JsError) : JsError :=
  CustomError 500 ("Failed to send approval notifications: " ++ String_error cause).

(** The promise [sendEmail] returns for the promise of its send. *)
Definition email_promise (sent_ : Promise unit) : Promise unit :=
  {| settledAt := settledAt sent_;
     outcome := match outcome sent_ with
                | inl error =>
                    inl (CustomError 500 ("Failed to send email: " ++ String_error error))
                | inr _ => inr tt
                end |}.

(** The message [sendEmail] builds for a recipient of [sendBulkEmails]. *)
Definition message_for (config : Configuration) (subject_ : string)
    (getTextContent : string -> string) (getHtmlContent : option (string -> string))
    (recipient : Recipient) : MailData :=
  {| to := recipient_email recipient;
     from := sendgridFromEmail config;
     subject := subject_;
     text := getTextContent (recipient_name recipient);
     html := match getHtmlContent with
             | Some f =>
                 if truthy_string (f (recipient_name recipient))
                 then f (recipient_name recipient)
                 else replace_newlines (getTextContent (recipient_name recipient))
             | None => replace_newlines (getTextContent (recipient_name recipient))
             end |}.

(** [customer => customer.email] as a filter. *)
Definition has_email (c : Customer) : bool := truthy_string (email c).

(** The values a template literal prints. *)
Definition printable (v : JsValue) : bool :=
  match String_ v with
  | inr _ => true
  | inl _ => false
  end.

(** The mails of the notification step for a flow whose id prints as [flow]:
    one per customer with an email. *)
Definition notifications (config : Configuration) (customers : list Customer)
    (flow : string) : list MailData :=
  map (message_for config
         (getApprovalNotificationSubject flow)
         (fun name => getApprovalNotificationTemplate name flow)
         None)
      (map (fun customer => {| recipient_email := email customer;
                               recipient_name := display_name customer |})
           (filter has_email customers)).

(** The read-only lookups of the customer resolution. *)
Definition is_lookup (c : Call) : bool :=
  match c with
  | associateRoles_get _ | businessUnits_get _ | customers_query _ => true
  | _ => false
  end.

(** The customer references one role key contributes from a business unit. *)
Definition references_for (businessUnit : BusinessUnit) (roleKey : JsValue) : list Reference :=
  map customer
    (filter (fun associate =>
               existsb (fun assignment =>
                          strict_eq_string roleKey
                            (ref_key (assignment_associateRole assignment)))
                       (associateRoleAssignments associate))
            (associates businessUnit)).

(** The predicate of the batch query for a list of references. *)
Definition id_in (customers : list Reference) : string :=
  "id in (" ++ String.concat "," (map (fun r => dq ++ ref_id r ++ dq) customers) ++ ")".

(** An approval flow as the handler reads it: its id, the approvers pending in
    the current tier (at least one) with the role key of each, the key of its
    business unit, and the id of its order ([undefined] when it has none). *)
Inductive pending_flow (approvalFlow approvalFlowId : JsValue)
    (approvers associateRoleKeys : list JsValue) (businessUnitKey orderId : JsValue) : Prop :=
| pending_flow_intro :
    getProp approvalFlow "id" = inr approvalFlowId ->
    member approvalFlow "currentTierPendingApprovers" = JArr approvers ->
    approvers <> [] ->
    Forall2 (fun approver key => approver_role_key approver = inr key)
            approvers associateRoleKeys ->
    getProp (member approvalFlow "businessUnit") "key" = inr businessUnitKey ->
    optProp (member approvalFlow "order") "id" = orderId ->
    pending_flow approvalFlow approvalFlowId approvers associateRoleKeys businessUnitKey orderId.

(** A decoded text made of white space only. *)
Inductive only_white_space : string -> Prop :=
| ws_empty : only_white_space ""
| ws_more (w s : string) :
    In w white_space -> only_white_space s -> only_white_space (w ++ s).

(** The envelopes the decoder refuses, each with the reason it gives. *)
Section Refused.

Variable Buffer_from_base64_toString : JsValue -> JsError + string.
Variable JSON_parse : string -> JsError + JsValue.

Inductive refused (request : Request) : string -> Prop :=
| body_absent :
    truthy (body request) = false ->
    refused request "Bad request: No Pub/Sub message was received"
| message_absent :
    truthy (body request) = true ->
    truthy (member (body request) "message") = false ->
    refused request "Bad request: Wrong No Pub/Sub message format"
| data_absent :
    truthy (body request) = true ->
    truthy (member (body request) "message") = true ->
    truthy (member (member (body request) "message") "data") = false ->
    refused request "Bad request: No message data found"
| data_empty (decoded : string) :
    truthy (body request) = true ->
    truthy (member (body request) "message") = true ->
    truthy (member (member (body request) "message") "data") = true ->
    Buffer_from_base64_toString (member (member (body request) "message") "data")
      = inr decoded ->
    trim decoded = "" ->
    refused request "Bad request: No message data found"
| data_not_json (decoded : string) (syntaxError : JsError) :
    truthy (body request) = true ->
    truthy (member (body request) "message") = true ->
    truthy (member (member (body request) "message") "data") = true ->
    Buffer_from_base64_toString (member (member (body request) "message") "data")
      = inr decoded ->
    trim decoded <> "" ->
    JSON_parse (trim decoded) = inl syntaxError ->
    refused request "Bad request: Invalid JSON in message data".

End Refused.

(** The calls that read or change an order or look a workflow state up. *)
Definition touches_order (c : Call) : bool :=
  match c with
  | orders_get _ | states_query _ | orders_post _ _ => true
  | _ => false
  end.

(** The predicates of the workflow-state queries, in order. *)
Definition state_lookups (trace : list Call) : list string :=
  flat_map (fun c => match c with states_query w => [w] | _ => [] end) trace.

(** The keys of the business-unit fetches, in order. *)
Definition unit_lookups (trace : list Call) : list JsValue :=
  flat_map (fun c => match c with businessUnits_get key => [key] | _ => [] end) trace.

(** The subscription drafts posted, in order. *)
Definition subscription_posts (trace : list Call) : list SubscriptionDraft :=
  flat_map (fun c => match c with subscriptions_post draft => [draft] | _ => [] end) trace.

(** The mails sent, in order. *)
Definition mails_sent (trace : list Call) : list MailData :=
  flat_map (fun c => match c with sgMail_send msg => [msg] | _ => [] end) trace.

(** [v == null]: the values a property read throws on. *)
Definition nullish (v : JsValue) : bool :=
  match v with
  | JUndefined | JNull => true
  | _ => false
  end.

(** The line feed as a character. *)
Definition line_feed : ascii := ascii_of_nat 10.


(** A name that is missing or empty. *)
Definition no_name (name : option string) : Prop := name = None \/ name = Some "".

(** The name a customer is greeted by: the first name when there is one, else
    the last name when there is one, else the email address. *)
Definition greets (customer : Customer) (name : string) : Prop :=
  (forall first, firstName customer = Some first -> first <> "" -> name = first)
  /\ (forall last,
        no_name (firstName customer) ->
        lastName customer = Some last -> last <> "" -> name = last)
  /\ (no_name (firstName customer) -> no_name (lastName customer) ->
      name = email customer).

(** The mail [sendApprovalNotifications] sends a customer about the flow
    whose id prints as [flow]. *)
Definition notifies (config : Configuration) (flow : string)
    (customer : Customer) (msg : MailData) : Prop :=
  to msg = email customer
  /\ from msg = sendgridFromEmail config
  /\ subject msg = "New Approval Flow " ++ flow ++ " Requires Your Attention"
  /\ (exists name,
        greets customer name
        /\ name <> ""
        /\ text msg = getApprovalNotificationTemplate name flow)
  /\ html msg = replace_newlines (text msg).

(** The role keys of a fetched flow's pending approvers, as the handler
    passes them on. *)
Definition pending_keys (approvalFlow : ApprovalFlow) : list JsValue :=
  map (fun approver => JStr (ref_key (associateRole approver)))
      (flow_currentTierPendingApprovers approvalFlow).

(** The error a failed order fetch is wrapped into. *)
Definition order_failure (cause : JsError) : JsError :=
  CustomError 400 ("Failed to fetch order: " ++ String_error cause).

(** The error a failed approval-flow fetch is wrapped into. *)
Definition flow_failure (cause : JsError) : JsError :=
  CustomError 400 ("Failed to fetch approval flow: " ++ String_error cause).

(** The state key [handleApprovalFlowRejectedOrCompleted] picks. *)
Definition terminal_key (config : Configuration) (isRejected : bool) : string :=
  if isRejected then orderRejectedStateKey config else orderApprovedStateKey config.

(** The [type] of the terminal notifications, by the handler's flag. *)
Definition terminal_type (isRejected : bool) : string :=
  if isRejected then "ApprovalFlowRejected" else "ApprovalFlowCompleted".

(* ===================================================================== *)
(** ** Sample surroundings for the worked examples *)
(* ===================================================================== *)

Module Sample.

Definition config : Configuration :=
  {| orderNeedApprovalStateKey := "needs-approval";
     orderApprovedStateKey := "approved";
     orderRejectedStateKey := "rejected";
     sendgridApiKey := "SG.key";
     sendgridFromEmail := "noreply@example.com" |}.

(** A base64 decoder that knows three payloads. *)
Definition Buffer_from_base64_toString (data : JsValue) : JsError + string :=
  match data with
  | JStr s =>
      if s =? "ICAg" then inr "   "
      else if s =? "e30=" then inr "{}"
      else if s =? "bm90IGpzb24=" then inr "not json"
      else inr ""
  | _ => inl (TypeError "The first argument must be of type string")
  end.

(** A parser that knows the empty object. *)
Definition JSON_parse (text_ : string) : JsError + JsValue :=
  if text_ =? "{}" then inr (JObj [])
  else inl (LibraryError "SyntaxError" "Unexpected token in JSON").

Definition approver : KeyReference := {| ref_key := "approver" |}.

Definition alice : Customer :=
  {| customer_id := "c1"; email := "alice@example.com";
     firstName := Some "Alice"; lastName := None |}.

(** A customer on file without an email address. *)
Definition bob : Customer :=
  {| customer_id := "c2"; email := ""; firstName := Some "Bob"; lastName := None |}.

Definition unit1 : BusinessUnit :=
  {| associates :=
       [ {| associateRoleAssignments := [ {| assignment_associateRole := approver |} ];
            customer := {| ref_id := "c1" |} |};
         {| associateRoleAssignments := [ {| assignment_associateRole := approver |} ];
            customer := {| ref_id := "c2" |} |};
         {| associateRoleAssignments := [ {| assignment_associateRole := {| ref_key := "buyer" |} |} ];
            customer := {| ref_id := "c3" |} |} ] |}.

(** [{ associateRole: { typeId: 'associate-role', key } }] *)
Definition pending (roleKey : string) : JsValue :=
  JObj [("associateRole",
         JObj [("typeId", JStr "associate-role"); ("key", JStr roleKey)])].

(** The approval flow of an [ApprovalFlowCreated] message, with the given
    approvers pending. *)
Definition flow (approvers : list JsValue) : JsValue :=
  JObj [ ("id", JStr "af1");
         ("status", JStr "Pending");
         ("businessUnit", JObj [("typeId", JStr "business-unit"); ("key", JStr "bu1")]);
         ("order", JObj [("typeId", JStr "order"); ("id", JStr "ord1")]);
         ("currentTierPendingApprovers", JArr approvers) ].

(** The id a request names, as a string. *)
Definition text_of (ID : JsValue) : string :=
  match ID with
  | JStr s => s
  | _ => ""
  end.

(** Canned answers, every request served; an order's version is the instant
    it is read at. *)
Definition canned (instant : nat) (c : Call) : answer c :=
  match c with
  | approvalFlows_get _ _ ID =>
      inr {| flow_id := text_of ID;
             flow_businessUnit := {| ref_key := "bu1" |};
             flow_order := {| ref_id := "ord1" |};
             flow_currentTierPendingApprovers := [] |}
  | associateRoles_get key =>
      inr {| role_key := text_of key; role_buyerAssignable := true |}
  | businessUnits_get _ => inr unit1
  | customers_query _ => inr [alice; bob]
  | orders_get ID =>
      inr {| order_id := text_of ID;
             order_version := Z.of_nat instant;
             order_businessUnit := Some {| ref_key := "bu1" |} |}
  | states_query _ =>
      inr [ {| state_id := "state-1"; state_key := "needs-approval" |} ]
  | orders_post ID update =>
      inr {| order_id := text_of ID;
             order_version := update_version update + 1;
             order_businessUnit := Some {| ref_key := "bu1" |} |}
  | subscriptions_query _ => inr []
  | subscriptions_delete key version =>
      inr {| subscription_id := "sub1";
             subscription_version := version;
             subscription_key := key |}
  | subscriptions_post draft =>
      inr {| subscription_id := "sub1";
             subscription_version := 1;
             subscription_key := draft_key draft |}
  | sgMail_send _ => {| settledAt := instant; outcome := inr tt |}
  end.

(** The world of canned answers; its state counts the calls served. *)
Definition world : World nat := fun instant c => (canned instant c, S instant).

(** The same with the mail provider refusing every send. *)
Definition mail_down : World nat :=
  fun instant c =>
    (match c as c0 return answer c0 with
     | sgMail_send _ =>
         {| settledAt := instant;
            outcome := inl (LibraryError "ResponseError" "Unauthorized") |}
     | other => canned instant other
     end, S instant).

(** The same with no workflow state under any key. *)
Definition no_state : World nat :=
  fun instant c =>
    (match c as c0 return answer c0 with
     | states_query _ => inr []
     | other => canned instant other
     end, S instant).

(** The same with a mail provider that rejects two addressees, the later one
    in the list sooner than the earlier one. *)
Definition flaky : World nat :=
  fun instant c =>
    (match c as c0 return answer c0 with
     | sgMail_send msg =>
         if to msg =? "slow@example.com" then
           {| settledAt := 9; outcome := inl (LibraryError "ResponseError" "Timeout") |}
         else if to msg =? "fast@example.com" then
           {| settledAt := 2; outcome := inl (LibraryError "ResponseError" "Bad address") |}
         else {| settledAt := 5; outcome := inr tt |}
     | other => canned instant other
     end, S instant).

(** A platform that keeps subscriptions: a query lists what it holds, a
    delete removes the first one when the version is the current one. *)
Definition store : World (list Subscription) :=
  fun held c =>
    match c as c0 return answer c0 * list Subscription with
    | subscriptions_query _ => (inr held, held)
    | subscriptions_delete key version =>
        match held with
        | current :: others =>
            if (subscription_version current =? version)%Z
            then (inr current, others)
            else (inl (LibraryError "ConcurrentModification" "Version mismatch"), held)
        | [] => (inl (LibraryError "NotFound" "No such subscription"), held)
        end
    | other => (canned 0 other, held)
    end.

(** The text of an [ApprovalFlowRejected] envelope for order ord1. *)
Definition rejected_text : string :=
  "{" ++ dq ++ "type" ++ dq ++ ":" ++ dq ++ "ApprovalFlowRejected" ++ dq ++ ","
  ++ dq ++ "resource" ++ dq ++ ":{" ++ dq ++ "id" ++ dq ++ ":" ++ dq ++ "af1" ++ dq ++ "},"
  ++ dq ++ "order" ++ dq ++ ":{" ++ dq ++ "id" ++ dq ++ ":" ++ dq ++ "ord1" ++ dq ++ "}}".

Definition rejected_envelope : JsValue :=
  JObj [ ("type", JStr "ApprovalFlowRejected");
         ("resource", JObj [("id", JStr "af1")]);
         ("order", JObj [("id", JStr "ord1")]) ].

(** A base64 decoder that knows two more payloads, and takes strings only. *)
Definition Buffer_toString (data : JsValue) : JsError + string :=
  match data with
  | JStr s =>
      if s =? "bnVsbA==" then inr "null"
      else if s =? "cmVqZWN0ZWQ=" then inr (" " ++ rejected_text ++ nl)
      else inr ""
  | _ => inl (TypeError "The first argument must be of type string")
  end.

(** A parser that knows [null] and the rejected envelope. *)
Definition parse (text_ : string) : JsError + JsValue :=
  if text_ =? "null" then inr JNull
  else if text_ =? rejected_text then inr rejected_envelope
  else inl (LibraryError "SyntaxError" "Unexpected token in JSON").

(** [assertError] on the errors of this model, which are all [Error]s. *)
Definition assertError (error : JsError) : JsError + unit := inr tt.

(** The same as [world] with a platform that answers no subscription request. *)
Definition platform_down : World nat :=
  fun instant c =>
    (match c as c0 return answer c0 with
     | subscriptions_query _ => inl (LibraryError "FetchError" "ECONNREFUSED")
     | other => canned instant other
     end, S instant).

(** The same as [world] with an approval flow that still has approvers
    pending, in a business unit other than the order's. *)
Definition next_tier : World nat :=
  fun instant c =>
    (match c as c0 return answer c0 with
     | approvalFlows_get _ _ ID =>
         inr {| flow_id := text_of ID;
                flow_businessUnit := {| ref_key := "bu2" |};
                flow_order := {| ref_id := "ord1" |};
                flow_currentTierPendingApprovers :=
                  [ {| associateRole := {| ref_key := "buyer" |} |} ] |}
     | customers_query _ => inr [alice]
     | other => canned instant other
     end, S instant).

End Sample.

(* ===================================================================== *)
(** ** How runs compose *)
(* ===================================================================== *)

Section Runs.

Context {W : Type} (world : World W).

Lemma run_bind {A B} (p : Prog A) (f : A -> Prog B) (w : W) :
  run world (bind p f) w =
  match run world p w with
  | (Returned a, c1, w1) =>
      let '(r, c2, w2) := run world (f a) w1 in (r, (c1 ++ c2)%list, w2)
  | (Thrown error, c1, w1) => (Thrown error, c1, w1)
  end.
Proof.
  revert w. induction p as [a | error | c k IH]; intros w; simpl.
  - destruct (run world (f a) w) as [[r c2] w2]. reflexivity.
  - reflexivity.
  - destruct (world w c) as [x w1]. rewrite IH.
    destruct (run world (k x) w1) as [[[a | error] c1] w2]; [ | reflexivity ].
    destruct (run world (f a) w2) as [[r c2] w3]. reflexivity.
Qed.

Lemma run_try_catch {A} (p : Prog A) (handler : JsError -> Prog A) (w : W) :
  run world (try_catch p handler) w =
  match run world p w with
  | (Returned a, c1, w1) => (Returned a, c1, w1)
  | (Thrown error, c1, w1) =>
      let '(r, c2, w2) := run world (handler error) w1 in (r, (c1 ++ c2)%list, w2)
  end.
Proof.
  revert w. induction p as [a | error | c k IH]; intros w; simpl.
  - reflexivity.
  - destruct (run world (handler error) w) as [[r c2] w2]. reflexivity.
  - destruct (world w c) as [x w1]. rewrite IH.
    destruct (run world (k x) w1) as [[[a | error] c1] w2]; [ reflexivity | ].
    destruct (run world (handler error) w2) as [[r c2] w3]. reflexivity.
Qed.

(** A [catch] block that only throws adds no call. *)
Lemma run_rethrow {A} (p : Prog A) (wrap : JsError -> JsError) (w : W) :
  run world (try_catch p (fun error => Throw (wrap error))) w =
  match run world p w with
  | (Returned a, c1, w1) => (Returned a, c1, w1)
  | (Thrown error, c1, w1) => (Thrown (wrap error), c1, w1)
  end.
Proof.
  rewrite run_try_catch.
  destruct (run world p w) as [[[a | error] c1] w1]; simpl; [ reflexivity | ].
  rewrite app_nil_r. reflexivity.
Qed.

Lemma run_execute {A} (c : Call) (body : answer c -> Settled A) (w : W) :
  run world (execute c body) w =
  (match body (fst (world w c)) with
   | inl error => Thrown error
   | inr a => Returned a
   end, [c], snd (world w c)).
Proof.
  unfold execute. simpl. destruct (world w c) as [x w1]. simpl.
  destruct (body x); reflexivity.
Qed.

End Runs.

(* ===================================================================== *)
(** ** The language primitives on small inputs *)
(* ===================================================================== *)

Example trim_spaces_and_line_feed :
  trim (" " ++ nl ++ "{ }" ++ nl ++ bytes [194; 160]) = "{ }".
Proof. reflexivity. Qed.

Example trim_keeps_inner_space : trim "  a b  " = "a b".
Proof. reflexivity. Qed.

Example template_literal_of_array :
  String_ (JArr [JNum 5; JNull; JStr "a"; JNum (-12); JObj []])
  = inr "5,,a,-12,[object Object]".
Proof. reflexivity. Qed.

Example template_literal_of_own_toString :
  String_ (JObj [("toString", JNum 1)]) = inl cannot_convert
  /\ String_ (JArr [JStr "a"; JObj [("toString", JNull)]]) = inl cannot_convert
  /\ String_ (JObj [("valueOf", JNum 1)]) = inr "[object Object]".
Proof. repeat split; reflexivity. Qed.

Example template_literal_of_large_numbers :
  String_ (JNum (2 ^ 53 + 1)) = inr "9007199254740992"
  /\ String_ (JNum (2 ^ 64)) = inr "18446744073709552000"
  /\ String_ (JNum (10 ^ 21 - 1)) = inr "1e+21"
  /\ String_ (JNum (- 2 ^ 70)) = inr "-1.1805916207174113e+21".
Proof. repeat split; vm_compute; reflexivity. Qed.

Example optional_chaining_on_missing_object :
  optProp (member (JObj [("type", JStr "ApprovalFlowApproved")]) "resource") "id" = JUndefined
  /\ getProp (member (JObj [("type", JStr "ApprovalFlowApproved")]) "associate") "id"
     = inl (TypeError "Cannot read properties of undefined (reading 'id')").
Proof. split; reflexivity. Qed.

Example earliest_rejection_wins :
  first_rejection
    [ {| settledAt := 5; outcome := inr tt |};
      {| settledAt := 9; outcome := inl (TypeError "late") |};
      {| settledAt := 2; outcome := inl (TypeError "early") |} ]
  = Some (2, TypeError "early").
Proof. reflexivity. Qed.

(* ===================================================================== *)
(** ** The error middleware *)
(* ===================================================================== *)

(** C1. Whatever error reaches [errorMiddleware], the reply has status 200.
    Outside development mode the body is the generic object
    [{ message: 'Internal server error' }]; in development mode the body holds
    the raw [error.message] (under the key the source spells [messge]), still
    with status 200.  The reply does not depend on the error's own status
    code, which therefore never reaches the client. *)
Theorem errorMiddleware_always_200 (NODE_ENV : option string) (error : JsError) :
  status (errorMiddleware NODE_ENV error) = 200%Z
  /\ (NODE_ENV <> Some "development" ->
      sent (errorMiddleware NODE_ENV error)
      = JObj [("message", JStr "Internal server error")])
  /\ (NODE_ENV = Some "development" ->
      sent (errorMiddleware NODE_ENV error)
      = JObj [("messge", JStr (message_of error))])
  /\ (forall statusCode statusCode' message,
        errorMiddleware NODE_ENV (CustomError statusCode message)
        = errorMiddleware NODE_ENV (CustomError statusCode' message)).
Proof.
  repeat split.
  - intros production. unfold errorMiddleware. simpl.
    destruct NODE_ENV as [mode | ]; [ | reflexivity ].
    destruct (String.eqb_spec mode "development") as [-> | _];
      [ congruence | reflexivity ].
  - intros ->. reflexivity.
Qed.

Lemma errorMiddleware_always_200_witness :
  sent (errorMiddleware (Some "production") (CustomError 400 "Bad request: No message data found"))
  = JObj [("message", JStr "Internal server error")]
  /\ sent (errorMiddleware (Some "development") (CustomError 400 "Bad request: No message data found"))
     = JObj [("messge", JStr "Bad request: No message data found")].
Proof.
  split.
  - apply (errorMiddleware_always_200 (Some "production")
             (CustomError 400 "Bad request: No message data found")).
    discriminate.
  - apply (errorMiddleware_always_200 (Some "development")
             (CustomError 400 "Bad request: No message data found")).
    reflexivity.
Defined.

(* ===================================================================== *)
(** ** The decoder *)
(* ===================================================================== *)

Lemma drop_app (w s : string) : drop (String.length w) (w ++ s) = s.
Proof. induction w as [ | c w IH]; simpl; [ reflexivity | exact IH ]. Qed.

(** No white-space encoding starts another one, so the one found at the front
    of [w ++ s] is [w] itself. *)
Lemma find_white_space (w s : string) :
  In w white_space ->
  find (fun w' => starts_with w' (w ++ s)) white_space = Some w.
Proof.
  intros H. unfold white_space in H. simpl in H.
  repeat (destruct H as [<- | H]; [ reflexivity | ]).
  contradiction.
Qed.

Lemma white_space_not_empty (w : string) :
  In w white_space -> 1 <= String.length w.
Proof.
  intros H. unfold white_space in H. simpl in H.
  repeat (destruct H as [<- | H]; [ simpl; lia | ]).
  contradiction.
Qed.

Lemma length_append (a b : string) :
  String.length (a ++ b) = String.length a + String.length b.
Proof. induction a as [ | c a IH]; simpl; [ reflexivity | now rewrite IH ]. Qed.

Lemma strip_only_white_space (s : string) :
  only_white_space s ->
  forall fuel, String.length s <= fuel -> strip white_space fuel s = "".
Proof.
  induction 1 as [ | w s Hw Hs IH]; intros fuel Hfuel.
  - destruct fuel; reflexivity.
  - rewrite length_append in Hfuel.
    pose proof (white_space_not_empty w Hw) as Hlen.
    destruct fuel as [ | fuel]; [ lia | ].
    cbn [strip]. rewrite (find_white_space w s Hw), drop_app.
    apply IH. lia.
Qed.

Lemma trim_only_white_space (s : string) : only_white_space s -> trim s = "".
Proof.
  intros H. unfold trim, trimStart.
  rewrite (strip_only_white_space s H); [ reflexivity | lia ].
Qed.

Lemma getProp_truthy (v : JsValue) (name : string) :
  truthy v = true -> getProp v name = inr (member v name).
Proof. destruct v; simpl; intros H; try discriminate; reflexivity. Qed.

Lemma truthy_string_empty (s : string) : truthy_string s = false <-> s = "".
Proof.
  unfold truthy_string. destruct (String.eqb_spec s ""); simpl; split; congruence.
Qed.

Section Decoder.

Variable config : Configuration.
Variable Buffer_from_base64_toString : JsValue -> JsError + string.
Variable JSON_parse : string -> JsError + JsValue.

Local Abbreviation validate := validatePubSubMessage.
Local Abbreviation decode := (decodePubSubMessage Buffer_from_base64_toString JSON_parse).

(** What [decodePubSubMessage] does once the data decoded to [decoded]. *)
Lemma decode_decoded (pubSubMessage data : JsValue) (decoded : string) :
  getProp pubSubMessage "data" = inr data ->
  truthy data = true ->
  Buffer_from_base64_toString data = inr decoded ->
  decode pubSubMessage =
  if negb (truthy_string (trim decoded)) then
    Throw (CustomError 400 "Bad request: No message data found")
  else
    try_catch
      (jsonData <- lift (JSON_parse (trim decoded)) ;;
       _ <- lift (getProp jsonData "notificationType") ;;
       Ret jsonData)
      (fun _ => Throw (CustomError 400 "Bad request: Invalid JSON in message data")).
Proof.
  intros Hdata Htruthy Hdecoded. unfold decodePubSubMessage.
  rewrite Hdata. simpl. rewrite Htruthy. simpl. rewrite Hdecoded. reflexivity.
Qed.

Lemma decode_no_data (pubSubMessage data : JsValue) :
  getProp pubSubMessage "data" = inr data ->
  truthy data = false ->
  decode pubSubMessage = Throw (CustomError 400 "Bad request: No message data found").
Proof.
  intros Hdata Hfalsy. unfold decodePubSubMessage.
  rewrite Hdata. simpl. rewrite Hfalsy. reflexivity.
Qed.

(** C10. When [message.data] decodes to white space only, the decoder trims
    the decoded text before it tests for emptiness, and so fails with the
    400 error 'Bad request: No message data found', whatever [JSON.parse]
    would have made of the text: the same outcome as for a message whose data
    is absent. *)
Theorem decode_white_space_only (pubSubMessage data : JsValue) (decoded : string) :
  getProp pubSubMessage "data" = inr data ->
  truthy data = true ->
  Buffer_from_base64_toString data = inr decoded ->
  only_white_space decoded ->
  trim decoded = ""
  /\ decode pubSubMessage = Throw (CustomError 400 "Bad request: No message data found")
  /\ decode pubSubMessage = decode (JObj []).
Proof.
  intros Hdata Htruthy Hdecoded Hws.
  pose proof (trim_only_white_space decoded Hws) as Htrim.
  assert (decode pubSubMessage
          = Throw (CustomError 400 "Bad request: No message data found")) as Hthrow.
  { rewrite (decode_decoded _ _ _ Hdata Htruthy Hdecoded), Htrim. reflexivity. }
  repeat split; [ exact Htrim | exact Hthrow | ].
  rewrite Hthrow. symmetry. apply (decode_no_data (JObj []) JUndefined); reflexivity.
Qed.

(** C4. A request whose body is absent, whose body has no [message], whose
    message data is absent or empty once decoded, or whose decoded payload
    [JSON.parse] rejects, makes the decoder throw a [CustomError] with status
    400 and the reason given for that case; [post] throws the same error
    without running the router. *)
Theorem refused_request_is_bad_request (request : Request) (reason : string) :
  refused Buffer_from_base64_toString JSON_parse request reason ->
  (pubSubMessage <- validate request ;; decode pubSubMessage)
  = Throw (CustomError 400 reason)
  /\ post config Buffer_from_base64_toString JSON_parse request
     = Throw (CustomError 400 reason).
Proof.
  intros Hrefused.
  assert ((pubSubMessage <- validate request ;; decode pubSubMessage)
          = Throw (CustomError 400 reason)) as Hdecoder.
  { unfold validatePubSubMessage.
    destruct Hrefused as [Hbody | Hbody Hmessage | Hbody Hmessage Hdata
                         | decoded Hbody Hmessage Hdata Hdecoded Hempty
                         | decoded syntaxError Hbody Hmessage Hdata Hdecoded Hsome Hparse];
      rewrite Hbody; simpl; [ reflexivity | .. ]; rewrite Hmessage; simpl;
      [ reflexivity | .. ].
    - apply (decode_no_data _ _ (getProp_truthy _ "data" Hmessage) Hdata).
    - rewrite (decode_decoded _ _ _ (getProp_truthy _ "data" Hmessage) Hdata Hdecoded).
      rewrite Hempty. reflexivity.
    - rewrite (decode_decoded _ _ _ (getProp_truthy _ "data" Hmessage) Hdata Hdecoded).
      destruct (truthy_string (trim decoded)) eqn:Htext.
      + simpl. rewrite Hparse. reflexivity.
      + apply truthy_string_empty in Htext. contradiction. }
  split; [ exact Hdecoder | ].
  unfold post. revert Hdecoder.
  destruct (validate request) as [pubSubMessage | error | c k]; simpl.
  - intros ->. reflexivity.
  - intros H. injection H as ->. reflexivity.
  - discriminate.
Qed.

End Decoder.

Lemma decode_white_space_only_witness :
  trim "   " = ""
  /\ decodePubSubMessage Sample.Buffer_from_base64_toString Sample.JSON_parse
       (JObj [("data", JStr "ICAg")])
     = Throw (CustomError 400 "Bad request: No message data found")
  /\ decodePubSubMessage Sample.Buffer_from_base64_toString Sample.JSON_parse
       (JObj [("data", JStr "ICAg")])
     = decodePubSubMessage Sample.Buffer_from_base64_toString Sample.JSON_parse (JObj []).
Proof.
  apply (decode_white_space_only Sample.Buffer_from_base64_toString Sample.JSON_parse
           (JObj [("data", JStr "ICAg")]) (JStr "ICAg") "   ").
  - reflexivity.
  - reflexivity.
  - reflexivity.
  - apply (ws_more " " "  "); [ simpl; tauto | ].
    apply (ws_more " " " "); [ simpl; tauto | ].
    apply (ws_more " " ""); [ simpl; tauto | ].
    apply ws_empty.
Defined.

Lemma refused_request_is_bad_request_witness :
  post Sample.config Sample.Buffer_from_base64_toString Sample.JSON_parse
    {| body := JObj [("message", JObj [("data", JStr "bm90IGpzb24=")])] |}
  = Throw (CustomError 400 "Bad request: Invalid JSON in message data").
Proof.
  apply (refused_request_is_bad_request Sample.config
           Sample.Buffer_from_base64_toString Sample.JSON_parse
           {| body := JObj [("message", JObj [("data", JStr "bm90IGpzb24=")])] |}
           "Bad request: Invalid JSON in message data").
  apply (data_not_json _ _ _ "not json" (LibraryError "SyntaxError" "Unexpected token in JSON"));
    try reflexivity.
  vm_compute. discriminate.
Defined.

(* ===================================================================== *)
(** ** The router *)
(* ===================================================================== *)

Lemma strict_eq_string_false (v : JsValue) (s : string) :
  v <> JStr s -> strict_eq_string v s = false.
Proof.
  destruct v as [ | | b | n | t | items | fields ]; simpl; try reflexivity.
  intros H. destruct (String.eqb_spec t s) as [-> | _]; [ contradiction | reflexivity ].
Qed.

(** C5, as the code has it.  An [ApprovalFlowApproved] envelope with a
    resource id but no [associate] object makes the router fault with a
    [TypeError] on [jsonData.associate.id], not a [CustomError] 400; one whose
    [associate] object has no [id] runs the handler with an undefined
    associate id. *)
Theorem route_approved_missing_associate (config : Configuration) :
  routeApprovalFlowMessage config
    (JObj [ ("type", JStr "ApprovalFlowApproved");
            ("resource", JObj [("id", JStr "af1")]);
            ("order", JObj [("id", JStr "ord1")]) ])
  = Throw (TypeError "Cannot read properties of undefined (reading 'id')")
  /\ routeApprovalFlowMessage config
       (JObj [ ("type", JStr "ApprovalFlowApproved");
               ("resource", JObj [("id", JStr "af1")]);
               ("associate", JObj []);
               ("order", JObj [("id", JStr "ord1")]) ])
     = handleApprovalFlowApproved config (JStr "af1") JUndefined (JStr "ord1").
Proof. split; reflexivity. Qed.

(** C6, the claim as stated fails: an unknown type makes the router throw a
    400 error. *)
Lemma route_unknown_type_fails :
  routeApprovalFlowMessage Sample.config (JObj [("type", JStr "SomethingElse")])
  = Throw (CustomError 400 "Unsupported notification type: SomethingElse").
Proof. reflexivity. Qed.

(** Induction on a value, with the property in hand for the items of an
    array. *)
Lemma JsValue_items_ind (P : JsValue -> Prop) :
  P JUndefined -> P JNull -> (forall b, P (JBool b)) -> (forall n, P (JNum n)) ->
  (forall s, P (JStr s)) ->
  (forall items, Forall P items -> P (JArr items)) ->
  (forall fields, P (JObj fields)) ->
  forall v, P v.
Proof.
  intros Hundefined Hnull Hbool Hnum Hstr Harr Hobj.
  exact (fix rec (v : JsValue) : P v :=
           match v with
           | JUndefined => Hundefined
           | JNull => Hnull
           | JBool b => Hbool b
           | JNum n => Hnum n
           | JStr s => Hstr s
           | JArr items =>
               Harr items
                 ((fix all (l : list JsValue) : Forall P l :=
                     match l with
                     | [] => Forall_nil P
                     | x :: rest => Forall_cons x (rec x) (all rest)
                     end) items)
           | JObj fields => Hobj fields
           end).
Qed.

(** Whatever a template literal throws is the conversion's [TypeError]. *)
Lemma String_fault (v : JsValue) (fault : JsError) :
  String_ v = inl fault -> fault = cannot_convert.
Proof.
  revert fault.
  induction v as [ | | [ | ] | n | s | items IH | fields ] using JsValue_items_ind;
    intros fault; simpl; try discriminate.
  - match goal with
    | |- context [?join items] =>
        assert (forall failed, join items = inl failed -> failed = cannot_convert) as Hjoin
    end.
    { induction IH as [ | x rest Hx _ IHrest]; intros failed; [ discriminate | ].
      destruct (match x with
                | JUndefined | JNull => inr ""
                | _ => String_ x
                end) as [early | printed] eqn:Hprinted.
      - intros H. injection H as <-.
        destruct x; try discriminate; apply (Hx _ Hprinted).
      - match goal with
        | |- context [?join rest] => destruct (join rest) as [late | joined] eqn:Hrest
        end; [ | discriminate ].
        intros H. injection H as <-. apply IHrest. reflexivity. }
    match goal with
    | |- context [?join items] => destruct (join items) as [failed | joined]
    end; [ | discriminate ].
    intros H. injection H as <-. apply Hjoin. reflexivity.
  - destruct (has_field "toString" fields); [ | discriminate ].
    intros H. injection H as <-. reflexivity.
Qed.

Lemma printable_String_ (v : JsValue) :
  printable v = true -> exists printed, String_ v = inr printed.
Proof.
  unfold printable. destruct (String_ v) as [fault | printed];
    [ discriminate | intros _; exists printed; reflexivity ].
Qed.

(** C6, amended.  For [ResourceCreated] the router throws a [CustomError]
    with status 202, the skip signal; for a type that is none of the five it
    has a case for (an empty or missing type included) and that prints as a
    string it throws a [CustomError] with status 400 that names the type.  In
    both cases the router is that throw and nothing else: no handler runs, no
    call is issued.  A type that does not print (an object with an own
    [toString] key, or an array that holds one) makes the router throw the
    conversion's [TypeError] at its first log line, before the switch. *)
Theorem route_skip_and_unsupported (config : Configuration) (jsonData type : JsValue) :
  destructure_type jsonData = inr type ->
  (type = JStr "ResourceCreated" ->
   routeApprovalFlowMessage config jsonData
   = Throw (CustomError 202
       "Incoming message is about subscription resource creation. Skip handling the message."))
  /\ (forall printed,
        (forall known, In known routed_types -> type <> JStr known) ->
        String_ type = inr printed ->
        routeApprovalFlowMessage config jsonData
        = Throw (CustomError 400 ("Unsupported notification type: " ++ printed)))
  /\ (forall fault,
        String_ type = inl fault ->
        fault = cannot_convert
        /\ routeApprovalFlowMessage config jsonData = Throw fault).
Proof.
  intros Htype. unfold routeApprovalFlowMessage. rewrite Htype. simpl.
  split; [ | split ].
  - intros ->. reflexivity.
  - intros printed Hunknown ->. simpl.
    rewrite !strict_eq_string_false; [ reflexivity | .. ];
      apply Hunknown; simpl; tauto.
  - intros fault Hfault. split; [ exact (String_fault _ _ Hfault) | ].
    rewrite Hfault. reflexivity.
Qed.

Lemma route_skip_and_unsupported_witness :
  routeApprovalFlowMessage Sample.config (JObj [("type", JStr "ResourceCreated")])
  = Throw (CustomError 202
      "Incoming message is about subscription resource creation. Skip handling the message.")
  /\ routeApprovalFlowMessage Sample.config (JObj [])
     = Throw (CustomError 400 "Unsupported notification type: undefined")
  /\ routeApprovalFlowMessage Sample.config (JObj [("type", JNum (10 ^ 21))])
     = Throw (CustomError 400 "Unsupported notification type: 1e+21")
  /\ routeApprovalFlowMessage Sample.config
       (JObj [("type", JObj [("toString", JNum 1)])])
     = Throw (TypeError "Cannot convert object to primitive value").
Proof.
  split; [ | split; [ | split ] ].
  - exact (proj1 (route_skip_and_unsupported Sample.config
                    (JObj [("type", JStr "ResourceCreated")]) (JStr "ResourceCreated")
                    eq_refl) eq_refl).
  - refine (proj1 (proj2 (route_skip_and_unsupported Sample.config (JObj []) JUndefined
                            eq_refl)) "undefined" _ eq_refl).
    intros known _. discriminate.
  - refine (proj1 (proj2 (route_skip_and_unsupported Sample.config
                            (JObj [("type", JNum (10 ^ 21))]) (JNum (10 ^ 21)) eq_refl))
              "1e+21" _ _).
    + intros known _. discriminate.
    + vm_compute. reflexivity.
  - exact (proj2 (proj2 (proj2 (route_skip_and_unsupported Sample.config
                                  (JObj [("type", JObj [("toString", JNum 1)])])
                                  (JObj [("toString", JNum 1)]) eq_refl))
                    cannot_convert eq_refl)).
Defined.

(* ===================================================================== *)
(** ** The order state transition *)
(* ===================================================================== *)

Section Transition.

Context {W : Type} (world : World W).
Variables (orderId : JsValue) (stateKey : string).

Local Abbreviation lookup := (states_query ("key=" ++ dq ++ stateKey ++ dq)).
Local Abbreviation update order targetState :=
  (orders_post orderId
     {| update_version := order_version order;
        actions := [transitionState {| typeId := "state"; id := state_id targetState |}] |}).

(** An order id that does not print stops both functions at their first
    log line. *)
Lemma fetchOrder_fault (fault : JsError) :
  String_ orderId = inl fault -> fetchOrder orderId = Throw fault.
Proof. intros Hfault. unfold fetchOrder. rewrite Hfault. reflexivity. Qed.

Lemma transitionOrderState_fault (fault : JsError) :
  String_ orderId = inl fault -> transitionOrderState orderId stateKey = Throw fault.
Proof. intros Hfault. unfold transitionOrderState. rewrite Hfault. reflexivity. Qed.

Lemma run_fetchOrder (printed : string) (w : W) :
  String_ orderId = inr printed ->
  run world (fetchOrder orderId) w =
  (match fst (world w (orders_get orderId)) with
   | inl error => Thrown (CustomError 400 ("Failed to fetch order: " ++ String_error error))
   | inr order => Returned order
   end, [orders_get orderId], snd (world w (orders_get orderId))).
Proof.
  intros Hprinted. unfold fetchOrder. rewrite Hprinted. cbn [lift bind].
  rewrite run_rethrow, run_execute.
  destruct (fst (world w (orders_get orderId))); reflexivity.
Qed.

(** Every way [transitionOrderState] can go with an order id that prints. *)
Lemma run_transitionOrderState (printed : string) (w : W) :
  String_ orderId = inr printed ->
  run world (transitionOrderState orderId stateKey) w =
  let '(fetched, w1) := world w (orders_get orderId) in
  match fetched with
  | inl error =>
      (Thrown (transition_failure
                 (CustomError 400 ("Failed to fetch order: " ++ String_error error))),
       [orders_get orderId], w1)
  | inr order =>
      let '(found, w2) := world w1 lookup in
      match found with
      | inl error =>
          (Thrown (transition_failure error), [orders_get orderId; lookup], w2)
      | inr [] =>
          (Thrown (transition_failure
                     (CustomError 400
                        ("State with key " ++ dq ++ stateKey ++ dq ++ " not found"))),
           [orders_get orderId; lookup], w2)
      | inr (targetState :: _) =>
          let '(updated, w3) := world w2 (update order targetState) in
          (match updated with
           | inl error => Thrown (transition_failure error)
           | inr body => Returned body
           end, [orders_get orderId; lookup; update order targetState], w3)
      end
  end.
Proof.
  intros Hprinted. unfold transitionOrderState. rewrite Hprinted. cbn [lift bind].
  rewrite run_rethrow, run_bind, (run_fetchOrder printed w Hprinted).
  destruct (world w (orders_get orderId)) as [[error | order] w1]; simpl fst; simpl snd;
    [ reflexivity | ].
  cbv beta iota. rewrite run_bind, run_execute.
  destruct (world w1 lookup) as [[error | [ | targetState others]] w2]; simpl fst; simpl snd;
    [ reflexivity | reflexivity | ].
  cbv beta iota. rewrite run_execute.
  destruct (world w2 (update order targetState)) as [[error | body] w3]; reflexivity.
Qed.

(** Whatever the transition throws for an order id that prints is its own
    400 error. *)
Lemma transition_throws (w : W) (printed : string) (error : JsError) :
  String_ orderId = inr printed ->
  completion world (transitionOrderState orderId stateKey) w = Thrown error ->
  exists cause, error = transition_failure cause.
Proof.
  intros Hprinted. unfold completion.
  rewrite (run_transitionOrderState printed w Hprinted).
  destruct (world w (orders_get orderId)) as [[cause | order] w1]; simpl;
    [ intros H; injection H as <-; eexists; reflexivity | ].
  destruct (world w1 (states_query _)) as [[cause | [ | targetState others]] w2]; simpl;
    try (intros H; injection H as <-; eexists; reflexivity).
  destruct (world w2 (orders_post _ _)) as [[cause | body] w3]; simpl;
    [ intros H; injection H as <-; eexists; reflexivity | discriminate ].
Qed.

End Transition.

(** C3. [transitionOrderState] begins by fetching the order again, and the
    version it sends is the one this fetch returned: the function is given no
    version, so none observed earlier can be reused.  When the state query
    for the exact key returns nothing it fails with a 400 [CustomError] and
    sends no update; when it returns states, the calls are the fetch, the
    query and one update, which carries the fetched version and the single
    action [transitionState] to the first state returned.  Every failure is a
    [CustomError] with status 400.  This holds for every order id that
    prints as a string, as every string does and as both callers have
    checked by printing it themselves; an order id that does not print stops
    the function at its first log line with the conversion's [TypeError],
    before any call. *)
Theorem transitionOrderState_fresh_version_one_update
    {W : Type} (world : World W) (orderId : JsValue) (stateKey : string) (w : W) :
  (forall printed,
     String_ orderId = inr printed ->
     (exists rest,
        calls world (transitionOrderState orderId stateKey) w = orders_get orderId :: rest)
     /\ (forall error,
           completion world (transitionOrderState orderId stateKey) w = Thrown error ->
           exists reason, error = CustomError 400 reason)
     /\ (forall order w1 results w2,
           world w (orders_get orderId) = (inr order, w1) ->
           world w1 (states_query ("key=" ++ dq ++ stateKey ++ dq)) = (inr results, w2) ->
           match results with
           | [] =>
               completion world (transitionOrderState orderId stateKey) w
               = Thrown (transition_failure
                           (CustomError 400
                              ("State with key " ++ dq ++ stateKey ++ dq ++ " not found")))
               /\ order_updates (calls world (transitionOrderState orderId stateKey) w) = []
           | targetState :: _ =>
               calls world (transitionOrderState orderId stateKey) w
               = [ orders_get orderId;
                   states_query ("key=" ++ dq ++ stateKey ++ dq);
                   orders_post orderId
                     {| update_version := order_version order;
                        actions := [transitionState
                                      {| typeId := "state"; id := state_id targetState |}] |} ]
           end))
  /\ (forall fault,
        String_ orderId = inl fault ->
        run world (transitionOrderState orderId stateKey) w = (Thrown fault, [], w)).
Proof.
  split.
  2: { intros fault Hfault. rewrite (transitionOrderState_fault _ _ _ Hfault). reflexivity. }
  intros printed Hprinted.
  unfold calls, completion. rewrite (run_transitionOrderState world _ _ printed w Hprinted).
  repeat split.
  - destruct (world w (orders_get orderId)) as [[error | order] w1];
      [ eexists; reflexivity | ].
    destruct (world w1 (states_query _)) as [[error | [ | targetState others]] w2];
      try (eexists; reflexivity).
    destruct (world w2 (orders_post _ _)) as [updated w3]. eexists; reflexivity.
  - intros error.
    destruct (world w (orders_get orderId)) as [[cause | order] w1]; simpl.
    { intros H. injection H as <-. eexists; reflexivity. }
    destruct (world w1 (states_query _)) as [[cause | [ | targetState others]] w2]; simpl;
      try (intros H; injection H as <-; eexists; reflexivity).
    destruct (world w2 (orders_post _ _)) as [[cause | body] w3]; simpl;
      [ intros H; injection H as <-; eexists; reflexivity | discriminate ].
  - intros order w1 results w2 Hfetch Hquery. rewrite Hfetch, Hquery.
    destruct results as [ | targetState others].
    + split; reflexivity.
    + destruct (world w2 (orders_post _ _)) as [updated w3]. reflexivity.
Qed.

Lemma transitionOrderState_fresh_version_one_update_witness :
  calls Sample.world (transitionOrderState (JStr "ord1") "needs-approval") 7
  = [ orders_get (JStr "ord1");
      states_query ("key=" ++ dq ++ "needs-approval" ++ dq);
      orders_post (JStr "ord1")
        {| update_version := 7;
           actions := [transitionState {| typeId := "state"; id := "state-1" |}] |} ]
  /\ order_updates (calls Sample.no_state (transitionOrderState (JStr "ord1") "missing") 7) = [].
Proof.
  split.
  - exact (proj2 (proj2 (proj1 (transitionOrderState_fresh_version_one_update
                                  Sample.world (JStr "ord1") "needs-approval" 7)
                           "ord1" eq_refl))
             {| order_id := "ord1"; order_version := 7;
                order_businessUnit := Some {| ref_key := "bu1" |} |}
             8
             [ {| state_id := "state-1"; state_key := "needs-approval" |} ]
             9 eq_refl eq_refl).
  - exact (proj2 (proj2 (proj2 (proj1 (transitionOrderState_fresh_version_one_update
                                         Sample.no_state (JStr "ord1") "missing" 7)
                                  "ord1" eq_refl))
                    {| order_id := "ord1"; order_version := 7;
                       order_businessUnit := Some {| ref_key := "bu1" |} |}
                    8 [] 9 eq_refl eq_refl)).
Defined.

(* ===================================================================== *)
(** ** The subscription *)
(* ===================================================================== *)

Section Subscription.

Context {W : Type} (world : World W).

Local Abbreviation search :=
  (subscriptions_query ("key = " ++ dq ++ APPROVAL_FLOW_NOTIFICATION_SUBSCRIPTION_KEY ++ dq)).
Local Abbreviation remove version :=
  (subscriptions_delete APPROVAL_FLOW_NOTIFICATION_SUBSCRIPTION_KEY version).

Lemma run_deleteSubscription (w : W) :
  run world deleteApprovalFlowNotificationSubscription w =
  let '(found, w1) := world w search in
  match found with
  | inl error => (Thrown error, [search], w1)
  | inr [] => (Returned tt, [search], w1)
  | inr (subscription :: _) =>
      let '(deleted, w2) := world w1 (remove (subscription_version subscription)) in
      (match deleted with
       | inl error => Thrown error
       | inr _ => Returned tt
       end, [search; remove (subscription_version subscription)], w2)
  end.
Proof.
  unfold deleteApprovalFlowNotificationSubscription. rewrite run_bind, run_execute.
  destruct (world w search) as [[error | [ | subscription others]] w1]; simpl fst; simpl snd;
    [ reflexivity | reflexivity | ].
  cbv beta iota. rewrite run_bind, run_execute.
  destruct (world w1 (remove _)) as [[error | deleted] w2]; reflexivity.
Qed.

(** C9. When the lookup by the well-known key finds nothing,
    [deleteApprovalFlowNotificationSubscription] returns after the lookup
    and issues no delete; when it finds a subscription it issues exactly one
    delete, for that key and with the version the lookup returned.  Run a
    second time, once the platform no longer lists the subscription, it
    issues no further delete. *)
Theorem deleteSubscription_zero_or_one_delete (w : W) :
  (forall w1,
     world w search = (inr [], w1) ->
     run world deleteApprovalFlowNotificationSubscription w = (Returned tt, [search], w1))
  /\ (forall subscription others w1,
        world w search = (inr (subscription :: others), w1) ->
        calls world deleteApprovalFlowNotificationSubscription w
        = [search; remove (subscription_version subscription)])
  /\ (forall subscription others w1 deleted w2 w3,
        world w search = (inr (subscription :: others), w1) ->
        world w1 (remove (subscription_version subscription)) = (inr deleted, w2) ->
        world w2 search = (inr [], w3) ->
        subscription_deletes
          (calls world
             (deleteApprovalFlowNotificationSubscription ;;
              deleteApprovalFlowNotificationSubscription) w)
        = [(APPROVAL_FLOW_NOTIFICATION_SUBSCRIPTION_KEY, subscription_version subscription)]).
Proof.
  repeat split.
  - intros w1 Hnone. rewrite run_deleteSubscription, Hnone. reflexivity.
  - intros subscription others w1 Hsome. unfold calls.
    rewrite run_deleteSubscription, Hsome.
    destruct (world w1 (remove _)) as [deleted w2]. reflexivity.
  - intros subscription others w1 deleted w2 w3 Hsome Hdeleted Hnone. unfold calls.
    rewrite run_bind, run_deleteSubscription, Hsome, Hdeleted.
    cbv beta iota. rewrite run_deleteSubscription, Hnone. reflexivity.
Qed.

End Subscription.

Lemma deleteSubscription_zero_or_one_delete_witness :
  run Sample.store deleteApprovalFlowNotificationSubscription []
  = (Returned tt,
     [subscriptions_query ("key = " ++ dq ++ APPROVAL_FLOW_NOTIFICATION_SUBSCRIPTION_KEY ++ dq)],
     [])
  /\ subscription_deletes
       (calls Sample.store
          (deleteApprovalFlowNotificationSubscription ;;
           deleteApprovalFlowNotificationSubscription)
          [ {| subscription_id := "sub1"; subscription_version := 4;
               subscription_key := APPROVAL_FLOW_NOTIFICATION_SUBSCRIPTION_KEY |} ])
     = [(APPROVAL_FLOW_NOTIFICATION_SUBSCRIPTION_KEY, 4%Z)].
Proof.
  split.
  - exact (proj1 (deleteSubscription_zero_or_one_delete Sample.store []) [] eq_refl).
  - exact (proj2 (proj2 (deleteSubscription_zero_or_one_delete Sample.store
                           [ {| subscription_id := "sub1"; subscription_version := 4;
                                subscription_key := APPROVAL_FLOW_NOTIFICATION_SUBSCRIPTION_KEY |} ]))
             {| subscription_id := "sub1"; subscription_version := 4;
                subscription_key := APPROVAL_FLOW_NOTIFICATION_SUBSCRIPTION_KEY |}
             [] _ _ [] [] eq_refl eq_refl eq_refl).
Defined.

(* ===================================================================== *)
(** ** The email dispatcher *)
(* ===================================================================== *)

Section FirstRejection.

Context {A : Type}.

Lemma first_rejection_none (promises : list (Promise A)) :
  first_rejection promises = None <->
  (forall p, In p promises -> exists a, outcome p = inr a).
Proof.
  induction promises as [ | p rest IH]; simpl.
  - split; [ intros _ q [] | reflexivity ].
  - destruct (outcome p) as [error | a] eqn:Hp.
    + split.
      * destruct (first_rejection rest) as [[t later] | ];
          [ destruct (settledAt p <=? t)%nat | ]; discriminate.
      * intros Hall. destruct (Hall p (or_introl eq_refl)) as [a Ha]. congruence.
    + rewrite IH. split.
      * intros Hall q [<- | Hq]; [ exists a; exact Hp | apply Hall, Hq ].
      * intros Hall q Hq. apply Hall. right. exact Hq.
Qed.

Lemma first_rejection_some (promises : list (Promise A)) (t : nat) (error : JsError) :
  first_rejection promises = Some (t, error) ->
  exists first,
    In first promises /\ outcome first = inl error /\ settledAt first = t
    /\ (forall q cause, In q promises -> outcome q = inl cause -> t <= settledAt q).
Proof.
  revert t error. induction promises as [ | p rest IH]; simpl; intros t error Hfirst.
  - discriminate.
  - destruct (outcome p) as [cause | a] eqn:Hp.
    + destruct (first_rejection rest) as [[t' later] | ] eqn:Hrest.
      * destruct (IH t' later eq_refl) as (first & Hin & Hout & Hat & Hmin).
        destruct (Nat.leb_spec (settledAt p) t') as [Hle | Hgt];
          injection Hfirst as <- <-.
        -- exists p. repeat split; auto.
           intros q c [<- | Hq] Hc; [ lia | ]. specialize (Hmin q c Hq Hc). lia.
        -- exists first. repeat split; auto.
           intros q c [<- | Hq] Hc; [ lia | ]. exact (Hmin q c Hq Hc).
      * injection Hfirst as <- <-. exists p. repeat split; auto.
        intros q c [<- | Hq] Hc; [ lia | ].
        destruct (proj1 (first_rejection_none rest) Hrest q Hq) as [a Ha]. congruence.
    + destruct (IH t error Hfirst) as (first & Hin & Hout & Hat & Hmin).
      exists first. repeat split; auto.
      intros q c [<- | Hq] Hc; [ congruence | ]. exact (Hmin q c Hq Hc).
Qed.

End FirstRejection.

Lemma first_rejection_email_promise (promises : list (Promise unit)) :
  first_rejection (map email_promise promises) =
  match first_rejection promises with
  | Some (t, error) =>
      Some (t, CustomError 500 ("Failed to send email: " ++ String_error error))
  | None => None
  end.
Proof.
  induction promises as [ | p rest IH]; simpl; [ reflexivity | ].
  rewrite IH. destruct (outcome p) as [error | []];
    destruct (first_rejection rest) as [[t later] | ]; try reflexivity.
  destruct (settledAt p <=? t)%nat; reflexivity.
Qed.

Section Dispatcher.

Context {W : Type} (world : World W).
Variable config : Configuration.
Variables (subject_ : string) (getTextContent : string -> string)
          (getHtmlContent : option (string -> string)).

Local Abbreviation message := (message_for config subject_ getTextContent getHtmlContent).

Lemma run_send_each (recipients : list Recipient) (w : W) :
  run world
    (map_prog (fun recipient =>
                 sendEmail config (recipient_email recipient) subject_
                   (getTextContent (recipient_name recipient))
                   (match getHtmlContent with
                    | Some f => Some (f (recipient_name recipient))
                    | None => None
                    end))
              recipients) w
  = (Returned (map email_promise (mail_promises world w (map message recipients))),
     map sgMail_send (map message recipients),
     after_mails world w (map message recipients)).
Proof.
  revert w. induction recipients as [ | recipient rest IH]; intros w; [ reflexivity | ].
  cbn [map_prog]. rewrite run_bind.
  assert (run world
            (sendEmail config (recipient_email recipient) subject_
               (getTextContent (recipient_name recipient))
               (match getHtmlContent with
                | Some f => Some (f (recipient_name recipient))
                | None => None
                end)) w
          = (Returned (email_promise (fst (world w (sgMail_send (message recipient))))),
             [sgMail_send (message recipient)],
             snd (world w (sgMail_send (message recipient))))) as ->.
  { unfold sendEmail, message_for. destruct getHtmlContent as [f | ]; simpl;
      match goal with |- context [world w ?c] => destruct (world w c) as [p w1] end;
      reflexivity. }
  cbv beta iota. rewrite run_bind, IH. cbn [map mail_promises after_mails].
  destruct (world w (sgMail_send (message recipient))) as [p w1].
  cbn [run fst snd map]. rewrite app_nil_r. reflexivity.
Qed.

Lemma run_sendBulkEmails (recipients : list Recipient) (w : W) :
  run world (sendBulkEmails config recipients subject_ getTextContent getHtmlContent) w
  = (match first_rejection (mail_promises world w (map message recipients)) with
     | Some (_, cause) => Thrown (bulk_failure cause)
     | None => Returned tt
     end,
     map sgMail_send (map message recipients),
     after_mails world w (map message recipients)).
Proof.
  unfold sendBulkEmails. rewrite run_rethrow, run_bind, run_send_each.
  cbv beta iota. unfold Promise_all. rewrite first_rejection_email_promise.
  destruct (first_rejection (mail_promises world w (map message recipients)))
    as [[t cause] | ]; simpl; rewrite app_nil_r; reflexivity.
Qed.

End Dispatcher.

(** C8. [sendBulkEmails] issues one send per recipient, in the order of the
    list and all of them before it waits for any: the calls are exactly the
    sends, [length recipients] of them, whatever each one's outcome.  It
    returns (with no value) when every send is fulfilled; when some send is
    rejected it throws, and the error is built from the reason of a rejection
    that no other rejection preceded, however many sends had been fulfilled
    by then. *)
Theorem sendBulkEmails_one_send_each_first_failure_wins
    {W : Type} (world : World W) (config : Configuration) (subject_ : string)
    (getTextContent : string -> string) (getHtmlContent : option (string -> string))
    (recipients : list Recipient) (w : W) :
  let bulk := sendBulkEmails config recipients subject_ getTextContent getHtmlContent in
  let msgs := map (message_for config subject_ getTextContent getHtmlContent) recipients in
  let promises := mail_promises world w msgs in
  calls world bulk w = map sgMail_send msgs
  /\ map to msgs = map recipient_email recipients
  /\ List.length (calls world bulk w) = List.length recipients
  /\ ((forall p, In p promises -> outcome p = inr tt) ->
      completion world bulk w = Returned tt)
  /\ (forall p cause,
        In p promises -> outcome p = inl cause ->
        exists first reason,
          In first promises /\ outcome first = inl reason
          /\ (forall q other, In q promises -> outcome q = inl other ->
                              settledAt first <= settledAt q)
          /\ completion world bulk w = Thrown (bulk_failure reason)).
Proof.
  intros bulk msgs promises. unfold calls, completion, bulk.
  rewrite run_sendBulkEmails. fold msgs. fold promises. simpl fst. simpl snd.
  repeat split.
  - unfold msgs. rewrite map_map. reflexivity.
  - unfold msgs. rewrite !length_map. reflexivity.
  - intros Hall.
    assert (first_rejection promises = None) as ->; [ | reflexivity ].
    apply first_rejection_none. intros p Hp. exists tt. apply Hall, Hp.
  - intros p cause Hp Hcause.
    destruct (first_rejection promises) as [[t reason] | ] eqn:Hfirst.
    + destruct (first_rejection_some promises t reason Hfirst)
        as (first & Hin & Hout & Hat & Hmin).
      exists first, reason. repeat split; auto.
      intros q other Hq Hother. rewrite Hat. exact (Hmin q other Hq Hother).
    + destruct (proj1 (first_rejection_none promises) Hfirst p Hp) as [a Ha]. congruence.
Qed.

Lemma sendBulkEmails_one_send_each_first_failure_wins_witness :
  completion Sample.flaky
    (sendBulkEmails Sample.config
       [ {| recipient_email := "ok@example.com"; recipient_name := "Ok" |};
         {| recipient_email := "slow@example.com"; recipient_name := "Slow" |};
         {| recipient_email := "fast@example.com"; recipient_name := "Fast" |} ]
       "Subject" (fun name => name) None) 0
  = Thrown (bulk_failure (LibraryError "ResponseError" "Bad address")).
Proof.
  destruct (proj2 (proj2 (proj2 (proj2
              (sendBulkEmails_one_send_each_first_failure_wins
                 Sample.flaky Sample.config "Subject" (fun name => name) None
                 [ {| recipient_email := "ok@example.com"; recipient_name := "Ok" |};
                   {| recipient_email := "slow@example.com"; recipient_name := "Slow" |};
                   {| recipient_email := "fast@example.com"; recipient_name := "Fast" |} ]
                 0))))
             {| settledAt := 9; outcome := inl (LibraryError "ResponseError" "Timeout") |}
             (LibraryError "ResponseError" "Timeout")
             (or_intror (or_introl eq_refl)) eq_refl)
    as (first & reason & Hin & Hout & Hmin & Hthrown).
  rewrite Hthrown. simpl in Hin. destruct Hin as [<- | [<- | [<- | []]]].
  - discriminate Hout.
  - exfalso.
    specialize (Hmin {| settledAt := 2;
                        outcome := inl (LibraryError "ResponseError" "Bad address") |}
                     (LibraryError "ResponseError" "Bad address")
                     (or_intror (or_intror (or_introl eq_refl))) eq_refl).
    simpl in Hmin. lia.
  - injection Hout as <-. reflexivity.
Defined.

(* ===================================================================== *)
(** ** Resolving approvers to customers *)
(* ===================================================================== *)

Lemma lookups_send_nothing (trace : list Call) :
  forallb is_lookup trace = true ->
  mail_recipients trace = [] /\ order_updates trace = [].
Proof.
  induction trace as [ | c rest IH]; simpl; [ intros _; split; reflexivity | ].
  intros H. apply andb_prop in H as [Hc Hrest]. destruct (IH Hrest) as [Hm Ho].
  destruct c; simpl in *; try discriminate; auto.
Qed.

Section Resolution.

Context {W : Type} (world : World W).
Variable businessUnitKey : JsValue.

(** A role key that does not print stops the loop before its fetch. *)
Lemma run_collect_fault (roleKey : JsValue) (rest : list JsValue)
    (customers : list Reference) (w : W) (fault : JsError) :
  String_ roleKey = inl fault ->
  run world (collectCustomerReferences (roleKey :: rest) businessUnitKey customers) w
  = (Thrown fault, [], w).
Proof. intros Hfault. cbn [collectCustomerReferences]. rewrite Hfault. reflexivity. Qed.

Lemma run_collect_step (roleKey : JsValue) (rest : list JsValue)
    (customers : list Reference) (w : W) (printed : string) :
  String_ roleKey = inr printed ->
  run world (collectCustomerReferences (roleKey :: rest) businessUnitKey customers) w =
  let '(role, w1) := world w (associateRoles_get roleKey) in
  match role with
  | inl error => (Thrown error, [associateRoles_get roleKey], w1)
  | inr _ =>
      let '(unit_, w2) := world w1 (businessUnits_get businessUnitKey) in
      match unit_ with
      | inl error =>
          (Thrown error, [associateRoles_get roleKey; businessUnits_get businessUnitKey], w2)
      | inr businessUnit =>
          let '(r, c, w3) :=
            run world
              (collectCustomerReferences rest businessUnitKey
                 (customers ++ references_for businessUnit roleKey)) w2 in
          (r, associateRoles_get roleKey :: businessUnits_get businessUnitKey :: c, w3)
      end
  end.
Proof.
  intros Hprinted. cbn [collectCustomerReferences]. rewrite Hprinted. cbn [lift bind].
  rewrite run_bind, run_execute.
  destruct (world w (associateRoles_get roleKey)) as [[error | role] w1];
    simpl fst; simpl snd; [ reflexivity | ].
  cbv beta iota. rewrite run_bind, run_execute.
  destruct (world w1 (businessUnits_get businessUnitKey)) as [[error | businessUnit] w2];
    simpl fst; simpl snd; [ reflexivity | ].
  cbv beta iota. fold (references_for businessUnit roleKey).
  destruct (run world _ w2) as [[r c] w3]. reflexivity.
Qed.

(** The loop looks the keys up in list order, one fetch per element, and
    stops at the first failure or at the first key that does not print. *)
Lemma collect_lookups (associateRoleKeys : list JsValue) :
  forall (customers : list Reference) (w : W),
    forallb is_lookup
      (calls world (collectCustomerReferences associateRoleKeys businessUnitKey customers) w)
    = true
    /\ (exists n,
          role_lookups
            (calls world (collectCustomerReferences associateRoleKeys businessUnitKey customers) w)
          = firstn n associateRoleKeys)
    /\ customer_lookups
         (calls world (collectCustomerReferences associateRoleKeys businessUnitKey customers) w)
       = []
    /\ (forall found,
          completion world
            (collectCustomerReferences associateRoleKeys businessUnitKey customers) w
          = Returned found ->
          role_lookups
            (calls world (collectCustomerReferences associateRoleKeys businessUnitKey customers) w)
          = associateRoleKeys).
Proof.
  unfold calls, completion.
  induction associateRoleKeys as [ | roleKey rest IH]; intros customers w.
  - simpl. repeat split; auto. exists 0. reflexivity.
  - destruct (String_ roleKey) as [fault | printed] eqn:Hkey.
    { rewrite (run_collect_fault _ _ _ _ _ Hkey). simpl.
      repeat split; auto; [ exists 0; reflexivity | discriminate ]. }
    rewrite (run_collect_step _ _ _ _ _ Hkey).
    destruct (world w (associateRoles_get roleKey)) as [[error | role] w1].
    { simpl. repeat split; auto; [ exists 1; reflexivity | discriminate ]. }
    destruct (world w1 (businessUnits_get businessUnitKey)) as [[error | businessUnit] w2].
    { simpl. repeat split; auto; [ exists 1; reflexivity | discriminate ]. }
    specialize (IH (customers ++ references_for businessUnit roleKey)%list w2).
    destruct (run world _ w2) as [[r c] w3]. simpl in IH |- *.
    destruct IH as (Hkind & [n Hprefix] & Hnone & Hall).
    repeat split; auto.
    + exists (S n). simpl. rewrite Hprefix. reflexivity.
    + intros found Hfound. rewrite (Hall found Hfound). reflexivity.
Qed.

(** Against a platform that serves every role and keeps answering the same
    business unit, the loop over keys that print is determined: two lookups
    per element of the list, and the references of each element appended in
    turn. *)
Lemma collect_stable (businessUnit : BusinessUnit) :
  (forall w key, exists role, fst (world w (associateRoles_get key)) = inr role) ->
  (forall w, fst (world w (businessUnits_get businessUnitKey)) = inr businessUnit) ->
  forall (associateRoleKeys : list JsValue) (customers : list Reference) (w : W),
    forallb printable associateRoleKeys = true ->
    completion world (collectCustomerReferences associateRoleKeys businessUnitKey customers) w
    = Returned (customers ++ flat_map (references_for businessUnit) associateRoleKeys)%list
    /\ calls world (collectCustomerReferences associateRoleKeys businessUnitKey customers) w
       = flat_map (fun key => [associateRoles_get key; businessUnits_get businessUnitKey])
           associateRoleKeys.
Proof.
  intros Hroles Hunit. unfold calls, completion.
  induction associateRoleKeys as [ | roleKey rest IH]; intros customers w Hprint.
  - simpl. rewrite app_nil_r. split; reflexivity.
  - cbn [forallb] in Hprint. apply andb_prop in Hprint as [Hkey Hrest].
    destruct (printable_String_ _ Hkey) as [printed Hprinted].
    rewrite (run_collect_step _ _ _ _ _ Hprinted).
    destruct (Hroles w roleKey) as [role Hrole].
    destruct (world w (associateRoles_get roleKey)) as [answered w1].
    simpl in Hrole. subst answered.
    specialize (Hunit w1).
    destruct (world w1 (businessUnits_get businessUnitKey)) as [answered w2].
    simpl in Hunit. subst answered.
    specialize (IH (customers ++ references_for businessUnit roleKey)%list w2 Hrest).
    destruct (run world _ w2) as [[r c] w3]. simpl in IH |- *.
    destruct IH as [-> ->]. rewrite <- app_assoc. split; reflexivity.
Qed.

End Resolution.

Section Fetch.

Context {W : Type} (world : World W).
Variables (associateRoleKeys : list JsValue) (businessUnitKey : JsValue).

Local Abbreviation fetch :=
  (fetchCustomersByAssociateRoleKeysInBusinessUnit associateRoleKeys businessUnitKey).
Local Abbreviation collect :=
  (collectCustomerReferences associateRoleKeys businessUnitKey []).

(** A business unit key that does not print stops the function at its first
    log line, with the fault as it is. *)
Lemma fetchCustomers_fault (fault : JsError) :
  String_ businessUnitKey = inl fault -> fetch = Throw fault.
Proof.
  intros Hfault. unfold fetchCustomersByAssociateRoleKeysInBusinessUnit.
  rewrite Hfault. reflexivity.
Qed.

Lemma run_fetchCustomers (printed : string) (w : W) :
  String_ businessUnitKey = inr printed ->
  run world fetch w =
  let '(collected, c, w1) := run world collect w in
  match collected with
  | Thrown error => (Thrown (resolution_failure error), c, w1)
  | Returned [] => (Returned [], c, w1)
  | Returned (first :: others) =>
      let '(answered, w2) := world w1 (customers_query (id_in (first :: others))) in
      (match answered with
       | inl error => Thrown (resolution_failure error)
       | inr customers => Returned customers
       end, (c ++ [customers_query (id_in (first :: others))])%list, w2)
  end.
Proof.
  intros Hprinted. unfold fetchCustomersByAssociateRoleKeysInBusinessUnit.
  rewrite Hprinted. cbn [lift bind]. rewrite run_rethrow, run_bind.
  destruct (run world collect w) as [[[[ | first others] | error] c] w1];
    cbv beta iota.
  - simpl. rewrite app_nil_r. reflexivity.
  - cbn [List.length Nat.eqb]. unfold id_in. rewrite run_execute.
    destruct (world w1 (customers_query _)) as [[error | customers] w2]; reflexivity.
  - reflexivity.
Qed.

(** The calls of the customer resolution: lookups only, the role fetches a
    prefix of the keys as listed, all of them once the function returns. *)
Lemma fetch_lookups (w : W) :
  forallb is_lookup (calls world fetch w) = true
  /\ (exists n, role_lookups (calls world fetch w) = firstn n associateRoleKeys)
  /\ (forall customers,
        completion world fetch w = Returned customers ->
        role_lookups (calls world fetch w) = associateRoleKeys).
Proof.
  destruct (String_ businessUnitKey) as [fault | printed] eqn:Hunit.
  { rewrite (fetchCustomers_fault _ Hunit). unfold calls, completion. simpl.
    repeat split; [ exists 0; reflexivity | discriminate ]. }
  destruct (collect_lookups world businessUnitKey associateRoleKeys [] w)
    as (Hkind & Hprefix & Hnone & Hall).
  unfold calls, completion in *. rewrite (run_fetchCustomers printed w Hunit).
  destruct (run world collect w) as [[[[ | first others] | error] c] w1]; simpl in *.
  - repeat split; auto. intros customers _. apply (Hall [] eq_refl).
  - destruct (world w1 (customers_query _)) as [answered w2]. simpl.
    unfold role_lookups in *. rewrite flat_map_app, forallb_app, Hkind. simpl.
    rewrite app_nil_r. repeat split; auto.
    intros customers _. apply (Hall (first :: others) eq_refl).
  - repeat split; auto. discriminate.
Qed.

(** Whatever the customer resolution throws for a business unit key that
    prints is its own 400 error. *)
Lemma fetch_throws (w : W) (printed : string) (error : JsError) :
  String_ businessUnitKey = inr printed ->
  completion world fetch w = Thrown error ->
  exists cause, error = resolution_failure cause.
Proof.
  intros Hprinted. unfold completion. rewrite (run_fetchCustomers printed w Hprinted).
  destruct (run world collect w) as [[[[ | first others] | cause] c] w1]; simpl.
  - discriminate.
  - destruct (world w1 (customers_query _)) as [[cause | customers] w2]; simpl;
      [ intros H; injection H as <-; eexists; reflexivity | discriminate ].
  - intros H. injection H as <-. eexists; reflexivity.
Qed.

End Fetch.

(* ===================================================================== *)
(** ** Notifying the approvers *)
(* ===================================================================== *)

Section Notify.

Context {W : Type} (world : World W).
Variable config : Configuration.
Variables (customers : list Customer) (approvalFlowId : JsValue).

Local Abbreviation notify := (sendApprovalNotifications config customers approvalFlowId).
Local Abbreviation mails := (notifications config customers).

(** A flow id that does not print stops the function at its first log line,
    with the fault as it is. *)
Lemma notify_fault (fault : JsError) :
  String_ approvalFlowId = inl fault -> notify = Throw fault.
Proof. intros Hfault. unfold sendApprovalNotifications. rewrite Hfault. reflexivity. Qed.

Lemma run_sendApprovalNotifications (flow : string) (w : W) :
  String_ approvalFlowId = inr flow ->
  run world notify w =
  (match first_rejection (mail_promises world w (mails flow)) with
   | Some (_, cause) => Thrown (notification_failure (bulk_failure cause))
   | None => Returned tt
   end, map sgMail_send (mails flow), after_mails world w (mails flow)).
Proof.
  intros Hflow. unfold sendApprovalNotifications, notifications. rewrite Hflow.
  cbn [lift bind]. rewrite run_rethrow.
  fold has_email.
  destruct (filter has_email customers) as [ | first others]; [ reflexivity | ].
  cbn [map List.length Nat.eqb]. rewrite run_sendBulkEmails.
  cbn [map].
  match goal with
  | |- context [first_rejection ?ps] => destruct (first_rejection ps) as [[t cause] | ]
  end; reflexivity.
Qed.

Lemma mail_recipients_sends (msgs : list MailData) :
  mail_recipients (map sgMail_send msgs) = map to msgs.
Proof. induction msgs as [ | msg rest IH]; simpl; [ | rewrite IH ]; reflexivity. Qed.

Lemma sends_only (msgs : list MailData) :
  order_updates (map sgMail_send msgs) = []
  /\ role_lookups (map sgMail_send msgs) = []
  /\ customer_lookups (map sgMail_send msgs) = [].
Proof. induction msgs as [ | msg rest IH]; simpl; auto. Qed.

Lemma notifications_recipients (flow : string) :
  map to (mails flow) = map email (filter has_email customers).
Proof. unfold notifications. rewrite !map_map. reflexivity. Qed.

(** Whatever the notification step throws for a flow id that prints is its
    own 500 error. *)
Lemma notify_throws (w : W) (flow : string) (error : JsError) :
  String_ approvalFlowId = inr flow ->
  completion world notify w = Thrown error ->
  exists cause, error = notification_failure (bulk_failure cause).
Proof.
  intros Hflow. unfold completion. rewrite (run_sendApprovalNotifications flow w Hflow).
  simpl.
  destruct (first_rejection _) as [[t cause] | ];
    [ intros H; injection H as <-; eexists; reflexivity | discriminate ].
Qed.

End Notify.

(* ===================================================================== *)
(** ** Handling ApprovalFlowCreated *)
(* ===================================================================== *)

Lemma getProp_defined (v : JsValue) (name other : string) (x : JsValue) :
  getProp v name = inr x -> getProp v other = inr (member v other).
Proof. destruct v; simpl; intros H; try discriminate; reflexivity. Qed.

Lemma Array_map_role_keys (what : string) (approvers keys : list JsValue) :
  Forall2 (fun approver key => approver_role_key approver = inr key) approvers keys ->
  Array_map approver_role_key what (JArr approvers) = inr keys.
Proof.
  induction 1 as [ | approver key approvers keys Hkey _ IH]; simpl in *; [ reflexivity | ].
  rewrite Hkey, IH. reflexivity.
Qed.

Lemma run_rethrow_same {W A} (world : World W) (p : Prog A) (w : W) :
  run world (try_catch p (fun error => Throw error)) w = run world p w.
Proof.
  rewrite (run_rethrow world p (fun error => error)).
  destruct (run world p w) as [[[a | error] c1] w1]; reflexivity.
Qed.

Section Created.

Context {W : Type} (world : World W).
Variable config : Configuration.

Local Abbreviation handle := (handleApprovalFlowCreated config).

(** A flow id that does not print stops the handler at its first log line. *)
Lemma created_fault (approvalFlow approvalFlowId : JsValue) (fault : JsError) :
  getProp approvalFlow "id" = inr approvalFlowId ->
  String_ approvalFlowId = inl fault ->
  handle approvalFlow = Throw fault.
Proof.
  intros Hid Hfault. unfold handleApprovalFlowCreated. rewrite Hid. cbn [lift bind].
  rewrite Hfault. reflexivity.
Qed.

(** An empty or missing list of pending approvers: the handler returns at
    once. *)
Lemma handle_nothing_pending (approvalFlow approvalFlowId : JsValue) (printed : string) :
  getProp approvalFlow "id" = inr approvalFlowId ->
  String_ approvalFlowId = inr printed ->
  member approvalFlow "currentTierPendingApprovers" = JArr []
  \/ truthy (member approvalFlow "currentTierPendingApprovers") = false ->
  handle approvalFlow = Ret tt.
Proof.
  intros Hid Hprinted Hpending. unfold handleApprovalFlowCreated.
  rewrite Hid. cbn [lift bind]. rewrite Hprinted. cbn [lift bind].
  rewrite (getProp_defined _ _ "currentTierPendingApprovers" _ Hid). simpl.
  unfold or_else. destruct Hpending as [-> | ->]; reflexivity.
Qed.

(** The handler past its local reads: the three steps in sequence, each one
    started only when the one before returned, and the order id printed
    before the third. *)
Lemma run_handle_steps
    (approvalFlow approvalFlowId : JsValue) (printed : string)
    (associateRoleKeys : list JsValue) (businessUnitKey : JsValue) (w : W) :
  getProp approvalFlow "id" = inr approvalFlowId ->
  String_ approvalFlowId = inr printed ->
  strict_eq_zero
    (member (or_else (member approvalFlow "currentTierPendingApprovers") (JArr [])) "length")
  = false ->
  Array_map approver_role_key "currentTierPendingApprovers"
    (or_else (member approvalFlow "currentTierPendingApprovers") (JArr []))
  = inr associateRoleKeys ->
  getProp (member approvalFlow "businessUnit") "key" = inr businessUnitKey ->
  run world (handle approvalFlow) w =
  let '(fetched, c1, w1) :=
    run world
      (fetchCustomersByAssociateRoleKeysInBusinessUnit associateRoleKeys businessUnitKey) w in
  match fetched with
  | Thrown error => (Thrown error, c1, w1)
  | Returned customers =>
      let '(notified, c2, w2) :=
        run world (sendApprovalNotifications config customers approvalFlowId) w1 in
      match notified with
      | Thrown error => (Thrown error, (c1 ++ c2)%list, w2)
      | Returned _ =>
          if truthy (optProp (member approvalFlow "order") "id") then
            match String_ (optProp (member approvalFlow "order") "id") with
            | inl fault => (Thrown fault, (c1 ++ c2)%list, w2)
            | inr _ =>
                let '(moved, c3, w3) :=
                  run world
                    (transitionOrderState (optProp (member approvalFlow "order") "id")
                       (orderNeedApprovalStateKey config)) w2 in
                (match moved with
                 | Thrown error => Thrown error
                 | Returned _ => Returned tt
                 end, (c1 ++ c2 ++ c3)%list, w3)
            end
          else (Returned tt, (c1 ++ c2)%list, w2)
      end
  end.
Proof.
  intros Hid Hprinted Hlength Hkeys Hunit. unfold handleApprovalFlowCreated.
  rewrite Hid. cbn [lift bind]. rewrite Hprinted. cbn [lift bind].
  rewrite (getProp_defined _ _ "currentTierPendingApprovers" _ Hid),
    (getProp_defined _ _ "businessUnit" _ Hid).
  cbn [lift bind]. rewrite Hlength, Hkeys, Hunit.
  cbn [lift bind]. rewrite run_rethrow_same, run_bind.
  destruct (run world (fetchCustomersByAssociateRoleKeysInBusinessUnit _ _) w)
    as [[[customers | error] c1] w1]; [ | reflexivity ].
  cbv beta iota. rewrite run_bind.
  destruct (run world (sendApprovalNotifications config customers approvalFlowId) w1)
    as [[[[] | error] c2] w2]; [ | reflexivity ].
  cbv beta iota. destruct (truthy (optProp (member approvalFlow "order") "id")).
  - destruct (String_ (optProp (member approvalFlow "order") "id")) as [fault | text_].
    + simpl. rewrite app_nil_r. reflexivity.
    + cbn [lift bind]. rewrite run_bind.
      destruct (run world (transitionOrderState _ _) w2) as [[[moved | error] c3] w3];
        simpl; [ rewrite app_nil_r | ]; reflexivity.
  - simpl. rewrite app_nil_r. reflexivity.
Qed.

(** The same for a flow with approvers pending. *)
Lemma run_handle_pending
    (approvalFlow approvalFlowId : JsValue) (printed : string)
    (approvers associateRoleKeys : list JsValue)
    (businessUnitKey orderId : JsValue) (w : W) :
  pending_flow approvalFlow approvalFlowId approvers associateRoleKeys businessUnitKey orderId ->
  String_ approvalFlowId = inr printed ->
  run world (handle approvalFlow) w =
  let '(fetched, c1, w1) :=
    run world
      (fetchCustomersByAssociateRoleKeysInBusinessUnit associateRoleKeys businessUnitKey) w in
  match fetched with
  | Thrown error => (Thrown error, c1, w1)
  | Returned customers =>
      let '(notified, c2, w2) :=
        run world (sendApprovalNotifications config customers approvalFlowId) w1 in
      match notified with
      | Thrown error => (Thrown error, (c1 ++ c2)%list, w2)
      | Returned _ =>
          if truthy orderId then
            match String_ orderId with
            | inl fault => (Thrown fault, (c1 ++ c2)%list, w2)
            | inr _ =>
                let '(moved, c3, w3) :=
                  run world
                    (transitionOrderState orderId (orderNeedApprovalStateKey config)) w2 in
                (match moved with
                 | Thrown error => Thrown error
                 | Returned _ => Returned tt
                 end, (c1 ++ c2 ++ c3)%list, w3)
            end
          else (Returned tt, (c1 ++ c2)%list, w2)
      end
  end.
Proof.
  intros [Hid Hpending Hsome Hkeys Hunit Horder] Hprinted.
  rewrite <- Horder.
  apply (run_handle_steps _ _ printed _ _ w Hid Hprinted); [ | | exact Hunit ].
  - rewrite Hpending. simpl. destruct approvers; [ contradiction | reflexivity ].
  - rewrite Hpending. exact (Array_map_role_keys _ _ _ Hkeys).
Qed.

End Created.

Section Steps.

Context {W : Type} (world : World W).

(** What the calls of one [transitionOrderState] can be. *)
Lemma transition_calls (orderId : JsValue) (stateKey : string) (w : W) :
  mail_recipients (calls world (transitionOrderState orderId stateKey) w) = []
  /\ role_lookups (calls world (transitionOrderState orderId stateKey) w) = []
  /\ customer_lookups (calls world (transitionOrderState orderId stateKey) w) = []
  /\ List.length (order_updates (calls world (transitionOrderState orderId stateKey) w)) <= 1
  /\ (forall body,
        completion world (transitionOrderState orderId stateKey) w = Returned body ->
        exists order targetState,
          calls world (transitionOrderState orderId stateKey) w
          = [ orders_get orderId;
              states_query ("key=" ++ dq ++ stateKey ++ dq);
              orders_post orderId
                {| update_version := order_version order;
                   actions := [transitionState
                                 {| typeId := "state"; id := state_id targetState |}] |} ]).
Proof.
  unfold calls, completion.
  destruct (String_ orderId) as [fault | printed] eqn:Hprinted.
  { rewrite (transitionOrderState_fault _ _ _ Hprinted). simpl.
    repeat split; auto; discriminate. }
  rewrite (run_transitionOrderState world _ _ printed w Hprinted).
  destruct (world w (orders_get orderId)) as [[error | order] w1];
    [ simpl; repeat split; auto; discriminate | ].
  destruct (world w1 (states_query _)) as [[error | [ | targetState others]] w2];
    try (simpl; repeat split; auto; discriminate).
  destruct (world w2 (orders_post _ _)) as [[error | body] w3];
    simpl; repeat split; auto; try discriminate.
  intros _ _. exists order, targetState. reflexivity.
Qed.

(** Against a platform that serves every role and keeps answering the same
    business unit, the calls of the customer resolution for keys that print
    are determined by the list of keys. *)
Lemma fetch_stable (associateRoleKeys : list JsValue) (businessUnitKey : JsValue)
    (businessUnit : BusinessUnit) (w : W) :
  printable businessUnitKey = true ->
  forallb printable associateRoleKeys = true ->
  (forall w' key, exists role, fst (world w' (associateRoles_get key)) = inr role) ->
  (forall w', fst (world w' (businessUnits_get businessUnitKey)) = inr businessUnit) ->
  calls world
    (fetchCustomersByAssociateRoleKeysInBusinessUnit associateRoleKeys businessUnitKey) w
  = (flat_map (fun key => [associateRoles_get key; businessUnits_get businessUnitKey])
       associateRoleKeys
     ++ match flat_map (references_for businessUnit) associateRoleKeys with
        | [] => []
        | first :: others => [customers_query (id_in (first :: others))]
        end)%list.
Proof.
  intros Hkey Hkeys Hroles Hunit.
  destruct (printable_String_ _ Hkey) as [printed Hprinted].
  destruct (collect_stable world businessUnitKey businessUnit Hroles Hunit
              associateRoleKeys [] w Hkeys) as [Hdone Hcalls].
  unfold calls, completion in *.
  rewrite (run_fetchCustomers world _ _ printed w Hprinted).
  destruct (run world (collectCustomerReferences associateRoleKeys businessUnitKey []) w)
    as [[collected c] w1]. simpl in Hdone, Hcalls. subst collected c.
  destruct (flat_map (references_for businessUnit) associateRoleKeys) as [ | first others].
  - simpl. rewrite app_nil_r. reflexivity.
  - simpl app at 1. cbv beta iota.
    destruct (world w1 (customers_query _)) as [answered w2]. reflexivity.
Qed.

End Steps.

Lemma lookups_app (trace more : list Call) :
  mail_recipients (trace ++ more) = (mail_recipients trace ++ mail_recipients more)%list
  /\ order_updates (trace ++ more) = (order_updates trace ++ order_updates more)%list
  /\ role_lookups (trace ++ more) = (role_lookups trace ++ role_lookups more)%list
  /\ customer_lookups (trace ++ more)
     = (customer_lookups trace ++ customer_lookups more)%list.
Proof.
  unfold mail_recipients, order_updates, role_lookups, customer_lookups.
  rewrite !flat_map_app. repeat split.
Qed.

(** C2, the claim as stated fails: with an approver pending and an order id,
    a mail provider that rejects the send makes the handler throw after four
    calls (role, business unit, customer query, one send) and before any call
    for the order. *)
Lemma created_send_fails_no_transition :
  List.length (calls Sample.mail_down
                 (handleApprovalFlowCreated Sample.config
                    (Sample.flow [Sample.pending "approver"])) 0) = 4
  /\ mail_recipients (calls Sample.mail_down
                        (handleApprovalFlowCreated Sample.config
                           (Sample.flow [Sample.pending "approver"])) 0)
     = ["alice@example.com"]
  /\ order_updates (calls Sample.mail_down
                      (handleApprovalFlowCreated Sample.config
                         (Sample.flow [Sample.pending "approver"])) 0) = []
  /\ completion Sample.mail_down
       (handleApprovalFlowCreated Sample.config
          (Sample.flow [Sample.pending "approver"])) 0
     = Thrown (notification_failure
                 (bulk_failure (LibraryError "ResponseError" "Unauthorized"))).
Proof. repeat split; vm_compute; reflexivity. Qed.

(** C2, amended.  For an approval flow whose id prints as a string: with no
    approver pending, [handleApprovalFlowCreated] returns without a single
    call.  With at least one approver pending and an order id that prints as
    a string, once the customer resolution has returned the fetched
    customers, the handler sends one mail per fetched customer with a
    non-empty email, in order, and no other mail; once the notification step
    has returned as well, the calls that follow are those of one
    [transitionOrderState] for the order id and the configured needs-approval
    key, with at most one order update among all the handler's calls and
    exactly one when the handler returns. *)
Theorem handleApprovalFlowCreated_notifies_then_transitions
    {W : Type} (world : World W) (config : Configuration)
    (approvalFlow approvalFlowId : JsValue) (printed : string) (w : W) :
  getProp approvalFlow "id" = inr approvalFlowId ->
  String_ approvalFlowId = inr printed ->
  (member approvalFlow "currentTierPendingApprovers" = JArr []
   \/ truthy (member approvalFlow "currentTierPendingApprovers") = false ->
   run world (handleApprovalFlowCreated config approvalFlow) w = (Returned tt, [], w))
  /\ (forall approvers associateRoleKeys businessUnitKey orderId orderText customers c1 w1,
        pending_flow approvalFlow approvalFlowId approvers associateRoleKeys
          businessUnitKey orderId ->
        truthy orderId = true ->
        String_ orderId = inr orderText ->
        run world
          (fetchCustomersByAssociateRoleKeysInBusinessUnit associateRoleKeys businessUnitKey) w
        = (Returned customers, c1, w1) ->
        mail_recipients (calls world (handleApprovalFlowCreated config approvalFlow) w)
        = map email (filter has_email customers)
        /\ (forall c2 w2,
              run world (sendApprovalNotifications config customers approvalFlowId) w1
              = (Returned tt, c2, w2) ->
              calls world (handleApprovalFlowCreated config approvalFlow) w
              = (c1 ++ c2
                 ++ calls world
                      (transitionOrderState orderId (orderNeedApprovalStateKey config)) w2)%list
              /\ order_updates (c1 ++ c2) = []
              /\ List.length
                   (order_updates
                      (calls world (handleApprovalFlowCreated config approvalFlow) w))
                 <= 1
              /\ (completion world (handleApprovalFlowCreated config approvalFlow) w
                  = Returned tt ->
                  exists order targetState,
                    calls world
                      (transitionOrderState orderId (orderNeedApprovalStateKey config)) w2
                    = [ orders_get orderId;
                        states_query
                          ("key=" ++ dq ++ orderNeedApprovalStateKey config ++ dq);
                        orders_post orderId
                          {| update_version := order_version order;
                             actions := [transitionState
                                           {| typeId := "state";
                                              id := state_id targetState |}] |} ]
                    /\ order_updates
                         (calls world (handleApprovalFlowCreated config approvalFlow) w)
                       = [ (orderId,
                            {| update_version := order_version order;
                               actions := [transitionState
                                             {| typeId := "state";
                                                id := state_id targetState |}] |}) ]))).
Proof.
  intros Hid Hprinted. split.
  - intros Hnone. rewrite (handle_nothing_pending config _ _ _ Hid Hprinted Hnone).
    reflexivity.
  - intros approvers associateRoleKeys businessUnitKey orderId orderText customers c1 w1
      Hflow Horder Htext Hfetch.
    pose proof (run_handle_pending world config _ _ _ _ _ _ _ w Hflow Hprinted) as Hrun.
    rewrite Hfetch, Horder, Htext in Hrun.
    destruct (fetch_lookups world associateRoleKeys businessUnitKey w) as (Hkind & _ & _).
    unfold calls in Hkind. rewrite Hfetch in Hkind. simpl in Hkind.
    destruct (lookups_send_nothing c1 Hkind) as [Hmail1 Hpost1].
    pose proof (run_sendApprovalNotifications world config customers approvalFlowId
                  printed w1 Hprinted) as Hsent.
    destruct (sends_only (notifications config customers printed))
      as (Hpost2 & _ & _).
    pose proof (mail_recipients_sends (notifications config customers printed))
      as Hmail2.
    rewrite notifications_recipients in Hmail2.
    assert (forall notified c2 w2,
              run world (sendApprovalNotifications config customers approvalFlowId) w1
              = (notified, c2, w2) ->
              order_updates c2 = []
              /\ mail_recipients c2 = map email (filter has_email customers)) as Hsends.
    { intros notified c2 w2 Hnotify. rewrite Hnotify in Hsent.
      injection Hsent as _ -> _. split; assumption. }
    clear Hsent Hpost2 Hmail2.
    assert (forall c2 w2,
              exists moved c3 w3,
                run world (transitionOrderState orderId (orderNeedApprovalStateKey config)) w2
                = (moved, c3, w3)
                /\ mail_recipients c3 = []
                /\ List.length (order_updates c3) <= 1
                /\ (order_updates c2 = [] ->
                    order_updates (c1 ++ c2 ++ c3) = order_updates c3)
                /\ (forall body, moved = Returned body ->
                    exists order targetState,
                      c3 = [ orders_get orderId;
                             states_query
                               ("key=" ++ dq ++ orderNeedApprovalStateKey config ++ dq);
                             orders_post orderId
                               {| update_version := order_version order;
                                  actions := [transitionState
                                                {| typeId := "state";
                                                   id := state_id targetState |}] |} ]))
      as Hmove.
    { intros c2 w2.
      destruct (transition_calls world orderId (orderNeedApprovalStateKey config) w2)
        as (Hmail3 & _ & _ & Hatmost & Hdone).
      unfold calls, completion in *.
      destruct (run world (transitionOrderState orderId _) w2) as [[moved c3] w3].
      exists moved, c3, w3. repeat split; auto.
      intros Hpost2.
      destruct (lookups_app c1 (c2 ++ c3)) as (_ & -> & _ & _).
      destruct (lookups_app c2 c3) as (_ & -> & _ & _).
      rewrite Hpost1, Hpost2. reflexivity. }
    unfold calls, completion. split.
    + rewrite Hrun.
      destruct (run world (sendApprovalNotifications config customers approvalFlowId) w1)
        as [[notified c2] w2] eqn:Hnotify.
      destruct (Hsends _ _ _ eq_refl) as [_ Hmail2].
      destruct (Hmove c2 w2) as (moved & c3 & w3 & -> & Hmail3 & _).
      destruct (lookups_app c1 (c2 ++ c3)) as (Hm & _).
      destruct (lookups_app c2 c3) as (Hm' & _).
      destruct (lookups_app c1 c2) as (Hm'' & _).
      destruct notified as [[] | error]; simpl snd; simpl fst.
      * rewrite Hm, Hm', Hmail1, Hmail2, Hmail3, app_nil_r. reflexivity.
      * rewrite Hm'', Hmail1, Hmail2. reflexivity.
    + intros c2 w2 Hnotify. rewrite Hnotify in Hrun.
      destruct (Hsends _ _ _ Hnotify) as [Hpost2 _].
      destruct (Hmove c2 w2) as (moved & c3 & w3 & Hmoved & _ & Hatmost & Hupdates & Hdone).
      rewrite Hmoved in Hrun |- *. rewrite Hrun. simpl fst. simpl snd.
      specialize (Hupdates Hpost2).
      destruct (lookups_app c1 c2) as (_ & Ho'' & _ & _).
      split; [ reflexivity | ]. split; [ rewrite Ho'', Hpost1, Hpost2; reflexivity | ].
      split; [ rewrite Hupdates; exact Hatmost | ].
      intros Hreturned. destruct moved as [body | error]; [ | discriminate ].
      destruct (Hdone body eq_refl) as (order & targetState & Hcalls).
      exists order, targetState. split; [ exact Hcalls | ].
      rewrite Hupdates, Hcalls. reflexivity.
Qed.

Lemma handleApprovalFlowCreated_notifies_then_transitions_witness :
  run Sample.world (handleApprovalFlowCreated Sample.config (Sample.flow [])) 0
  = (Returned tt, [], 0)
  /\ mail_recipients
       (calls Sample.world
          (handleApprovalFlowCreated Sample.config
             (Sample.flow [Sample.pending "approver"])) 0)
     = ["alice@example.com"]
  /\ calls Sample.world
       (handleApprovalFlowCreated Sample.config
          (Sample.flow [Sample.pending "approver"])) 0
     = [ associateRoles_get (JStr "approver");
         businessUnits_get (JStr "bu1");
         customers_query (id_in [ {| ref_id := "c1" |}; {| ref_id := "c2" |} ]);
         sgMail_send
           {| to := "alice@example.com";
              from := "noreply@example.com";
              subject := getApprovalNotificationSubject "af1";
              text := getApprovalNotificationTemplate "Alice" "af1";
              html := replace_newlines (getApprovalNotificationTemplate "Alice" "af1") |};
         orders_get (JStr "ord1");
         states_query ("key=" ++ dq ++ "needs-approval" ++ dq);
         orders_post (JStr "ord1")
           {| update_version := 4;
              actions := [transitionState {| typeId := "state"; id := "state-1" |}] |} ]
  /\ order_updates
       (calls Sample.world
          (handleApprovalFlowCreated Sample.config
             (Sample.flow [Sample.pending "approver"])) 0)
     = [ (JStr "ord1",
          {| update_version := 4;
             actions := [transitionState {| typeId := "state"; id := "state-1" |}] |}) ].
Proof.
  split.
  { exact (proj1 (handleApprovalFlowCreated_notifies_then_transitions
                    Sample.world Sample.config (Sample.flow []) (JStr "af1") "af1" 0
                    eq_refl eq_refl)
             (or_introl eq_refl)). }
  assert (pending_flow (Sample.flow [Sample.pending "approver"]) (JStr "af1")
            [Sample.pending "approver"] [JStr "approver"] (JStr "bu1") (JStr "ord1"))
    as Hflow.
  { constructor; try reflexivity; [ discriminate | ].
    constructor; [ reflexivity | constructor ]. }
  destruct (proj2 (handleApprovalFlowCreated_notifies_then_transitions
                     Sample.world Sample.config
                     (Sample.flow [Sample.pending "approver"]) (JStr "af1") "af1" 0
                     eq_refl eq_refl)
              [Sample.pending "approver"] [JStr "approver"] (JStr "bu1") (JStr "ord1")
              "ord1" [Sample.alice; Sample.bob] _ 3 Hflow eq_refl eq_refl eq_refl)
    as [Hmails Hsteps].
  split; [ exact Hmails | ].
  destruct (Hsteps _ 4 eq_refl) as (Hcalls & _ & _ & Hdone).
  split; [ exact Hcalls | ].
  destruct (Hdone eq_refl) as (order & targetState & Hmoved & Hupdates).
  rewrite Hupdates. injection Hmoved as <- <-. reflexivity.
Defined.

(** C7, the claim as stated fails: two pending approvers with the same role
    key make the handler fetch that role twice and list every matching
    customer id twice in the batch query. *)
Lemma created_duplicate_role_resolved_twice :
  role_lookups
    (calls Sample.world
       (handleApprovalFlowCreated Sample.config
          (Sample.flow [Sample.pending "approver"; Sample.pending "approver"])) 0)
  = [JStr "approver"; JStr "approver"]
  /\ customer_lookups
       (calls Sample.world
          (handleApprovalFlowCreated Sample.config
             (Sample.flow [Sample.pending "approver"; Sample.pending "approver"])) 0)
     = [ id_in [ {| ref_id := "c1" |}; {| ref_id := "c2" |};
                 {| ref_id := "c1" |}; {| ref_id := "c2" |} ] ].
Proof. split; vm_compute; reflexivity. Qed.

(** The lookups of the handler are those of its customer resolution. *)
Lemma created_lookups
    {W : Type} (world : World W) (config : Configuration)
    (approvalFlow approvalFlowId : JsValue) (printed : string)
    (approvers associateRoleKeys : list JsValue)
    (businessUnitKey orderId : JsValue) (w : W) :
  pending_flow approvalFlow approvalFlowId approvers associateRoleKeys
    businessUnitKey orderId ->
  String_ approvalFlowId = inr printed ->
  role_lookups (calls world (handleApprovalFlowCreated config approvalFlow) w)
  = role_lookups
      (calls world
         (fetchCustomersByAssociateRoleKeysInBusinessUnit associateRoleKeys businessUnitKey) w)
  /\ customer_lookups (calls world (handleApprovalFlowCreated config approvalFlow) w)
     = customer_lookups
         (calls world
            (fetchCustomersByAssociateRoleKeysInBusinessUnit associateRoleKeys
               businessUnitKey) w)
  /\ (completion world (handleApprovalFlowCreated config approvalFlow) w = Returned tt ->
      exists customers,
        completion world
          (fetchCustomersByAssociateRoleKeysInBusinessUnit associateRoleKeys businessUnitKey) w
        = Returned customers).
Proof.
  intros Hflow Hprinted.
  pose proof (run_handle_pending world config _ _ _ _ _ _ _ w Hflow Hprinted) as Hrun.
  unfold calls, completion.
  destruct (run world
              (fetchCustomersByAssociateRoleKeysInBusinessUnit associateRoleKeys
                 businessUnitKey) w) as [[fetched c1] w1].
  rewrite Hrun. simpl fst. simpl snd.
  destruct fetched as [customers | error].
  2: { simpl. repeat split; auto. discriminate. }
  pose proof (run_sendApprovalNotifications world config customers approvalFlowId
                printed w1 Hprinted) as Hsent.
  destruct (run world (sendApprovalNotifications config customers approvalFlowId) w1)
    as [[notified c2] w2].
  assert (c2 = map sgMail_send (notifications config customers printed)) as Hc2
    by congruence.
  destruct (sends_only (notifications config customers printed))
    as (_ & Hroles2 & Hcustomers2).
  rewrite <- Hc2 in Hroles2, Hcustomers2.
  destruct (lookups_app c1 c2) as (_ & _ & Hr & Hc).
  destruct notified as [[] | error].
  2: { simpl. rewrite Hr, Hc, Hroles2, Hcustomers2, !app_nil_r.
       repeat split; auto. discriminate. }
  destruct (truthy orderId).
  2: { simpl. rewrite Hr, Hc, Hroles2, Hcustomers2, !app_nil_r.
       repeat split; auto. intros _. exists customers. reflexivity. }
  destruct (String_ orderId) as [fault | text_].
  { simpl. rewrite Hr, Hc, Hroles2, Hcustomers2, !app_nil_r.
    repeat split; auto. discriminate. }
  destruct (transition_calls world orderId (orderNeedApprovalStateKey config) w2)
    as (_ & Hroles3 & Hcustomers3 & _).
  unfold calls in Hroles3, Hcustomers3.
  destruct (run world (transitionOrderState orderId _) w2) as [[moved c3] w3].
  simpl in Hroles3, Hcustomers3 |- *.
  destruct (lookups_app c1 (c2 ++ c3)) as (_ & _ & Hr' & Hc').
  destruct (lookups_app c2 c3) as (_ & _ & Hr'' & Hc'').
  rewrite Hr', Hc', Hr'', Hc'', Hroles2, Hcustomers2, Hroles3, Hcustomers3, !app_nil_r.
  repeat split; auto. intros _. exists customers. reflexivity.
Qed.

(** C7, amended.  [handleApprovalFlowCreated] takes one role key per pending
    approver, in list order and without removing duplicates, and resolves the
    keys one after the other: the role fetches it issues are a prefix of that
    list, the whole list when the handler returns.  When the flow's id, the
    key of its business unit and the role keys print as strings, against a
    platform that serves every role and keeps answering the same business
    unit, every element of the list is fetched, a repeated key as often as
    it occurs, and the batch query lists the references of each element in
    turn, repeated ones included. *)
Theorem created_resolves_each_pending_approver
    {W : Type} (world : World W) (config : Configuration)
    (approvalFlow approvalFlowId : JsValue) (approvers associateRoleKeys : list JsValue)
    (businessUnitKey orderId : JsValue) (w : W) :
  pending_flow approvalFlow approvalFlowId approvers associateRoleKeys
    businessUnitKey orderId ->
  List.length associateRoleKeys = List.length approvers
  /\ (exists n,
        role_lookups (calls world (handleApprovalFlowCreated config approvalFlow) w)
        = firstn n associateRoleKeys)
  /\ (completion world (handleApprovalFlowCreated config approvalFlow) w = Returned tt ->
      role_lookups (calls world (handleApprovalFlowCreated config approvalFlow) w)
      = associateRoleKeys)
  /\ (forall businessUnit,
        printable approvalFlowId = true ->
        printable businessUnitKey = true ->
        forallb printable associateRoleKeys = true ->
        (forall w' key, exists role, fst (world w' (associateRoles_get key)) = inr role) ->
        (forall w', fst (world w' (businessUnits_get businessUnitKey)) = inr businessUnit) ->
        role_lookups (calls world (handleApprovalFlowCreated config approvalFlow) w)
        = associateRoleKeys
        /\ customer_lookups (calls world (handleApprovalFlowCreated config approvalFlow) w)
           = match flat_map (references_for businessUnit) associateRoleKeys with
             | [] => []
             | first :: others => [id_in (first :: others)]
             end).
Proof.
  intros Hflow.
  assert (List.length associateRoleKeys = List.length approvers) as Hlength.
  { destruct Hflow as [_ _ _ Hkeys _ _]. symmetry. exact (Forall2_length Hkeys). }
  split; [ exact Hlength | ].
  destruct (String_ approvalFlowId) as [fault | printed] eqn:Hprinted.
  { assert (handleApprovalFlowCreated config approvalFlow = Throw fault) as ->.
    { destruct Hflow as [Hid _ _ _ _ _]. exact (created_fault config _ _ _ Hid Hprinted). }
    unfold calls, completion. simpl. split; [ exists 0; reflexivity | ].
    split; [ discriminate | ].
    intros businessUnit Hid. unfold printable in Hid. rewrite Hprinted in Hid.
    discriminate. }
  destruct (created_lookups world config _ _ _ _ _ _ _ w Hflow Hprinted)
    as (Hroles & Hcustomers & Hreturned).
  destruct (fetch_lookups world associateRoleKeys businessUnitKey w)
    as (_ & Hprefix & Hall).
  rewrite Hroles, Hcustomers.
  split; [ exact Hprefix | ]. split.
  { intros Hdone. destruct (Hreturned Hdone) as [customers Hfetched].
    exact (Hall customers Hfetched). }
  intros businessUnit _ Hunit Hkeys Hserved Hsame.
  rewrite (fetch_stable world associateRoleKeys businessUnitKey businessUnit w
             Hunit Hkeys Hserved Hsame).
  destruct (lookups_app
              (flat_map (fun key => [associateRoles_get key; businessUnits_get businessUnitKey])
                 associateRoleKeys)
              (match flat_map (references_for businessUnit) associateRoleKeys with
               | [] => []
               | first :: others => [customers_query (id_in (first :: others))]
               end)) as (_ & _ & -> & ->).
  assert (forall keys,
            role_lookups
              (flat_map (fun key => [associateRoles_get key; businessUnits_get businessUnitKey])
                 keys) = keys
            /\ customer_lookups
                 (flat_map
                    (fun key => [associateRoles_get key; businessUnits_get businessUnitKey])
                    keys) = []) as Hpairs.
  { induction keys as [ | key keys [IHr IHc]]; simpl; [ | rewrite IHr, IHc ];
      split; reflexivity. }
  destruct (Hpairs associateRoleKeys) as [-> ->].
  destruct (flat_map (references_for businessUnit) associateRoleKeys);
    simpl; rewrite app_nil_r; split; reflexivity.
Qed.

Lemma created_resolves_each_pending_approver_witness :
  role_lookups
    (calls Sample.world
       (handleApprovalFlowCreated Sample.config
          (Sample.flow [Sample.pending "approver"; Sample.pending "buyer";
                        Sample.pending "approver"])) 0)
  = [JStr "approver"; JStr "buyer"; JStr "approver"]
  /\ customer_lookups
       (calls Sample.world
          (handleApprovalFlowCreated Sample.config
             (Sample.flow [Sample.pending "approver"; Sample.pending "buyer";
                           Sample.pending "approver"])) 0)
     = [ id_in [ {| ref_id := "c1" |}; {| ref_id := "c2" |}; {| ref_id := "c3" |};
                 {| ref_id := "c1" |}; {| ref_id := "c2" |} ] ].
Proof.
  refine (proj2 (proj2 (proj2
            (created_resolves_each_pending_approver
               Sample.world Sample.config
               (Sample.flow [Sample.pending "approver"; Sample.pending "buyer";
                             Sample.pending "approver"])
               (JStr "af1")
               [Sample.pending "approver"; Sample.pending "buyer"; Sample.pending "approver"]
               [JStr "approver"; JStr "buyer"; JStr "approver"]
               (JStr "bu1") (JStr "ord1") 0 _)))
            Sample.unit1 eq_refl eq_refl eq_refl _ _).
  - constructor; try reflexivity; [ discriminate | ].
    repeat (constructor; [ reflexivity | ]). constructor.
  - intros w' key. eexists. reflexivity.
  - intros w'. reflexivity.
Defined.

(* ===================================================================== *)
(** ** Further properties: the decoder and the endpoint *)
(* ===================================================================== *)

Lemma getProp_nullish (v : JsValue) (name : string) :
  nullish v = false -> getProp v name = inr (member v name).
Proof. destruct v; simpl; intros H; try discriminate; reflexivity. Qed.

Lemma getProp_error (v : JsValue) (name : string) (error : JsError) :
  getProp v name = inl error -> exists reason, error = TypeError reason.
Proof.
  destruct v; simpl; intros H; try discriminate; injection H as <-;
    eexists; reflexivity.
Qed.

Lemma bind_returns {A B} (p : Prog A) (f : A -> Prog B) (b : B) :
  bind p f = Ret b -> exists a, p = Ret a /\ f a = Ret b.
Proof.
  destruct p as [a | error | c k]; simpl; intros H; try discriminate.
  exists a. split; [ reflexivity | exact H ].
Qed.

Section Endpoint.

Variable config : Configuration.
Variable Buffer_from_base64_toString : JsValue -> JsError + string.
Variable JSON_parse : string -> JsError + JsValue.

Local Abbreviation decode := (decodePubSubMessage Buffer_from_base64_toString JSON_parse).
Local Abbreviation route := (routeApprovalFlowMessage config).
Local Abbreviation endpoint := (post config Buffer_from_base64_toString JSON_parse).

(** X1. When the data decodes to a text that is not empty once trimmed and
    [JSON.parse] accepts the trimmed text with a value other than [null],
    [decodePubSubMessage] returns that value as it is: the text is trimmed
    before it is parsed and the result is not checked against any schema. *)
Theorem decode_returns_parsed_value
    (pubSubMessage data : JsValue) (decoded : string) (jsonData : JsValue) :
  getProp pubSubMessage "data" = inr data ->
  truthy data = true ->
  Buffer_from_base64_toString data = inr decoded ->
  trim decoded <> "" ->
  JSON_parse (trim decoded) = inr jsonData ->
  nullish jsonData = false ->
  decode pubSubMessage = Ret jsonData.
Proof.
  intros Hdata Htruthy Hdecoded Hsome Hparse Hvalue.
  rewrite (decode_decoded _ _ _ _ _ Hdata Htruthy Hdecoded).
  destruct (truthy_string (trim decoded)) eqn:Htext.
  - simpl. rewrite Hparse. simpl.
    rewrite (getProp_nullish _ "notificationType" Hvalue). reflexivity.
  - apply truthy_string_empty in Htext. contradiction.
Qed.

(** X2. A payload that [JSON.parse] accepts as [null] is refused like a
    payload that is not JSON: the log line that follows the parse inside the
    [try] block reads a property of the parsed value, faults on [null], and
    the [catch] block turns the fault into the 400 error 'Invalid JSON in
    message data'. *)
Theorem decode_refuses_null_payload
    (pubSubMessage data : JsValue) (decoded : string) (jsonData : JsValue) :
  getProp pubSubMessage "data" = inr data ->
  truthy data = true ->
  Buffer_from_base64_toString data = inr decoded ->
  trim decoded <> "" ->
  JSON_parse (trim decoded) = inr jsonData ->
  nullish jsonData = true ->
  decode pubSubMessage
  = Throw (CustomError 400 "Bad request: Invalid JSON in message data").
Proof.
  intros Hdata Htruthy Hdecoded Hsome Hparse Hnull.
  rewrite (decode_decoded _ _ _ _ _ Hdata Htruthy Hdecoded).
  destruct (truthy_string (trim decoded)) eqn:Htext.
  - simpl. rewrite Hparse. destruct jsonData; try discriminate; reflexivity.
  - apply truthy_string_empty in Htext. contradiction.
Qed.

(** X3. A fault of [Buffer.from] on the message data (data that is present
    but not a string) is not turned into a 400 error: the decoding stands
    outside every [try] block of the decoder, so [post] throws the fault
    itself, without reaching the router. *)
Theorem post_rethrows_buffer_fault (request : Request) (fault : JsError) :
  truthy (body request) = true ->
  truthy (member (body request) "message") = true ->
  truthy (member (member (body request) "message") "data") = true ->
  Buffer_from_base64_toString (member (member (body request) "message") "data")
  = inl fault ->
  decode (member (body request) "message") = Throw fault
  /\ endpoint request = Throw fault.
Proof.
  intros Hbody Hmessage Hdata Hfault.
  assert (decode (member (body request) "message") = Throw fault) as Hdecode.
  { unfold decodePubSubMessage.
    rewrite (getProp_truthy _ "data" Hmessage). simpl.
    rewrite Hdata. simpl. rewrite Hfault. reflexivity. }
  split; [ exact Hdecode | ].
  unfold post, validatePubSubMessage. rewrite Hbody, Hmessage. simpl.
  rewrite Hdecode. reflexivity.
Qed.

(** X4. Once the message is validated and decoded, [post] runs the router and
    nothing else: it issues the router's calls, replies 204 with an empty
    body when the router returns, and throws the router's error unchanged
    when it throws. *)
Theorem post_replies_204_after_router
    {W : Type} (world : World W) (request : Request) (jsonData : JsValue) (w : W) :
  (pubSubMessage <- validatePubSubMessage request ;; decode pubSubMessage) = Ret jsonData ->
  run world (endpoint request) w =
  let '(routed, issued, w1) := run world (route jsonData) w in
  (match routed with
   | Returned _ => Returned {| status := 204; sent := JUndefined |}
   | Thrown error => Thrown error
   end, issued, w1).
Proof.
  intros Hdecoded.
  destruct (bind_returns _ _ _ Hdecoded) as (pubSubMessage & Hvalid & Hdecode).
  unfold post. rewrite run_rethrow_same, Hvalid. simpl bind. rewrite Hdecode. simpl bind.
  rewrite run_bind.
  destruct (run world (route jsonData) w) as [[[[] | error] issued] w1]; simpl;
    [ rewrite app_nil_r | ]; reflexivity.
Qed.

End Endpoint.

Lemma decode_returns_parsed_value_witness :
  decodePubSubMessage Sample.Buffer_toString Sample.parse
    (JObj [("data", JStr "cmVqZWN0ZWQ=")])
  = Ret Sample.rejected_envelope.
Proof.
  apply (decode_returns_parsed_value Sample.Buffer_toString Sample.parse
           (JObj [("data", JStr "cmVqZWN0ZWQ=")]) (JStr "cmVqZWN0ZWQ=")
           (" " ++ Sample.rejected_text ++ nl) Sample.rejected_envelope);
    try reflexivity.
  vm_compute. discriminate.
Defined.

Lemma decode_refuses_null_payload_witness :
  decodePubSubMessage Sample.Buffer_toString Sample.parse
    (JObj [("data", JStr "bnVsbA==")])
  = Throw (CustomError 400 "Bad request: Invalid JSON in message data").
Proof.
  apply (decode_refuses_null_payload Sample.Buffer_toString Sample.parse
           (JObj [("data", JStr "bnVsbA==")]) (JStr "bnVsbA==") "null" JNull);
    try reflexivity.
  vm_compute. discriminate.
Defined.

Lemma post_rethrows_buffer_fault_witness :
  post Sample.config Sample.Buffer_toString Sample.parse
    {| body := JObj [("message", JObj [("data", JNum 5)])] |}
  = Throw (TypeError "The first argument must be of type string").
Proof.
  apply (post_rethrows_buffer_fault Sample.config Sample.Buffer_toString Sample.parse
           {| body := JObj [("message", JObj [("data", JNum 5)])] |}
           (TypeError "The first argument must be of type string"));
    reflexivity.
Defined.

Lemma post_replies_204_after_router_witness :
  run Sample.world
    (post Sample.config Sample.Buffer_toString Sample.parse
       {| body := JObj [("message", JObj [("data", JStr "cmVqZWN0ZWQ=")])] |}) 0
  = (Returned {| status := 204; sent := JUndefined |},
     [ orders_get (JStr "ord1");
       states_query ("key=" ++ dq ++ "rejected" ++ dq);
       orders_post (JStr "ord1")
         {| update_version := 0;
            actions := [transitionState {| typeId := "state"; id := "state-1" |}] |} ],
     3).
Proof.
  exact (post_replies_204_after_router Sample.config Sample.Buffer_toString Sample.parse
           Sample.world
           {| body := JObj [("message", JObj [("data", JStr "cmVqZWN0ZWQ=")])] |}
           Sample.rejected_envelope 0 eq_refl).
Defined.

(* ===================================================================== *)
(** ** Further properties: the router *)
(* ===================================================================== *)

Section Terminal.

Context {W : Type} (world : World W).
Variable config : Configuration.

(** A flow id that does not print stops the handler at its first log line. *)
Lemma rejectedOrCompleted_fault
    (approvalFlowId : JsValue) (isRejected : bool) (orderId : JsValue) (fault : JsError) :
  String_ approvalFlowId = inl fault ->
  handleApprovalFlowRejectedOrCompleted config approvalFlowId isRejected orderId = Throw fault.
Proof.
  intros Hfault. unfold handleApprovalFlowRejectedOrCompleted. rewrite Hfault. reflexivity.
Qed.

(** What [handleApprovalFlowRejectedOrCompleted] does with an order id, for
    a flow id that prints. *)
Lemma run_handleRejectedOrCompleted
    (approvalFlowId : JsValue) (printed : string) (isRejected : bool) (orderId : JsValue)
    (w : W) :
  String_ approvalFlowId = inr printed ->
  run world (handleApprovalFlowRejectedOrCompleted config approvalFlowId isRejected orderId) w =
  if truthy orderId then
    match String_ orderId with
    | inl fault => (Thrown fault, [], w)
    | inr _ =>
        let '(moved, issued, w1) :=
          run world (transitionOrderState orderId (terminal_key config isRejected)) w in
        (match moved with
         | Returned _ => Returned tt
         | Thrown error => Thrown error
         end, issued, w1)
    end
  else (Returned tt, [], w).
Proof.
  intros Hprinted. unfold handleApprovalFlowRejectedOrCompleted.
  rewrite Hprinted. cbn [lift bind]. rewrite run_rethrow_same.
  destruct (truthy orderId); [ | reflexivity ].
  destruct (String_ orderId) as [fault | text_]; [ reflexivity | ].
  cbn [lift bind]. rewrite run_bind. fold (terminal_key config isRejected).
  destruct (run world (transitionOrderState orderId _) w) as [[[moved | error] issued] w1];
    simpl; [ rewrite app_nil_r | ]; reflexivity.
Qed.

(** The three ways the handler goes for a flow id that prints. *)
Lemma rejectedOrCompleted_transitions_flow
    (approvalFlowId : JsValue) (printed : string) (isRejected : bool) (orderId : JsValue)
    (w : W) :
  String_ approvalFlowId = inr printed ->
  (truthy orderId = false ->
   run world (handleApprovalFlowRejectedOrCompleted config approvalFlowId isRejected orderId) w
   = (Returned tt, [], w))
  /\ (forall fault,
        truthy orderId = true ->
        String_ orderId = inl fault ->
        run world
          (handleApprovalFlowRejectedOrCompleted config approvalFlowId isRejected orderId) w
        = (Thrown fault, [], w))
  /\ (forall orderText,
        truthy orderId = true ->
        String_ orderId = inr orderText ->
        calls world
          (handleApprovalFlowRejectedOrCompleted config approvalFlowId isRejected orderId) w
        = calls world
            (transitionOrderState orderId
               (if isRejected then orderRejectedStateKey config
                else orderApprovedStateKey config)) w).
Proof.
  intros Hprinted. unfold calls.
  rewrite (run_handleRejectedOrCompleted _ printed _ _ w Hprinted).
  split; [ intros ->; reflexivity | ].
  split; [ intros fault -> ->; reflexivity | ].
  intros orderText -> ->. unfold terminal_key.
  destruct (run world (transitionOrderState orderId _) w) as [[moved issued] w1].
  reflexivity.
Qed.

End Terminal.

(** X5. [handleApprovalFlowRejectedOrCompleted] prints the flow id first and
    throws the conversion's [TypeError], before any call, when it does not
    print.  Otherwise, with no order id (undefined, null or empty) it returns
    without a call; with an order id that does not print it throws that
    [TypeError], again before any call; with an order id that prints its
    calls are those of one [transitionOrderState] to the configured rejected
    state when the flag is set and to the configured approved state
    otherwise, and it throws only what the transition throws, a
    [CustomError] with status 400.  In no case does it send a mail or look a
    customer up. *)
Theorem rejectedOrCompleted_transitions_by_flag
    {W : Type} (world : World W) (config : Configuration)
    (approvalFlowId : JsValue) (isRejected : bool) (orderId : JsValue) (w : W) :
  (forall fault,
     String_ approvalFlowId = inl fault ->
     run world (handleApprovalFlowRejectedOrCompleted config approvalFlowId isRejected orderId) w
     = (Thrown fault, [], w))
  /\ (forall printed,
        String_ approvalFlowId = inr printed ->
        (truthy orderId = false ->
         run world
           (handleApprovalFlowRejectedOrCompleted config approvalFlowId isRejected orderId) w
         = (Returned tt, [], w))
        /\ (forall fault,
              truthy orderId = true ->
              String_ orderId = inl fault ->
              run world
                (handleApprovalFlowRejectedOrCompleted config approvalFlowId isRejected
                   orderId) w
              = (Thrown fault, [], w))
        /\ (forall orderText,
              truthy orderId = true ->
              String_ orderId = inr orderText ->
              calls world
                (handleApprovalFlowRejectedOrCompleted config approvalFlowId isRejected
                   orderId) w
              = calls world
                  (transitionOrderState orderId
                     (if isRejected then orderRejectedStateKey config
                      else orderApprovedStateKey config)) w
              /\ (forall error,
                    completion world
                      (handleApprovalFlowRejectedOrCompleted config approvalFlowId
                         isRejected orderId) w
                    = Thrown error ->
                    exists reason, error = CustomError 400 reason)))
  /\ mail_recipients
       (calls world
          (handleApprovalFlowRejectedOrCompleted config approvalFlowId isRejected orderId) w)
     = []
  /\ customer_lookups
       (calls world
          (handleApprovalFlowRejectedOrCompleted config approvalFlowId isRejected orderId) w)
     = [].
Proof.
  split.
  { intros fault Hfault. rewrite (rejectedOrCompleted_fault config _ _ _ _ Hfault).
    reflexivity. }
  split.
  { intros printed Hprinted. unfold calls, completion.
    rewrite (run_handleRejectedOrCompleted world config _ printed _ _ w Hprinted).
    split; [ intros ->; reflexivity | ].
    split; [ intros fault -> ->; reflexivity | ].
    intros orderText -> Htext. rewrite Htext.
    pose proof (transition_throws world orderId (terminal_key config isRejected) w
                  orderText) as Hthrows.
    unfold completion, terminal_key in *.
    destruct (run world (transitionOrderState orderId _) w) as [[moved issued] w1].
    split; [ reflexivity | ].
    intros error Hthrown. destruct moved as [body | cause]; [ discriminate | ].
    simpl in Hthrown. injection Hthrown as <-.
    destruct (Hthrows cause Htext eq_refl) as [reason ->]. eexists. reflexivity. }
  unfold calls.
  destruct (String_ approvalFlowId) as [failed | flow] eqn:Hflow.
  { rewrite (rejectedOrCompleted_fault config _ _ _ _ Hflow). split; reflexivity. }
  rewrite (run_handleRejectedOrCompleted world config _ flow _ _ w Hflow).
  destruct (transition_calls world orderId (terminal_key config isRejected) w)
    as (Hmail & _ & Hcustomers & _ & _).
  unfold calls in Hmail, Hcustomers.
  destruct (truthy orderId); [ | split; reflexivity ].
  destruct (String_ orderId) as [failed | orderText]; [ split; reflexivity | ].
  destruct (run world (transitionOrderState orderId _) w) as [[moved issued] w1].
  split; assumption.
Qed.

Lemma rejectedOrCompleted_transitions_by_flag_witness :
  run Sample.world
    (handleApprovalFlowRejectedOrCompleted Sample.config (JStr "af1") true JUndefined) 0
  = (Returned tt, [], 0)
  /\ calls Sample.world
       (handleApprovalFlowRejectedOrCompleted Sample.config (JStr "af1") false (JStr "ord1")) 0
     = calls Sample.world (transitionOrderState (JStr "ord1") "approved") 0
  /\ run Sample.world
       (handleApprovalFlowRejectedOrCompleted Sample.config
          (JObj [("toString", JNum 1)]) false (JStr "ord1")) 0
     = (Thrown cannot_convert, [], 0)
  /\ run Sample.world
       (handleApprovalFlowRejectedOrCompleted Sample.config (JStr "af1") false
          (JArr [JObj [("toString", JNull)]])) 0
     = (Thrown cannot_convert, [], 0).
Proof.
  split; [ | split; [ | split ] ].
  - exact (proj1 (proj1 (proj2 (rejectedOrCompleted_transitions_by_flag
                                  Sample.world Sample.config (JStr "af1") true JUndefined 0))
                    "af1" eq_refl) eq_refl).
  - exact (proj1 (proj2 (proj2 (proj1 (proj2 (rejectedOrCompleted_transitions_by_flag
                                                Sample.world Sample.config (JStr "af1") false
                                                (JStr "ord1") 0))
                                  "af1" eq_refl))
                    "ord1" eq_refl eq_refl)).
  - exact (proj1 (rejectedOrCompleted_transitions_by_flag
                    Sample.world Sample.config (JObj [("toString", JNum 1)]) false
                    (JStr "ord1") 0)
             cannot_convert eq_refl).
  - exact (proj1 (proj2 (proj1 (proj2 (rejectedOrCompleted_transitions_by_flag
                                         Sample.world Sample.config (JStr "af1") false
                                         (JArr [JObj [("toString", JNull)]]) 0))
                           "af1" eq_refl))
             cannot_convert eq_refl eq_refl).
Defined.

Lemma optProp_truthy (v : JsValue) (name : string) :
  truthy (optProp v name) = true -> getProp v name = inr (member v name).
Proof. destruct v; simpl; intros H; try discriminate; reflexivity. Qed.

(** X6. For each notification type with a handler, the router checks the
    field the handler starts from and throws a [CustomError] with status 400
    when it is missing or empty, before any handler runs or any call is
    issued: [approvalFlow] for [ApprovalFlowCreated], [resource.id] for
    [ApprovalFlowApproved], [ApprovalFlowRejected] and
    [ApprovalFlowCompleted]. *)
Theorem route_refuses_missing_subject
    (config : Configuration) (jsonData type : JsValue) :
  destructure_type jsonData = inr type ->
  (type = JStr "ApprovalFlowCreated" ->
   truthy (member jsonData "approvalFlow") = false ->
   routeApprovalFlowMessage config jsonData
   = Throw (CustomError 400 "ApprovalFlow data missing in message"))
  /\ (type = JStr "ApprovalFlowApproved" \/ type = JStr "ApprovalFlowRejected"
      \/ type = JStr "ApprovalFlowCompleted" ->
      truthy (optProp (member jsonData "resource") "id") = false ->
      routeApprovalFlowMessage config jsonData
      = Throw (CustomError 400 "Approval flow ID missing in message")).
Proof.
  intros Htype. unfold routeApprovalFlowMessage. rewrite Htype. simpl. split.
  - intros -> Hmissing. simpl. rewrite Hmissing. reflexivity.
  - intros [-> | [-> | ->]] Hmissing; simpl; rewrite Hmissing; reflexivity.
Qed.

Lemma route_refuses_missing_subject_witness :
  routeApprovalFlowMessage Sample.config (JObj [("type", JStr "ApprovalFlowCreated")])
  = Throw (CustomError 400 "ApprovalFlow data missing in message")
  /\ routeApprovalFlowMessage Sample.config
       (JObj [("type", JStr "ApprovalFlowCompleted"); ("resource", JObj [])])
     = Throw (CustomError 400 "Approval flow ID missing in message").
Proof.
  split.
  - apply (route_refuses_missing_subject Sample.config
             (JObj [("type", JStr "ApprovalFlowCreated")]) (JStr "ApprovalFlowCreated"));
      reflexivity.
  - apply (route_refuses_missing_subject Sample.config
             (JObj [("type", JStr "ApprovalFlowCompleted"); ("resource", JObj [])])
             (JStr "ApprovalFlowCompleted"));
      [ reflexivity | right; right; reflexivity | reflexivity ].
Defined.

(** X7. Routing [ApprovalFlowRejected] or [ApprovalFlowCompleted] with a
    resource id: when the envelope has no [order] object the router faults
    with a [TypeError] on [jsonData.order.id], before the handler that would
    have skipped a missing order id.  With an [order] object, a resource id
    that does not print makes the handler throw the conversion's [TypeError]
    at once; with one that prints, the router returns without a call when
    the order has no id, throws the conversion's [TypeError] without a call
    when the order id does not print, and otherwise issues the calls of one
    [transitionOrderState] for that order, to the rejected state for
    [ApprovalFlowRejected] and to the approved state for
    [ApprovalFlowCompleted]. *)
Theorem route_terminal_notification
    {W : Type} (world : World W) (config : Configuration)
    (jsonData : JsValue) (isRejected : bool) (w : W) :
  destructure_type jsonData = inr (JStr (terminal_type isRejected)) ->
  truthy (optProp (member jsonData "resource") "id") = true ->
  (nullish (member jsonData "order") = true ->
   exists reason, routeApprovalFlowMessage config jsonData = Throw (TypeError reason))
  /\ (forall fault,
        nullish (member jsonData "order") = false ->
        String_ (member (member jsonData "resource") "id") = inl fault ->
        routeApprovalFlowMessage config jsonData = Throw fault)
  /\ (forall printed,
        nullish (member jsonData "order") = false ->
        String_ (member (member jsonData "resource") "id") = inr printed ->
        (truthy (member (member jsonData "order") "id") = false ->
         run world (routeApprovalFlowMessage config jsonData) w = (Returned tt, [], w))
        /\ (forall fault,
              truthy (member (member jsonData "order") "id") = true ->
              String_ (member (member jsonData "order") "id") = inl fault ->
              run world (routeApprovalFlowMessage config jsonData) w = (Thrown fault, [], w))
        /\ (forall orderText,
              truthy (member (member jsonData "order") "id") = true ->
              String_ (member (member jsonData "order") "id") = inr orderText ->
              calls world (routeApprovalFlowMessage config jsonData) w
              = calls world
                  (transitionOrderState (member (member jsonData "order") "id")
                     (if isRejected then orderRejectedStateKey config
                      else orderApprovedStateKey config)) w)).
Proof.
  intros Htype Hresource.
  assert (routeApprovalFlowMessage config jsonData =
          (orderId <- lift (getProp (member jsonData "order") "id") ;;
           handleApprovalFlowRejectedOrCompleted config
             (member (member jsonData "resource") "id") isRejected orderId)) as ->.
  { unfold routeApprovalFlowMessage. rewrite Htype.
    destruct isRejected; simpl; rewrite Hresource, (optProp_truthy _ _ Hresource);
      reflexivity. }
  split; [ | split ].
  - intros Hnone. destruct (member jsonData "order"); try discriminate;
      eexists; reflexivity.
  - intros fault Hsome Hfault. rewrite (getProp_nullish _ "id" Hsome). simpl bind.
    exact (rejectedOrCompleted_fault config _ _ _ _ Hfault).
  - intros printed Hsome Hprinted. rewrite (getProp_nullish _ "id" Hsome). simpl bind.
    destruct (rejectedOrCompleted_transitions_flow world config
                (member (member jsonData "resource") "id") printed isRejected
                (member (member jsonData "order") "id") w Hprinted)
      as (Hnone & Hfault & Hmoves).
    split; [ exact Hnone | ]. split; [ exact Hfault | ].
    intros orderText Hid Htext. exact (Hmoves orderText Hid Htext).
Qed.

Lemma route_terminal_notification_witness :
  calls Sample.world (routeApprovalFlowMessage Sample.config Sample.rejected_envelope) 0
  = calls Sample.world (transitionOrderState (JStr "ord1") "rejected") 0
  /\ run Sample.world
       (routeApprovalFlowMessage Sample.config
          (JObj [ ("type", JStr "ApprovalFlowCompleted");
                  ("resource", JObj [("id", JStr "af1")]);
                  ("order", JObj [("id", JObj [("toString", JNum 1)])]) ])) 0
     = (Thrown cannot_convert, [], 0).
Proof.
  split.
  - exact (proj2 (proj2 (proj2 (proj2 (route_terminal_notification Sample.world Sample.config
                                         Sample.rejected_envelope true 0 eq_refl eq_refl))
                           "af1" eq_refl eq_refl))
             "ord1" eq_refl eq_refl).
  - exact (proj1 (proj2 (proj2 (proj2 (route_terminal_notification Sample.world Sample.config
                                         (JObj [ ("type", JStr "ApprovalFlowCompleted");
                                                 ("resource", JObj [("id", JStr "af1")]);
                                                 ("order",
                                                  JObj [("id", JObj [("toString", JNum 1)])]) ])
                                         false 0 eq_refl eq_refl))
                           "af1" eq_refl eq_refl))
             cannot_convert eq_refl eq_refl).
Defined.

(* ===================================================================== *)
(** ** Further properties: handling ApprovalFlowApproved *)
(* ===================================================================== *)

Lemma observations_app (trace more : list Call) :
  state_lookups (trace ++ more) = (state_lookups trace ++ state_lookups more)%list
  /\ unit_lookups (trace ++ more) = (unit_lookups trace ++ unit_lookups more)%list
  /\ mails_sent (trace ++ more) = (mails_sent trace ++ mails_sent more)%list
  /\ subscription_posts (trace ++ more)
     = (subscription_posts trace ++ subscription_posts more)%list.
Proof.
  unfold state_lookups, unit_lookups, mails_sent, subscription_posts.
  rewrite !flat_map_app. repeat split.
Qed.

Lemma lookups_leave_orders_alone (trace : list Call) :
  forallb is_lookup trace = true ->
  state_lookups trace = [] /\ forallb (fun c => negb (touches_order c)) trace = true.
Proof.
  induction trace as [ | c rest IH]; simpl; [ intros _; split; reflexivity | ].
  intros H. apply andb_prop in H as [Hc Hrest]. destruct (IH Hrest) as [Hs Ht].
  destruct c; simpl in *; try discriminate; auto.
Qed.

Lemma sends_leave_orders_alone (msgs : list MailData) :
  state_lookups (map sgMail_send msgs) = []
  /\ unit_lookups (map sgMail_send msgs) = []
  /\ forallb (fun c => negb (touches_order c)) (map sgMail_send msgs) = true
  /\ mails_sent (map sgMail_send msgs) = msgs.
Proof.
  induction msgs as [ | msg rest IH]; simpl; [ auto | ].
  destruct IH as (Hs & Hu & Ht & Hm). rewrite Hm. auto.
Qed.

Section Units.

Context {W : Type} (world : World W).
Variable businessUnitKey : JsValue.

(** Every business-unit fetch of the customer resolution is for the key it
    was given. *)
Lemma collect_units (associateRoleKeys : list JsValue) :
  forall (customers : list Reference) (w : W),
    Forall (eq businessUnitKey)
      (unit_lookups
         (calls world (collectCustomerReferences associateRoleKeys businessUnitKey customers) w)).
Proof.
  unfold calls.
  induction associateRoleKeys as [ | roleKey rest IH]; intros customers w.
  - constructor.
  - destruct (String_ roleKey) as [fault | printed] eqn:Hkey.
    { rewrite (run_collect_fault _ _ _ _ _ _ _ Hkey). constructor. }
    rewrite (run_collect_step _ _ _ _ _ _ _ Hkey).
    destruct (world w (associateRoles_get roleKey)) as [[error | role] w1];
      [ constructor | ].
    destruct (world w1 (businessUnits_get businessUnitKey)) as [[error | businessUnit] w2];
      [ repeat constructor | ].
    specialize (IH (customers ++ references_for businessUnit roleKey)%list w2).
    destruct (run world _ w2) as [[r c] w3]. simpl in IH |- *.
    constructor; [ reflexivity | exact IH ].
Qed.

Lemma fetch_units (associateRoleKeys : list JsValue) (w : W) :
  Forall (eq businessUnitKey)
    (unit_lookups
       (calls world
          (fetchCustomersByAssociateRoleKeysInBusinessUnit associateRoleKeys businessUnitKey) w)).
Proof.
  destruct (String_ businessUnitKey) as [fault | printed] eqn:Hkey.
  { rewrite (fetchCustomers_fault _ _ _ Hkey). constructor. }
  pose proof (collect_units associateRoleKeys [] w) as Hunits.
  unfold calls in *. rewrite (run_fetchCustomers world _ _ printed w Hkey).
  destruct (run world (collectCustomerReferences associateRoleKeys businessUnitKey []) w)
    as [[[[ | first others] | error] c] w1]; simpl in *; auto.
  destruct (world w1 (customers_query _)) as [answered w2]. simpl.
  destruct (observations_app c [customers_query (id_in (first :: others))])
    as (_ & -> & _). simpl. rewrite app_nil_r. exact Hunits.
Qed.

End Units.

Section Approved.

Context {W : Type} (world : World W).
Variable config : Configuration.
Variables approvalFlowId associateId orderId : JsValue.

Local Abbreviation approved :=
  (handleApprovalFlowApproved config approvalFlowId associateId orderId).

(** A flow id or an order id that does not print stops the handler before
    any call: the flow id at the handler's first log line, the order id at
    the first log line of [fetchOrder]. *)
Lemma approved_fault :
  printable approvalFlowId = false \/ printable orderId = false ->
  approved = Throw cannot_convert.
Proof.
  unfold printable, handleApprovalFlowApproved.
  destruct (String_ approvalFlowId) as [fault | printed] eqn:Hflow.
  { intros _. rewrite (String_fault _ _ Hflow). reflexivity. }
  intros [Hnone | Hnone]; [ discriminate | ].
  destruct (String_ orderId) as [fault | orderText] eqn:Horder; [ | discriminate ].
  cbn [lift bind]. rewrite (fetchOrder_fault _ _ Horder), (String_fault _ _ Horder).
  reflexivity.
Qed.

(** Every way [handleApprovalFlowApproved] can go with ids that print. *)
Lemma run_handleApproved (printed orderText : string) (w : W) :
  String_ approvalFlowId = inr printed ->
  String_ orderId = inr orderText ->
  run world approved w =
  let '(fetched, w1) := world w (orders_get orderId) in
  match fetched with
  | inl cause => (Thrown (order_failure cause), [orders_get orderId], w1)
  | inr order =>
      match order_businessUnit order with
      | None => (Returned tt, [orders_get orderId], w1)
      | Some reference =>
          if negb (truthy_string (ref_key reference)) then
            (Returned tt, [orders_get orderId], w1)
          else
            let flow_get :=
              approvalFlows_get associateId (ref_key reference) approvalFlowId in
            let '(flowed, w2) := world w1 flow_get in
            match flowed with
            | inl cause =>
                (Thrown (flow_failure cause), [orders_get orderId; flow_get], w2)
            | inr approvalFlow =>
                match flow_currentTierPendingApprovers approvalFlow with
                | [] => (Returned tt, [orders_get orderId; flow_get], w2)
                | _ :: _ =>
                    let '(resolved, c1, w3) :=
                      run world
                        (fetchCustomersByAssociateRoleKeysInBusinessUnit
                           (pending_keys approvalFlow)
                           (JStr (ref_key (flow_businessUnit approvalFlow)))) w2 in
                    match resolved with
                    | Thrown error =>
                        (Thrown error, orders_get orderId :: flow_get :: c1, w3)
                    | Returned customers =>
                        let '(notified, c2, w4) :=
                          run world
                            (sendApprovalNotifications config customers approvalFlowId) w3 in
                        (notified, orders_get orderId :: flow_get :: (c1 ++ c2)%list, w4)
                    end
                end
            end
      end
  end.
Proof.
  intros Hprinted Horder. unfold handleApprovalFlowApproved.
  rewrite Hprinted. cbn [lift bind].
  rewrite run_rethrow_same, run_bind, (run_fetchOrder world _ orderText w Horder).
  destruct (world w (orders_get orderId)) as [[cause | order] w1]; simpl fst; simpl snd;
    [ reflexivity | ].
  cbv beta iota.
  destruct (order_businessUnit order) as [reference | ]; [ | reflexivity ].
  destruct (negb (truthy_string (ref_key reference))); [ reflexivity | ].
  rewrite run_bind. unfold fetchApprovalFlow. rewrite Hprinted. cbn [lift bind].
  rewrite run_rethrow, run_execute.
  cbv zeta.
  destruct (world w1 (approvalFlows_get associateId (ref_key reference) approvalFlowId))
    as [[cause | approvalFlow] w2]; simpl fst; simpl snd; [ reflexivity | ].
  cbv beta iota. unfold pending_keys.
  destruct (flow_currentTierPendingApprovers approvalFlow) as [ | approver others];
    [ reflexivity | ].
  cbn [List.length Nat.ltb Nat.leb]. rewrite run_bind.
  destruct (run world (fetchCustomersByAssociateRoleKeysInBusinessUnit _ _) w2)
    as [[[customers | error] c1] w3]; [ | reflexivity ].
  cbv beta iota.
  destruct (run world (sendApprovalNotifications config customers approvalFlowId) w3)
    as [[notified c2] w4]. reflexivity.
Qed.

End Approved.

(** X8. [handleApprovalFlowApproved] never changes an order's state: on every
    input and against every platform it issues no order update and no state
    query.  When the flow id and the order id print as strings, its first
    call is the fetch of the order and whatever it throws is a [CustomError]
    with status 400 or 500; when one of them does not print, it throws the
    conversion's [TypeError] before any call. *)
Theorem approved_never_transitions
    {W : Type} (world : World W) (config : Configuration)
    (approvalFlowId associateId orderId : JsValue) (w : W) :
  order_updates
    (calls world (handleApprovalFlowApproved config approvalFlowId associateId orderId) w) = []
  /\ state_lookups
       (calls world (handleApprovalFlowApproved config approvalFlowId associateId orderId) w)
     = []
  /\ (printable approvalFlowId = true ->
      printable orderId = true ->
      (exists rest,
         calls world (handleApprovalFlowApproved config approvalFlowId associateId orderId) w
         = orders_get orderId :: rest)
      /\ (forall error,
            completion world
              (handleApprovalFlowApproved config approvalFlowId associateId orderId) w
            = Thrown error ->
            exists reason, error = CustomError 400 reason \/ error = CustomError 500 reason))
  /\ (printable approvalFlowId = false \/ printable orderId = false ->
      run world (handleApprovalFlowApproved config approvalFlowId associateId orderId) w
      = (Thrown cannot_convert, [], w)).
Proof.
  assert (printable approvalFlowId = false \/ printable orderId = false ->
          run world (handleApprovalFlowApproved config approvalFlowId associateId orderId) w
          = (Thrown cannot_convert, [], w)) as Hfault.
  { intros Hnone. rewrite (approved_fault config _ _ _ Hnone). reflexivity. }
  destruct (printable approvalFlowId) eqn:Hflow.
  2: { unfold calls. rewrite (Hfault (or_introl eq_refl)). simpl.
       repeat split; auto; discriminate. }
  destruct (printable orderId) eqn:Horder.
  2: { unfold calls. rewrite (Hfault (or_intror eq_refl)). simpl.
       repeat split; auto; discriminate. }
  destruct (printable_String_ _ Hflow) as [printed Hprinted].
  destruct (printable_String_ _ Horder) as [orderText Htext].
  assert (order_updates
            (calls world (handleApprovalFlowApproved config approvalFlowId associateId orderId)
               w) = []
          /\ state_lookups
               (calls world
                  (handleApprovalFlowApproved config approvalFlowId associateId orderId) w)
             = []
          /\ (exists rest,
                calls world
                  (handleApprovalFlowApproved config approvalFlowId associateId orderId) w
                = orders_get orderId :: rest)
          /\ (forall error,
                completion world
                  (handleApprovalFlowApproved config approvalFlowId associateId orderId) w
                = Thrown error ->
                exists reason,
                  error = CustomError 400 reason \/ error = CustomError 500 reason))
    as (Hupdates & Hstates & Hfirst & Hthrown).
  2: { repeat split; auto; intros [H | H]; discriminate. }
  unfold calls, completion.
  rewrite (run_handleApproved world config _ _ _ printed orderText w Hprinted Htext).
  destruct (world w (orders_get orderId)) as [[cause | order] w1].
  { simpl. repeat split; auto; [ eexists; reflexivity | ].
    intros error H. injection H as <-. eexists. left. reflexivity. }
  destruct (order_businessUnit order) as [reference | ].
  2: { simpl. repeat split; auto; [ eexists; reflexivity | discriminate ]. }
  destruct (negb (truthy_string (ref_key reference))).
  { simpl. repeat split; auto; [ eexists; reflexivity | discriminate ]. }
  cbv zeta.
  destruct (world w1 (approvalFlows_get _ _ _)) as [[cause | approvalFlow] w2].
  { simpl. repeat split; auto; [ eexists; reflexivity | ].
    intros error H. injection H as <-. eexists. left. reflexivity. }
  destruct (flow_currentTierPendingApprovers approvalFlow) as [ | approver others] eqn:Hpending.
  { simpl. repeat split; auto; [ eexists; reflexivity | discriminate ]. }
  destruct (fetch_lookups world (pending_keys approvalFlow)
              (JStr (ref_key (flow_businessUnit approvalFlow))) w2) as (Hkind & _ & _).
  pose proof (fetch_throws world (pending_keys approvalFlow)
                (JStr (ref_key (flow_businessUnit approvalFlow))) w2
                (ref_key (flow_businessUnit approvalFlow))) as Hfetch.
  unfold calls, completion in Hkind, Hfetch.
  destruct (run world (fetchCustomersByAssociateRoleKeysInBusinessUnit _ _) w2)
    as [[resolved c1] w3]. simpl in Hkind, Hfetch.
  destruct (lookups_send_nothing c1 Hkind) as [_ Hpost1].
  destruct (lookups_leave_orders_alone c1 Hkind) as [Hstate1 _].
  destruct resolved as [customers | error].
  2: { simpl. rewrite Hpost1, Hstate1. repeat split; auto; [ eexists; reflexivity | ].
       intros failed H. injection H as <-.
       destruct (Hfetch error eq_refl eq_refl) as [cause ->].
       eexists. left. reflexivity. }
  pose proof (run_sendApprovalNotifications world config customers approvalFlowId
                printed w3 Hprinted) as Hsent.
  pose proof (notify_throws world config customers approvalFlowId w3 printed) as Hnotify.
  unfold completion in Hnotify.
  destruct (run world (sendApprovalNotifications config customers approvalFlowId) w3)
    as [[notified c2] w4]. simpl in Hnotify.
  injection Hsent as _ -> _.
  destruct (sends_only (notifications config customers printed)) as (Hpost2 & _ & _).
  destruct (sends_leave_orders_alone (notifications config customers printed))
    as (Hstate2 & _ & _ & _).
  destruct (lookups_app c1 (map sgMail_send (notifications config customers printed)))
    as (_ & Ho & _ & _).
  destruct (observations_app c1
              (map sgMail_send (notifications config customers printed)))
    as (Hs & _).
  simpl. rewrite Ho, Hs, Hpost1, Hpost2, Hstate1, Hstate2.
  repeat split; auto; [ eexists; reflexivity | ].
  intros error H. destruct (Hnotify error Hprinted H) as [cause ->].
  eexists. right. reflexivity.
Qed.

Lemma approved_never_transitions_witness :
  (exists rest,
     calls Sample.next_tier
       (handleApprovalFlowApproved Sample.config (JStr "af1") (JStr "cust1") (JStr "ord1")) 0
     = orders_get (JStr "ord1") :: rest)
  /\ run Sample.next_tier
       (handleApprovalFlowApproved Sample.config (JStr "af1") (JStr "cust1")
          (JObj [("toString", JStr "ord1")])) 0
     = (Thrown cannot_convert, [], 0).
Proof.
  split.
  - exact (proj1 (proj1 (proj2 (proj2 (approved_never_transitions Sample.next_tier
                                         Sample.config (JStr "af1") (JStr "cust1")
                                         (JStr "ord1") 0)))
                    eq_refl eq_refl)).
  - exact (proj2 (proj2 (proj2 (approved_never_transitions Sample.next_tier
                                  Sample.config (JStr "af1") (JStr "cust1")
                                  (JObj [("toString", JStr "ord1")]) 0)))
             (or_intror eq_refl)).
Defined.

(** X9. With a flow id and an order id that print as strings,
    [handleApprovalFlowApproved] stops after the order fetch when the order
    has no business unit key, and after the approval-flow fetch, which is
    scoped to the associate and to the order's business unit, when the flow
    has no approver pending in its current tier: it returns without looking
    any customer up and without sending any mail. *)
Theorem approved_stops_early
    {W : Type} (world : World W) (config : Configuration)
    (approvalFlowId associateId orderId : JsValue) (w : W) (order : Order) (w1 : W) :
  printable approvalFlowId = true ->
  printable orderId = true ->
  world w (orders_get orderId) = (inr order, w1) ->
  (order_businessUnit order = None
   \/ order_businessUnit order = Some {| ref_key := "" |} ->
   run world (handleApprovalFlowApproved config approvalFlowId associateId orderId) w
   = (Returned tt, [orders_get orderId], w1))
  /\ (forall reference approvalFlow w2,
        order_businessUnit order = Some reference ->
        ref_key reference <> "" ->
        world w1 (approvalFlows_get associateId (ref_key reference) approvalFlowId)
        = (inr approvalFlow, w2) ->
        flow_currentTierPendingApprovers approvalFlow = [] ->
        run world (handleApprovalFlowApproved config approvalFlowId associateId orderId) w
        = (Returned tt,
           [ orders_get orderId;
             approvalFlows_get associateId (ref_key reference) approvalFlowId ],
           w2)).
Proof.
  intros Hflow Horder Hfetched.
  destruct (printable_String_ _ Hflow) as [printed Hprinted].
  destruct (printable_String_ _ Horder) as [orderText Htext].
  rewrite (run_handleApproved world config _ _ _ printed orderText w Hprinted Htext),
    Hfetched.
  split.
  - intros [-> | ->]; reflexivity.
  - intros reference approvalFlow w2 -> Hkey Hflowed Hnone.
    replace (negb (truthy_string (ref_key reference))) with false.
    2: { symmetry. apply negb_false_iff.
         destruct (truthy_string (ref_key reference)) eqn:Hk; [ reflexivity | ].
         apply truthy_string_empty in Hk. contradiction. }
    cbv zeta. rewrite Hflowed, Hnone. reflexivity.
Qed.

Lemma approved_stops_early_witness :
  run Sample.world
    (handleApprovalFlowApproved Sample.config (JStr "af1") (JStr "cust1") (JStr "ord1")) 0
  = (Returned tt,
     [ orders_get (JStr "ord1");
       approvalFlows_get (JStr "cust1") "bu1" (JStr "af1") ],
     2).
Proof.
  refine (proj2 (approved_stops_early Sample.world Sample.config
                   (JStr "af1") (JStr "cust1") (JStr "ord1") 0
                   {| order_id := "ord1"; order_version := 0;
                      order_businessUnit := Some {| ref_key := "bu1" |} |} 1
                   eq_refl eq_refl eq_refl)
            {| ref_key := "bu1" |}
            {| flow_id := "af1";
               flow_businessUnit := {| ref_key := "bu1" |};
               flow_order := {| ref_id := "ord1" |};
               flow_currentTierPendingApprovers := [] |}
            2 eq_refl _ eq_refl eq_refl).
  discriminate.
Defined.

(** X10. With a flow id and an order id that print as strings, when the
    approved flow still has approvers pending, [handleApprovalFlowApproved]
    resolves their role keys in list order, in the business unit the fetched
    flow names (not the one of the order); once the customers are fetched it
    sends one mail per customer with a non-empty email and no other, and
    when it returns every pending role key has been looked up. *)
Theorem approved_notifies_pending_approvers
    {W : Type} (world : World W) (config : Configuration)
    (approvalFlowId associateId orderId : JsValue) (w : W)
    (order : Order) (reference : KeyReference) (approvalFlow : ApprovalFlow) (w1 w2 : W) :
  printable approvalFlowId = true ->
  printable orderId = true ->
  world w (orders_get orderId) = (inr order, w1) ->
  order_businessUnit order = Some reference ->
  ref_key reference <> "" ->
  world w1 (approvalFlows_get associateId (ref_key reference) approvalFlowId)
  = (inr approvalFlow, w2) ->
  flow_currentTierPendingApprovers approvalFlow <> [] ->
  Forall (eq (JStr (ref_key (flow_businessUnit approvalFlow))))
    (unit_lookups
       (calls world (handleApprovalFlowApproved config approvalFlowId associateId orderId) w))
  /\ (exists n,
        role_lookups
          (calls world (handleApprovalFlowApproved config approvalFlowId associateId orderId) w)
        = firstn n (pending_keys approvalFlow))
  /\ (forall customers c1 w3,
        run world
          (fetchCustomersByAssociateRoleKeysInBusinessUnit (pending_keys approvalFlow)
             (JStr (ref_key (flow_businessUnit approvalFlow)))) w2
        = (Returned customers, c1, w3) ->
        mail_recipients
          (calls world (handleApprovalFlowApproved config approvalFlowId associateId orderId) w)
        = map email (filter has_email customers))
  /\ (completion world
        (handleApprovalFlowApproved config approvalFlowId associateId orderId) w
      = Returned tt ->
      role_lookups
        (calls world (handleApprovalFlowApproved config approvalFlowId associateId orderId) w)
      = pending_keys approvalFlow).
Proof.
  intros Hprints Hprinto Horder Hunit Hkey Hflow Hpending.
  destruct (printable_String_ _ Hprints) as [printed Hprinted].
  destruct (printable_String_ _ Hprinto) as [orderText Htext].
  unfold calls, completion.
  rewrite (run_handleApproved world config _ _ _ printed orderText w Hprinted Htext),
    Horder, Hunit.
  replace (negb (truthy_string (ref_key reference))) with false.
  2: { symmetry. apply negb_false_iff.
       destruct (truthy_string (ref_key reference)) eqn:Hk; [ reflexivity | ].
       apply truthy_string_empty in Hk. contradiction. }
  cbv zeta. rewrite Hflow.
  destruct (flow_currentTierPendingApprovers approvalFlow) as [ | approver others] eqn:Hsome;
    [ contradiction | ].
  destruct (fetch_lookups world (pending_keys approvalFlow)
              (JStr (ref_key (flow_businessUnit approvalFlow))) w2)
    as (Hkind & Hprefix & Hall).
  pose proof (fetch_units world (JStr (ref_key (flow_businessUnit approvalFlow)))
                (pending_keys approvalFlow) w2) as Hunits.
  unfold calls, completion in Hkind, Hprefix, Hall, Hunits.
  destruct (run world (fetchCustomersByAssociateRoleKeysInBusinessUnit _ _) w2)
    as [[resolved c1] w3]. simpl in Hkind, Hprefix, Hall, Hunits.
  destruct (lookups_send_nothing c1 Hkind) as [Hmail1 _].
  destruct resolved as [customers | error].
  2: { simpl. repeat split; auto; discriminate. }
  pose proof (run_sendApprovalNotifications world config customers approvalFlowId
                printed w3 Hprinted) as Hsent.
  destruct (run world (sendApprovalNotifications config customers approvalFlowId) w3)
    as [[notified c2] w4].
  injection Hsent as _ -> _.
  destruct (sends_only (notifications config customers printed)) as (_ & Hroles2 & _).
  destruct (sends_leave_orders_alone (notifications config customers printed))
    as (_ & Hunits2 & _ & _).
  pose proof (mail_recipients_sends (notifications config customers printed))
    as Hmail2.
  rewrite notifications_recipients in Hmail2.
  destruct (lookups_app c1 (map sgMail_send (notifications config customers printed)))
    as (Hm & _ & Hr & _).
  destruct (observations_app c1
              (map sgMail_send (notifications config customers printed)))
    as (_ & Hu & _).
  simpl. rewrite Hm, Hr, Hu, Hmail1, Hmail2, Hroles2, Hunits2, !app_nil_r.
  repeat split; auto.
  - intros found c1' w3' Hfound. injection Hfound as <- _ _. reflexivity.
  - intros _. exact (Hall customers eq_refl).
Qed.

Lemma approved_notifies_pending_approvers_witness :
  Forall (eq (JStr "bu2"))
    (unit_lookups
       (calls Sample.next_tier
          (handleApprovalFlowApproved Sample.config (JStr "af1") (JStr "cust1")
             (JStr "ord1")) 0))
  /\ mail_recipients
       (calls Sample.next_tier
          (handleApprovalFlowApproved Sample.config (JStr "af1") (JStr "cust1")
             (JStr "ord1")) 0)
     = ["alice@example.com"].
Proof.
  pose proof (approved_notifies_pending_approvers Sample.next_tier Sample.config
                (JStr "af1") (JStr "cust1") (JStr "ord1") 0
                {| order_id := "ord1"; order_version := 0;
                   order_businessUnit := Some {| ref_key := "bu1" |} |}
                {| ref_key := "bu1" |}
                {| flow_id := "af1";
                   flow_businessUnit := {| ref_key := "bu2" |};
                   flow_order := {| ref_id := "ord1" |};
                   flow_currentTierPendingApprovers :=
                     [ {| associateRole := {| ref_key := "buyer" |} |} ] |}
                1 2 eq_refl eq_refl eq_refl eq_refl) as H.
  destruct H as (Hunits & _ & Hmails & _); try discriminate; try reflexivity.
  split; [ exact Hunits | ].
  exact (Hmails [Sample.alice] _ 5 eq_refl).
Defined.

(* ===================================================================== *)
(** ** Further properties: handling ApprovalFlowCreated *)
(* ===================================================================== *)

Lemma approver_role_key_error (approver : JsValue) (error : JsError) :
  approver_role_key approver = inl error -> exists reason, error = TypeError reason.
Proof.
  unfold approver_role_key.
  destruct (getProp approver "associateRole") as [failed | role] eqn:Hrole.
  - intros H. injection H as <-. exact (getProp_error _ _ _ Hrole).
  - apply getProp_error.
Qed.

Lemma Array_map_error (what : string) (value : JsValue) (error : JsError) :
  Array_map approver_role_key what value = inl error ->
  exists reason, error = TypeError reason.
Proof.
  destruct value as [ | | b | n | s | items | fields ]; simpl;
    try (intros H; injection H as <-; eexists; reflexivity).
  induction items as [ | item rest IH]; simpl; [ discriminate | ].
  destruct (approver_role_key item) as [failed | key] eqn:Hitem.
  - intros H. injection H as <-. exact (approver_role_key_error _ _ Hitem).
  - destruct (fold_right _ _ rest) as [failed | keys]; [ | discriminate ].
    intros H. injection H as <-. apply IH. reflexivity.
Qed.

(** What [handleApprovalFlowCreated] can throw: a [TypeError] of a read or
    of a conversion, with no order touched, or the error a step wraps its
    failure into, whose message says which step failed. *)
Lemma created_throws
    {W : Type} (world : World W) (config : Configuration)
    (approvalFlow : JsValue) (w : W) (error : JsError) :
  completion world (handleApprovalFlowCreated config approvalFlow) w = Thrown error ->
  (exists reason,
     error = TypeError reason
     /\ forallb (fun c => negb (touches_order c))
          (calls world (handleApprovalFlowCreated config approvalFlow) w) = true
     /\ (printable (optProp (member approvalFlow "order") "id") = true ->
         calls world (handleApprovalFlowCreated config approvalFlow) w = []))
  \/ (exists status reason,
        (status = 400 \/ status = 500)%Z
        /\ error = CustomError status ("Failed to " ++ reason)).
Proof.
  unfold completion, calls.
  destruct (getProp approvalFlow "id") as [fault | approvalFlowId] eqn:Hid.
  { unfold handleApprovalFlowCreated. rewrite Hid. simpl. intros H. injection H as <-.
    left. destruct (getProp_error _ _ _ Hid) as [reason ->]. eauto. }
  destruct (String_ approvalFlowId) as [fault | printed] eqn:Hprinted.
  { rewrite (created_fault config _ _ _ Hid Hprinted). simpl. intros H. injection H as <-.
    left. rewrite (String_fault _ _ Hprinted). unfold cannot_convert. eauto. }
  destruct (strict_eq_zero
              (member (or_else (member approvalFlow "currentTierPendingApprovers") (JArr []))
                 "length")) eqn:Hlength.
  { unfold handleApprovalFlowCreated. rewrite Hid. cbn [lift bind].
    rewrite Hprinted. cbn [lift bind].
    rewrite (getProp_defined _ _ "currentTierPendingApprovers" _ Hid).
    cbn [lift bind]. rewrite Hlength. simpl. discriminate. }
  destruct (Array_map approver_role_key "currentTierPendingApprovers"
              (or_else (member approvalFlow "currentTierPendingApprovers") (JArr [])))
    as [fault | associateRoleKeys] eqn:Hkeys.
  { unfold handleApprovalFlowCreated. rewrite Hid. cbn [lift bind].
    rewrite Hprinted. cbn [lift bind].
    rewrite (getProp_defined _ _ "currentTierPendingApprovers" _ Hid).
    cbn [lift bind]. rewrite Hlength, Hkeys. simpl. intros H. injection H as <-.
    left. destruct (Array_map_error _ _ _ Hkeys) as [reason ->]. eauto. }
  destruct (getProp (member approvalFlow "businessUnit") "key")
    as [fault | businessUnitKey] eqn:Hunit.
  { unfold handleApprovalFlowCreated. rewrite Hid. cbn [lift bind].
    rewrite Hprinted. cbn [lift bind].
    rewrite (getProp_defined _ _ "currentTierPendingApprovers" _ Hid),
      (getProp_defined _ _ "businessUnit" _ Hid).
    cbn [lift bind]. rewrite Hlength, Hkeys, Hunit. simpl. intros H. injection H as <-.
    left. destruct (getProp_error _ _ _ Hunit) as [reason ->]. eauto. }
  rewrite (run_handle_steps world config _ _ printed _ _ w Hid Hprinted Hlength Hkeys Hunit).
  destruct (String_ businessUnitKey) as [fault | unitText] eqn:Hkey.
  { rewrite (fetchCustomers_fault _ _ _ Hkey). simpl. intros H. injection H as <-.
    left. rewrite (String_fault _ _ Hkey). unfold cannot_convert. eauto. }
  pose proof (fetch_throws world associateRoleKeys businessUnitKey w unitText) as Hfetch.
  destruct (fetch_lookups world associateRoleKeys businessUnitKey w) as (Hkind & _ & _).
  unfold completion, calls in Hfetch, Hkind.
  destruct (run world (fetchCustomersByAssociateRoleKeysInBusinessUnit _ _) w)
    as [[[customers | failed] c1] w1]; simpl in Hfetch, Hkind.
  2: { simpl. intros H. injection H as <-. right.
       destruct (Hfetch failed Hkey eq_refl) as [cause ->].
       exists 400%Z. eexists. split; [ left; reflexivity | reflexivity ]. }
  destruct (lookups_leave_orders_alone c1 Hkind) as [_ Huntouched1].
  pose proof (notify_throws world config customers approvalFlowId w1 printed) as Hnotify.
  pose proof (run_sendApprovalNotifications world config customers approvalFlowId
                printed w1 Hprinted) as Hsent.
  unfold completion in Hnotify.
  destruct (run world (sendApprovalNotifications config customers approvalFlowId) w1)
    as [[[[] | failed] c2] w2]; simpl in Hnotify.
  2: { simpl. intros H. injection H as <-. right.
       destruct (Hnotify failed Hprinted eq_refl) as [cause ->].
       exists 500%Z. eexists. split; [ right; reflexivity | reflexivity ]. }
  injection Hsent as _ -> _.
  destruct (sends_leave_orders_alone (notifications config customers printed))
    as (_ & _ & Huntouched2 & _).
  destruct (truthy (optProp (member approvalFlow "order") "id")); [ | discriminate ].
  destruct (String_ (optProp (member approvalFlow "order") "id"))
    as [fault | orderText] eqn:Horder.
  { simpl. intros H. injection H as <-. left.
    rewrite (String_fault _ _ Horder). unfold cannot_convert. eexists.
    split; [ reflexivity | ]. split.
    - rewrite forallb_app, Huntouched1, Huntouched2. reflexivity.
    - unfold printable. rewrite Horder. discriminate. }
  pose proof (transition_throws world (optProp (member approvalFlow "order") "id")
                (orderNeedApprovalStateKey config) w2 orderText) as Hmove.
  unfold completion in Hmove.
  destruct (run world (transitionOrderState _ _) w2) as [[[moved | failed] c3] w3];
    simpl in Hmove |- *; [ discriminate | ].
  intros H. injection H as <-. right.
  destruct (Hmove failed Horder eq_refl) as [cause ->].
  exists 400%Z. eexists. split; [ left; reflexivity | reflexivity ].
Qed.


(** X11. Whatever value [handleApprovalFlowCreated] is given as the approval
    flow, what it throws is a [TypeError] or one of the steps' own
    [CustomError]s, with status 400 (customer resolution, order transition)
    or 500 (notification).  A [TypeError] comes from reading or printing a
    value of the message and leaves every order alone: no call for an order
    has been issued when it is thrown.  It even precedes every call, unless
    it is the order id that does not print, which the handler finds out only
    after the lookups and the mails. *)
Theorem created_faults_leave_orders_alone
    {W : Type} (world : World W) (config : Configuration)
    (approvalFlow : JsValue) (w : W) (error : JsError) :
  completion world (handleApprovalFlowCreated config approvalFlow) w = Thrown error ->
  (exists reason,
     error = TypeError reason
     /\ forallb (fun c => negb (touches_order c))
          (calls world (handleApprovalFlowCreated config approvalFlow) w) = true
     /\ (printable (optProp (member approvalFlow "order") "id") = true ->
         calls world (handleApprovalFlowCreated config approvalFlow) w = []))
  \/ (exists reason, error = CustomError 400 reason \/ error = CustomError 500 reason).
Proof.
  intros Hthrown.
  destruct (created_throws world config approvalFlow w error Hthrown)
    as [Hfault | (status & reason & [-> | ->] & ->)].
  - left. exact Hfault.
  - right. eexists. left. reflexivity.
  - right. eexists. right. reflexivity.
Qed.

Lemma created_faults_leave_orders_alone_witness :
  forallb (fun c => negb (touches_order c))
    (calls Sample.world
       (handleApprovalFlowCreated Sample.config
          (JObj [ ("id", JStr "af1");
                  ("businessUnit", JObj [("key", JStr "bu1")]);
                  ("order", JObj [("id", JObj [("toString", JStr "ord1")])]);
                  ("currentTierPendingApprovers", JArr [Sample.pending "approver"]) ])) 0)
  = true
  /\ calls Sample.world
       (handleApprovalFlowCreated Sample.config
          (JObj [("id", JStr "af1"); ("currentTierPendingApprovers", JStr "approver")])) 0
     = [].
Proof.
  split.
  - destruct (created_faults_leave_orders_alone Sample.world Sample.config
                (JObj [ ("id", JStr "af1");
                        ("businessUnit", JObj [("key", JStr "bu1")]);
                        ("order", JObj [("id", JObj [("toString", JStr "ord1")])]);
                        ("currentTierPendingApprovers",
                         JArr [Sample.pending "approver"]) ]) 0
                cannot_convert eq_refl)
      as [(reason & _ & Huntouched & _) | (reason & [H | H])];
      [ exact Huntouched | discriminate H | discriminate H ].
  - destruct (created_faults_leave_orders_alone Sample.world Sample.config
                (JObj [("id", JStr "af1"); ("currentTierPendingApprovers", JStr "approver")])
                0 (TypeError "currentTierPendingApprovers.map is not a function") eq_refl)
      as [(reason & _ & _ & Hnone) | (reason & [H | H])];
      [ exact (Hnone eq_refl) | discriminate H | discriminate H ].
Defined.

(** X12. For a flow whose id prints as a string, [handleApprovalFlowCreated]
    stops at the first step that fails and undoes nothing: when the customer
    resolution throws, the handler throws the same error after the
    resolution's calls, with no mail sent; when the notification step
    throws, the handler throws the same error after the sends already
    issued; in both cases no call is made for the order. *)
Theorem created_stops_at_first_failure
    {W : Type} (world : World W) (config : Configuration)
    (approvalFlow approvalFlowId : JsValue) (approvers associateRoleKeys : list JsValue)
    (businessUnitKey orderId : JsValue) (w : W) :
  pending_flow approvalFlow approvalFlowId approvers associateRoleKeys
    businessUnitKey orderId ->
  printable approvalFlowId = true ->
  (forall error c1 w1,
     run world
       (fetchCustomersByAssociateRoleKeysInBusinessUnit associateRoleKeys businessUnitKey) w
     = (Thrown error, c1, w1) ->
     run world (handleApprovalFlowCreated config approvalFlow) w = (Thrown error, c1, w1)
     /\ mail_recipients c1 = []
     /\ forallb (fun c => negb (touches_order c)) c1 = true)
  /\ (forall customers c1 w1 error c2 w2,
        run world
          (fetchCustomersByAssociateRoleKeysInBusinessUnit associateRoleKeys businessUnitKey) w
        = (Returned customers, c1, w1) ->
        run world (sendApprovalNotifications config customers approvalFlowId) w1
        = (Thrown error, c2, w2) ->
        run world (handleApprovalFlowCreated config approvalFlow) w
        = (Thrown error, (c1 ++ c2)%list, w2)
        /\ mail_recipients (c1 ++ c2) = map email (filter has_email customers)
        /\ forallb (fun c => negb (touches_order c)) (c1 ++ c2) = true).
Proof.
  intros Hflow Hprints.
  destruct (printable_String_ _ Hprints) as [printed Hprinted].
  pose proof (run_handle_pending world config _ _ _ _ _ _ _ w Hflow Hprinted) as Hrun.
  destruct (fetch_lookups world associateRoleKeys businessUnitKey w) as (Hkind & _ & _).
  unfold calls in Hkind. split.
  - intros error c1 w1 Hfetch. rewrite Hfetch in Hrun, Hkind. simpl in Hkind.
    destruct (lookups_send_nothing c1 Hkind) as [Hmail _].
    destruct (lookups_leave_orders_alone c1 Hkind) as [_ Huntouched]. auto.
  - intros customers c1 w1 error c2 w2 Hfetch Hnotify.
    rewrite Hfetch in Hrun, Hkind. rewrite Hnotify in Hrun. simpl in Hkind.
    destruct (lookups_send_nothing c1 Hkind) as [Hmail1 _].
    destruct (lookups_leave_orders_alone c1 Hkind) as [_ Huntouched1].
    pose proof (run_sendApprovalNotifications world config customers approvalFlowId
                  printed w1 Hprinted) as Hsent.
    rewrite Hnotify in Hsent. injection Hsent as _ -> _.
    destruct (sends_leave_orders_alone (notifications config customers printed))
      as (_ & _ & Huntouched2 & _).
    destruct (lookups_app c1 (map sgMail_send (notifications config customers printed)))
      as (Hm & _).
    repeat split; [ exact Hrun | | ].
    + rewrite Hm, Hmail1, mail_recipients_sends, notifications_recipients. reflexivity.
    + rewrite forallb_app, Huntouched1, Huntouched2. reflexivity.
Qed.

Lemma created_stops_at_first_failure_witness :
  run Sample.mail_down
    (handleApprovalFlowCreated Sample.config (Sample.flow [Sample.pending "approver"])) 0
  = (Thrown (notification_failure
               (bulk_failure (LibraryError "ResponseError" "Unauthorized"))),
     [ associateRoles_get (JStr "approver");
       businessUnits_get (JStr "bu1");
       customers_query (id_in [ {| ref_id := "c1" |}; {| ref_id := "c2" |} ]);
       sgMail_send
         {| to := "alice@example.com";
            from := "noreply@example.com";
            subject := getApprovalNotificationSubject "af1";
            text := getApprovalNotificationTemplate "Alice" "af1";
            html := replace_newlines (getApprovalNotificationTemplate "Alice" "af1") |} ],
     4).
Proof.
  pose proof (created_stops_at_first_failure Sample.mail_down Sample.config
                (Sample.flow [Sample.pending "approver"]) (JStr "af1")
                [Sample.pending "approver"] [JStr "approver"] (JStr "bu1") (JStr "ord1") 0)
    as H.
  destruct H as [_ H].
  - constructor; try reflexivity; [ discriminate | ].
    constructor; [ reflexivity | constructor ].
  - reflexivity.
  - destruct (H [Sample.alice; Sample.bob] _ 3
                (notification_failure
                   (bulk_failure (LibraryError "ResponseError" "Unauthorized")))
                _ 4 eq_refl eq_refl) as (Hrun & _).
    exact Hrun.
Defined.

(** X13. An approval flow with approvers pending but no order id (the [order]
    object or its [id] missing or empty) is notified and nothing more: the
    handler issues no call for an order, and returns once the customer
    resolution and the notification step have returned. *)
Theorem created_without_order_skips_transition
    {W : Type} (world : World W) (config : Configuration)
    (approvalFlow approvalFlowId : JsValue) (approvers associateRoleKeys : list JsValue)
    (businessUnitKey orderId : JsValue) (w : W) :
  pending_flow approvalFlow approvalFlowId approvers associateRoleKeys
    businessUnitKey orderId ->
  truthy orderId = false ->
  forallb (fun c => negb (touches_order c))
    (calls world (handleApprovalFlowCreated config approvalFlow) w) = true
  /\ (forall customers c1 w1 c2 w2,
        run world
          (fetchCustomersByAssociateRoleKeysInBusinessUnit associateRoleKeys businessUnitKey) w
        = (Returned customers, c1, w1) ->
        run world (sendApprovalNotifications config customers approvalFlowId) w1
        = (Returned tt, c2, w2) ->
        run world (handleApprovalFlowCreated config approvalFlow) w
        = (Returned tt, (c1 ++ c2)%list, w2)).
Proof.
  intros Hflow Hnone.
  destruct (String_ approvalFlowId) as [fault | printed] eqn:Hprinted.
  { assert (handleApprovalFlowCreated config approvalFlow = Throw fault) as ->.
    { destruct Hflow as [Hid _ _ _ _ _]. exact (created_fault config _ _ _ Hid Hprinted). }
    split; [ reflexivity | ].
    intros customers c1 w1 c2 w2 _ Hnotify.
    rewrite (notify_fault config _ _ _ Hprinted) in Hnotify. discriminate. }
  pose proof (run_handle_pending world config _ _ _ _ _ _ _ w Hflow Hprinted) as Hrun.
  rewrite Hnone in Hrun.
  destruct (fetch_lookups world associateRoleKeys businessUnitKey w) as (Hkind & _ & _).
  unfold calls in *. split.
  - rewrite Hrun.
    destruct (run world (fetchCustomersByAssociateRoleKeysInBusinessUnit _ _) w)
      as [[fetched c1] w1]. simpl in Hkind.
    destruct (lookups_leave_orders_alone c1 Hkind) as [_ Huntouched1].
    destruct fetched as [customers | error]; [ | exact Huntouched1 ].
    pose proof (run_sendApprovalNotifications world config customers approvalFlowId
                  printed w1 Hprinted) as Hsent.
    destruct (run world (sendApprovalNotifications config customers approvalFlowId) w1)
      as [[notified c2] w2].
    injection Hsent as _ -> _.
    destruct (sends_leave_orders_alone (notifications config customers printed))
      as (_ & _ & Huntouched2 & _).
    destruct notified as [[] | error]; simpl;
      rewrite forallb_app, Huntouched1, Huntouched2; reflexivity.
  - intros customers c1 w1 c2 w2 Hfetch Hnotify.
    rewrite Hfetch, Hnotify in Hrun. exact Hrun.
Qed.

Lemma created_without_order_skips_transition_witness :
  forallb (fun c => negb (touches_order c))
    (calls Sample.world
       (handleApprovalFlowCreated Sample.config
          (JObj [ ("id", JStr "af1");
                  ("businessUnit", JObj [("key", JStr "bu1")]);
                  ("currentTierPendingApprovers", JArr [Sample.pending "approver"]) ])) 0)
  = true.
Proof.
  refine (proj1 (created_without_order_skips_transition Sample.world Sample.config
                   (JObj [ ("id", JStr "af1");
                           ("businessUnit", JObj [("key", JStr "bu1")]);
                           ("currentTierPendingApprovers",
                            JArr [Sample.pending "approver"]) ])
                   (JStr "af1") [Sample.pending "approver"] [JStr "approver"]
                   (JStr "bu1") JUndefined 0 _ eq_refl)).
  constructor; try reflexivity; [ discriminate | ].
  constructor; [ reflexivity | constructor ].
Defined.

(* ===================================================================== *)
(** ** Further properties: the customer resolution *)
(* ===================================================================== *)

Lemma id_in_not_empty (first : Reference) (others : list Reference) :
  id_in (first :: others) <> "id in ()".
Proof.
  unfold id_in. destruct others as [ | second others]; simpl; discriminate.
Qed.

Section Batch.

Context {W : Type} (world : World W).
Variable businessUnitKey : JsValue.

Lemma collect_length (associateRoleKeys : list JsValue) :
  forall (customers : list Reference) (w : W),
    List.length
      (calls world (collectCustomerReferences associateRoleKeys businessUnitKey customers) w)
    <= 2 * List.length associateRoleKeys.
Proof.
  unfold calls.
  induction associateRoleKeys as [ | roleKey rest IH]; intros customers w.
  - simpl. lia.
  - destruct (String_ roleKey) as [fault | printed] eqn:Hkey.
    { rewrite (run_collect_fault _ _ _ _ _ _ _ Hkey). simpl. lia. }
    rewrite (run_collect_step _ _ _ _ _ _ _ Hkey).
    destruct (world w (associateRoles_get roleKey)) as [[error | role] w1];
      [ simpl; lia | ].
    destruct (world w1 (businessUnits_get businessUnitKey)) as [[error | businessUnit] w2];
      [ simpl; lia | ].
    specialize (IH (customers ++ references_for businessUnit roleKey)%list w2).
    destruct (run world _ w2) as [[r c] w3]. simpl in IH |- *. lia.
Qed.

End Batch.

(** X14. [fetchCustomersByAssociateRoleKeysInBusinessUnit] fetches the
    customers with at most one batch query, issued last and never with an
    empty id list: when no customer reference was collected it returns the
    empty list without querying.  It issues at most two lookups per role key
    and the query.  It prints the business unit key first: when the key does
    not print it throws the conversion's [TypeError] as it is, before any
    call; when the key prints, it issues no call at all for an empty list of
    role keys, and whatever it throws is its own [CustomError] with status
    400. *)
Theorem fetchCustomers_single_batch_query
    {W : Type} (world : World W) (associateRoleKeys : list JsValue)
    (businessUnitKey : JsValue) (w : W) :
  (forall fault,
     String_ businessUnitKey = inl fault ->
     run world
       (fetchCustomersByAssociateRoleKeysInBusinessUnit associateRoleKeys businessUnitKey) w
     = (Thrown fault, [], w))
  /\ (forall printed,
        String_ businessUnitKey = inr printed ->
        (associateRoleKeys = [] ->
         run world
           (fetchCustomersByAssociateRoleKeysInBusinessUnit associateRoleKeys
              businessUnitKey) w
         = (Returned [], [], w))
        /\ (forall error,
              completion world
                (fetchCustomersByAssociateRoleKeysInBusinessUnit associateRoleKeys
                   businessUnitKey) w
              = Thrown error ->
              exists cause, error = CustomError 400 ("Failed to fetch customers: "
                                                      ++ String_error cause)))
  /\ List.length
       (calls world
          (fetchCustomersByAssociateRoleKeysInBusinessUnit associateRoleKeys businessUnitKey) w)
     <= 2 * List.length associateRoleKeys + 1
  /\ (customer_lookups
        (calls world
           (fetchCustomersByAssociateRoleKeysInBusinessUnit associateRoleKeys businessUnitKey) w)
      = []
      \/ exists lookups predicate,
           calls world
             (fetchCustomersByAssociateRoleKeysInBusinessUnit associateRoleKeys
                businessUnitKey) w
           = (lookups ++ [customers_query predicate])%list
           /\ customer_lookups lookups = []
           /\ predicate <> "id in ()")
  /\ (forall customers,
        completion world
          (fetchCustomersByAssociateRoleKeysInBusinessUnit associateRoleKeys businessUnitKey) w
        = Returned customers ->
        customer_lookups
          (calls world
             (fetchCustomersByAssociateRoleKeysInBusinessUnit associateRoleKeys
                businessUnitKey) w)
        = [] ->
        customers = []).
Proof.
  split.
  { intros fault Hfault. rewrite (fetchCustomers_fault _ _ _ Hfault). reflexivity. }
  split.
  { intros printed Hprinted. split.
    - intros ->. unfold fetchCustomersByAssociateRoleKeysInBusinessUnit.
      rewrite Hprinted. reflexivity.
    - intros error Hthrown.
      exact (fetch_throws world associateRoleKeys businessUnitKey w printed error
               Hprinted Hthrown). }
  destruct (String_ businessUnitKey) as [fault | printed] eqn:Hprinted.
  { unfold calls, completion. rewrite (fetchCustomers_fault _ _ _ Hprinted). simpl.
    split; [ lia | ]. split; [ left; reflexivity | discriminate ]. }
  pose proof (collect_length world businessUnitKey associateRoleKeys [] w) as Hlength.
  destruct (collect_lookups world businessUnitKey associateRoleKeys [] w)
    as (_ & _ & Hnone & _).
  unfold calls, completion in *.
  rewrite (run_fetchCustomers world _ _ printed w Hprinted).
  destruct (run world (collectCustomerReferences associateRoleKeys businessUnitKey []) w)
    as [[[[ | first others] | error] c] w1]; simpl in Hlength, Hnone |- *.
  - split; [ lia | ]. split; [ left; exact Hnone | ].
    intros customers H _. injection H as <-. reflexivity.
  - destruct (world w1 (customers_query _)) as [answered w2]. simpl.
    destruct (lookups_app c [customers_query (id_in (first :: others))])
      as (_ & _ & _ & Hc).
    split; [ rewrite length_app; simpl; lia | ]. split.
    { right. exists c, (id_in (first :: others)).
      repeat split; auto. apply id_in_not_empty. }
    intros customers _. rewrite Hc, Hnone. discriminate.
  - split; [ lia | ]. split; [ left; exact Hnone | discriminate ].
Qed.

Lemma fetchCustomers_single_batch_query_witness :
  run Sample.world
    (fetchCustomersByAssociateRoleKeysInBusinessUnit [] (JStr "bu1")) 0
  = (Returned [], [], 0)
  /\ run Sample.world
       (fetchCustomersByAssociateRoleKeysInBusinessUnit [JStr "approver"]
          (JObj [("toString", JStr "bu1")])) 0
     = (Thrown cannot_convert, [], 0)
  /\ (exists lookups predicate,
        calls Sample.world
          (fetchCustomersByAssociateRoleKeysInBusinessUnit [JStr "approver"; JStr "buyer"]
             (JStr "bu1")) 0
        = (lookups ++ [customers_query predicate])%list
        /\ customer_lookups lookups = []
        /\ predicate <> "id in ()").
Proof.
  split; [ | split ].
  - exact (proj1 (proj1 (proj2 (fetchCustomers_single_batch_query Sample.world []
                                  (JStr "bu1") 0))
                    "bu1" eq_refl) eq_refl).
  - exact (proj1 (fetchCustomers_single_batch_query Sample.world [JStr "approver"]
                    (JObj [("toString", JStr "bu1")]) 0)
             cannot_convert eq_refl).
  - destruct (proj1 (proj2 (proj2 (proj2 (fetchCustomers_single_batch_query Sample.world
                                            [JStr "approver"; JStr "buyer"]
                                            (JStr "bu1") 0)))))
      as [Hnone | Hquery]; [ discriminate Hnone | exact Hquery ].
Defined.

(* ===================================================================== *)
(** ** Further properties: the notification mails *)
(* ===================================================================== *)

Lemma replace_newlines_no_line_feed (text_ : string) :
  ~ In line_feed (list_ascii_of_string (replace_newlines text_)).
Proof.
  induction text_ as [ | c rest IH]; simpl; [ tauto | ].
  destruct (Ascii.eqb_spec c "010"%char) as [-> | Hother]; simpl.
  - intros [H | [H | [H | [H | H]]]]; try discriminate. contradiction.
  - intros [H | H]; [ | contradiction ]. apply Hother. rewrite H. reflexivity.
Qed.

Lemma replace_newlines_without_line_feed (text_ : string) :
  ~ In line_feed (list_ascii_of_string text_) -> replace_newlines text_ = text_.
Proof.
  induction text_ as [ | c rest IH]; simpl; [ reflexivity | ].
  intros Hnone. destruct (Ascii.eqb_spec c "010"%char) as [-> | Hother].
  - exfalso. apply Hnone. left. reflexivity.
  - rewrite IH; [ reflexivity | ]. intros Hin. apply Hnone. right. exact Hin.
Qed.

Lemma display_name_not_empty (c : Customer) :
  has_email c = true -> display_name c <> "".
Proof.
  unfold has_email, display_name. intros Hemail.
  assert (email c <> "") as Hsome.
  { intros Hempty. rewrite Hempty in Hemail. discriminate. }
  assert (forall s, truthy_string s = true -> s <> "") as Htruthy.
  { intros s Hs ->. discriminate. }
  destruct (firstName c) as [f | ]; [ destruct (truthy_string f) eqn:Hf; auto | ];
    (destruct (lastName c) as [l | ]; [ destruct (truthy_string l) eqn:Hl; auto | auto ]).
Qed.

(** X15. The HTML body of a mail sent by [sendEmail] is the HTML given when
    one is given and is not empty; otherwise it is the text with every line
    feed replaced by a break tag, so it holds no line feed, and it is the
    text itself when the text has none.  The mail goes to the addressee
    given, from the configured sender, and the promise returned settles when
    the send does, a rejection replaced by a [CustomError] with status 500. *)
Theorem sendEmail_html_defaults_to_text
    {W : Type} (world : World W) (config : Configuration)
    (to_ subject_ text_ : string) (html_ : option string) (w : W) :
  exists msg promise,
    run world (sendEmail config to_ subject_ text_ html_) w
    = (Returned promise, [sgMail_send msg], snd (world w (sgMail_send msg)))
    /\ to msg = to_ /\ from msg = sendgridFromEmail config
    /\ subject msg = subject_ /\ text msg = text_
    /\ (forall given, html_ = Some given -> given <> "" -> html msg = given)
    /\ (html_ = None \/ html_ = Some "" ->
        html msg = replace_newlines text_
        /\ ~ In line_feed (list_ascii_of_string (html msg))
        /\ (~ In line_feed (list_ascii_of_string text_) -> html msg = text_))
    /\ settledAt promise = settledAt (fst (world w (sgMail_send msg)))
    /\ (forall cause,
          outcome (fst (world w (sgMail_send msg))) = inl cause ->
          outcome promise
          = inl (CustomError 500 ("Failed to send email: " ++ String_error cause)))
    /\ (outcome (fst (world w (sgMail_send msg))) = inr tt -> outcome promise = inr tt).
Proof.
  unfold sendEmail. cbv zeta.
  match goal with
  | |- context [Do (sgMail_send ?m) _] => set (msg := m)
  end.
  exists msg, (email_promise (fst (world w (sgMail_send msg)))).
  split.
  { simpl. destruct (world w (sgMail_send msg)) as [sent_ w1]. reflexivity. }
  repeat (split; [ reflexivity | ]).
  split.
  { intros given -> Hgiven. unfold msg. simpl.
    destruct (truthy_string given) eqn:Ht; [ reflexivity | ].
    apply truthy_string_empty in Ht. contradiction. }
  split.
  { intros Habsent.
    assert (html msg = replace_newlines text_) as Hhtml
      by (destruct Habsent as [-> | ->]; reflexivity).
    rewrite Hhtml. split; [ reflexivity | ]. split.
    - apply replace_newlines_no_line_feed.
    - apply replace_newlines_without_line_feed. }
  split; [ reflexivity | ]. unfold email_promise. cbn [outcome]. split.
  - intros cause Hcause. rewrite Hcause. reflexivity.
  - intros Hdone. rewrite Hdone. reflexivity.
Qed.

Lemma sendEmail_html_defaults_to_text_witness :
  exists msg,
    calls Sample.world
      (sendEmail Sample.config "alice@example.com" "Subject" ("Hi," ++ nl ++ "Bye") None) 0
    = [sgMail_send msg]
    /\ html msg = "Hi,<br>Bye".
Proof.
  destruct (sendEmail_html_defaults_to_text Sample.world Sample.config
              "alice@example.com" "Subject" ("Hi," ++ nl ++ "Bye") None 0)
    as (msg & promise & Hrun & _ & _ & _ & _ & _ & Hhtml & _).
  exists msg. split.
  - unfold calls. rewrite Hrun. reflexivity.
  - destruct (Hhtml (or_introl eq_refl)) as [-> _]. reflexivity.
Defined.

Lemma display_name_greets (c : Customer) : greets c (display_name c).
Proof.
  unfold greets, display_name, no_name.
  assert (forall s, s <> "" -> truthy_string s = true) as Htruthy.
  { intros s Hs. destruct (truthy_string s) eqn:H; [ reflexivity | ].
    apply truthy_string_empty in H. contradiction. }
  split; [ | split ].
  - intros first -> Hfirst. rewrite (Htruthy _ Hfirst). reflexivity.
  - intros last [-> | ->] -> Hlast; simpl; rewrite (Htruthy _ Hlast); reflexivity.
  - intros [-> | ->] [-> | ->]; reflexivity.
Qed.

Lemma notifications_notify (config : Configuration) (flow : string)
    (customers : list Customer) :
  Forall2 (notifies config flow)
    (filter has_email customers) (notifications config customers flow).
Proof.
  unfold notifications.
  assert (Forall (fun c => has_email c = true) (filter has_email customers)) as Hall.
  { apply Forall_forall. intros c Hin. apply filter_In in Hin. tauto. }
  induction Hall as [ | c l Hc _ IH]; simpl; constructor; [ | exact IH ].
  unfold notifies. cbn [to from subject text html message_for recipient_email recipient_name].
  split; [ reflexivity | ]. split; [ reflexivity | ]. split; [ reflexivity | ].
  split; [ | reflexivity ].
  exists (display_name c).
  split; [ apply display_name_greets | ].
  split; [ apply display_name_not_empty, Hc | reflexivity ].
Qed.

(** X16. [sendApprovalNotifications] prints the flow id first and throws the
    conversion's [TypeError], before any call, when it does not print.
    Otherwise it sends one mail per customer that has a non-empty email, in
    order, and nothing else: each goes to the customer's address from the
    configured sender, under the subject that names the flow, with the
    template filled with a name that is never empty (the first name when the
    customer has one, else the last name when the customer has one, else the
    address) and an HTML body that is the text with break tags.  With no
    such customer it returns without a call; whatever it throws is its own
    [CustomError] with status 500. *)
Theorem notifications_one_mail_per_address
    {W : Type} (world : World W) (config : Configuration)
    (customers : list Customer) (approvalFlowId : JsValue) (w : W) :
  (forall fault,
     String_ approvalFlowId = inl fault ->
     run world (sendApprovalNotifications config customers approvalFlowId) w
     = (Thrown fault, [], w))
  /\ (forall flow,
        String_ approvalFlowId = inr flow ->
        calls world (sendApprovalNotifications config customers approvalFlowId) w
        = map sgMail_send
            (mails_sent
               (calls world (sendApprovalNotifications config customers approvalFlowId) w))
        /\ Forall2 (notifies config flow)
             (filter has_email customers)
             (mails_sent
                (calls world (sendApprovalNotifications config customers approvalFlowId) w))
        /\ (filter has_email customers = [] ->
            run world (sendApprovalNotifications config customers approvalFlowId) w
            = (Returned tt, [], w))
        /\ (forall error,
              completion world (sendApprovalNotifications config customers approvalFlowId) w
              = Thrown error ->
              exists reason, error = CustomError 500 reason)).
Proof.
  split.
  { intros fault Hfault. rewrite (notify_fault config _ _ _ Hfault). reflexivity. }
  intros flow Hflow.
  pose proof (notify_throws world config customers approvalFlowId w flow) as Hthrows.
  unfold calls, completion in *.
  rewrite (run_sendApprovalNotifications world config customers approvalFlowId flow w Hflow)
    in *.
  simpl fst in *. simpl snd in *.
  destruct (sends_leave_orders_alone (notifications config customers flow))
    as (_ & _ & _ & ->).
  split; [ reflexivity | ]. split; [ apply notifications_notify | ]. split.
  - intros Hnone. unfold notifications. rewrite Hnone. reflexivity.
  - intros error Hthrown. destruct (Hthrows error Hflow Hthrown) as [cause ->].
    eexists. reflexivity.
Qed.

Lemma notifications_one_mail_per_address_witness :
  Forall2 (notifies Sample.config "42")
    [Sample.alice;
     {| customer_id := "c4"; email := "carol@example.com";
        firstName := Some ""; lastName := None |}]
    [ {| to := "alice@example.com";
         from := "noreply@example.com";
         subject := "New Approval Flow 42 Requires Your Attention";
         text := getApprovalNotificationTemplate "Alice" "42";
         html := replace_newlines (getApprovalNotificationTemplate "Alice" "42") |};
      {| to := "carol@example.com";
         from := "noreply@example.com";
         subject := "New Approval Flow 42 Requires Your Attention";
         text := getApprovalNotificationTemplate "carol@example.com" "42";
         html := replace_newlines
                   (getApprovalNotificationTemplate "carol@example.com" "42") |} ]
  /\ run Sample.world
       (sendApprovalNotifications Sample.config [Sample.alice]
          (JObj [("toString", JStr "af1")])) 0
     = (Thrown cannot_convert, [], 0)
  /\ run Sample.world (sendApprovalNotifications Sample.config [Sample.bob] (JStr "af1")) 0
     = (Returned tt, [], 0).
Proof.
  split; [ | split ].
  - exact (proj1 (proj2 (proj2 (notifications_one_mail_per_address
                                  Sample.world Sample.config
                                  [Sample.alice; Sample.bob;
                                   {| customer_id := "c4"; email := "carol@example.com";
                                      firstName := Some ""; lastName := None |}]
                                  (JNum 42) 0)
                           "42" eq_refl))).
  - exact (proj1 (notifications_one_mail_per_address
                    Sample.world Sample.config [Sample.alice]
                    (JObj [("toString", JStr "af1")]) 0)
             cannot_convert eq_refl).
  - exact (proj1 (proj2 (proj2 (proj2 (notifications_one_mail_per_address
                                         Sample.world Sample.config [Sample.bob]
                                         (JStr "af1") 0)
                                  "af1" eq_refl)))
             eq_refl).
Defined.

(* ===================================================================== *)
(** ** Further properties: the subscription at deploy and undeploy time *)
(* ===================================================================== *)

Section Deploy.

Context {W : Type} (world : World W).



End Deploy.






(** X18. The undeploy script never lets a failure of the subscription delete
    escape as long as [assertError] accepts the error: it issues the calls of
    [deleteApprovalFlowNotificationSubscription] and nothing else, leaves the
    exit code unset and writes nothing when the delete returns, and sets the
    exit code to 1 and writes one line with the error's message to the
    standard error stream when the delete throws. *)
Theorem preUndeploy_run_reports_failure
    {W : Type} (world : World W) (assertError : JsError -> JsError + unit) (w : W) :
  calls world (PreUndeploy.run assertError) w
  = calls world deleteApprovalFlowNotificationSubscription w
  /\ (forall c w1,
        run world deleteApprovalFlowNotificationSubscription w = (Returned tt, c, w1) ->
        completion world (PreUndeploy.run assertError) w
        = Returned {| PreUndeploy.exitCode := None; PreUndeploy.stderr := [] |})
  /\ (forall error c w1,
        run world deleteApprovalFlowNotificationSubscription w = (Thrown error, c, w1) ->
        assertError error = inr tt ->
        completion world (PreUndeploy.run assertError) w
        = Returned {| PreUndeploy.exitCode := Some 1%Z;
                      PreUndeploy.stderr :=
                        ["Post-undeploy failed: " ++ message_of error ++ nl] |}).
Proof.
  unfold calls, completion, PreUndeploy.run, PreUndeploy.preUndeploy.
  rewrite run_try_catch, run_bind.
  destruct (run world deleteApprovalFlowNotificationSubscription w)
    as [[[[] | error] c] w1]; simpl.
  - rewrite app_nil_r. repeat split; auto. discriminate.
  - destruct (assertError error) as [failed | []] eqn:Hassert; simpl;
      rewrite app_nil_r; (split; [ reflexivity | ]); (split; [ discriminate | ]);
      intros error' c' w1' H Haccepted; injection H as <- _ _.
    + rewrite Hassert in Haccepted. discriminate.
    + reflexivity.
Qed.

Lemma preUndeploy_run_reports_failure_witness :
  completion Sample.platform_down (PreUndeploy.run Sample.assertError) 0
  = Returned {| PreUndeploy.exitCode := Some 1%Z;
                PreUndeploy.stderr := ["Post-undeploy failed: ECONNREFUSED" ++ nl] |}.
Proof.
  exact (proj2 (proj2 (preUndeploy_run_reports_failure Sample.platform_down
                         Sample.assertError 0))
           (LibraryError "FetchError" "ECONNREFUSED") _ 1 eq_refl eq_refl).
Defined.
